(** * Quantum32 hybrid sampler: the two Max-Cut PC clients

    A shallow embedding of [pc_client_maxcut.py] (the console client, module
    [Console]) and [pc_client_maxcutV2.py] (the Dear PyGui dashboard, module
    [Dashboard]): the bit decoding and cut score they share, the per-tick
    reassembly of the slaves' records, the best-result tracking, the
    clamping of the user's parameters and the annealing controller; the
    prompts and the batch-header parser of the console client; the
    bookkeeping and the start, stop, restart and clear callbacks of the
    dashboard.

    Python's [int] is unbounded and is modelled by [Z]; Python's [float] is
    IEEE 754 binary64 and is modelled by Rocq's primitive [float], so that
    rounding, signed zeros and NaN behave as they do in the clients.  A
    [dict] keyed by integers is a [gmap Z]; the clients only use membership,
    lookup, [len], [sorted(keys)] and [pop] on them, so insertion order does
    not matter.  Printing, sleeping and the serial port itself are left out:
    the commands written to the port are returned as values of [command],
    and the lines read from it are an argument. *)

From Stdlib Require Import ZArith Floats Uint63 Ascii Lia.
From stdpp Require Import gmap strings list fin_maps sorting.

Local Open Scope Z_scope.
Set Warnings "-inexact-float".

(** ** Python and NumPy primitives used by both clients *)

Module Py.

(** [range(n)]: empty when [n <= 0]. *)
Definition range (n : Z) : list Z := seqZ 0 n.

(** [a[i]] on a one-dimensional array: a negative index counts from the
    end, and an index outside [-len, len) raises [IndexError] ([None]). *)
Definition index {A} (a : list A) (i : Z) : option A :=
  let n := Z.of_nat (length a) in
  if 0 <=? i then a !! Z.to_nat i
  else if - n <=? i then a !! Z.to_nat (n + i)
  else None.

(** [max(a, b)] and [min(a, b)] on floats: the first argument is kept
    unless the second one compares strictly greater (smaller). *)
Definition max_float (a b : float) : float := if (a <? b)%float then b else a.
Definition min_float (a b : float) : float := if (b <? a)%float then b else a.

(** [float(z)] for an integer of magnitude below [2^53], where the
    conversion is exact (and [x / y] on two such integers is the float
    quotient of their conversions). *)
Definition float_of_int (z : Z) : float :=
  if z <? 0 then (- of_uint63 (Uint63.of_Z (- z)))%float
  else of_uint63 (Uint63.of_Z z).

(** [s.split(sep)] for a one-character separator: never empty, and empty
    fields are kept. *)
Fixpoint split (sep : ascii) (s : string) : list string :=
  match s with
  | EmptyString => [EmptyString]
  | String c s' =>
      if Ascii.eqb c sep then EmptyString :: split sep s'
      else match split sep s' with
           | [] => [String c EmptyString]
           | p :: ps => String c p :: ps
           end
  end.

Definition startswith (s p : string) : bool := String.prefix p s.

(** The built-ins [int(str)] and [float(str)], which are not part of the
    repository: [None] stands for the [ValueError] they raise. *)
Class Builtins := {
  int_of_str : string → option Z;
  float_of_str : string → option float
}.

(** [c.isspace()]; the characters of a [string] are read as the code
    points below 256, of which the tab to carriage return, the separators
    28 to 31, the space, 133 and 160 are white space. *)
Definition isspace (c : ascii) : bool :=
  let n := Z.of_N (N_of_ascii c) in
  ((9 <=? n) && (n <=? 13)) || ((28 <=? n) && (n <=? 32)) || (n =? 133) || (n =? 160).

(** [s.lstrip()], [s.rstrip()] and [s.strip()]. *)
Fixpoint lstrip (s : string) : string :=
  match s with
  | String c s' => if isspace c then lstrip s' else s
  | EmptyString => EmptyString
  end.

Fixpoint rstrip (s : string) : string :=
  match s with
  | EmptyString => EmptyString
  | String c s' =>
      match rstrip s' with
      | EmptyString => if isspace c then EmptyString else String c EmptyString
      | r => String c r
      end
  end.

Definition strip (s : string) : string := rstrip (lstrip s).

(** [s.split()]: the maximal runs of characters that are not white
    space.  The auxiliary function returns the run that starts the string
    (empty when the string starts with white space) and the runs after it. *)
Definition cons_word (w : string) (ws : list string) : list string :=
  match w with
  | EmptyString => ws
  | _ => w :: ws
  end.

Fixpoint split_whitespace_from (s : string) : string * list string :=
  match s with
  | EmptyString => (EmptyString, [])
  | String c s' =>
      let '(w, ws) := split_whitespace_from s' in
      if isspace c then (EmptyString, cons_word w ws) else (String c w, ws)
  end.

Definition split_whitespace (s : string) : list string :=
  let '(w, ws) := split_whitespace_from s in cons_word w ws.

(** [s.replace(old, "")]: the occurrences of [old] are removed from left
    to right, without overlap; [skip] counts the characters of an
    occurrence still to drop. *)
Fixpoint remove_from (old : string) (skip : nat) (s : string) : string :=
  match s with
  | EmptyString => EmptyString
  | String c s' =>
      match skip with
      | S k => remove_from old k s'
      | O =>
          if String.prefix old s
          then remove_from old (String.length old - 1) s'
          else String c (remove_from old 0 s')
      end
  end.

Definition remove (s old : string) : string :=
  match old with
  | EmptyString => s
  | _ => remove_from old 0 s
  end.

(** [s.split(sep, 1)] when [sep in s], for a one-character separator: the
    text before the first separator and the text after it; [None] when
    the separator does not occur. *)
Fixpoint cut (sep : ascii) (s : string) : option (string * string) :=
  match s with
  | EmptyString => None
  | String c s' =>
      if Ascii.eqb c sep then Some (EmptyString, s')
      else '(a, b) ← cut sep s'; Some (String c a, b)
  end.

(** [d[k] = v] on a [dict] of strings, kept in insertion order: a key
    already present keeps its place. *)
Fixpoint dict_set (k v : string) (d : list (string * string))
  : list (string * string) :=
  match d with
  | [] => [(k, v)]
  | (k', v') :: d' =>
      if String.eqb k' k then (k', v) :: d' else (k', v') :: dict_set k v d'
  end.

End Py.

(** A reference instance of the built-ins on ASCII text: decimal integer
    literals as [int] reads them (surrounding blanks, a sign, digits with
    single underscores between them), and plain decimal numbers
    [[sign] digits [. digits]] of at most 15 significant digits, which
    convert to binary64 by one correctly rounded division.  Other spellings
    that Python's [float] accepts (exponents, [inf], [nan]) are outside
    this instance; the theorems below hold for every instance, and only the
    closed examples use this one. *)
Module Ascii_builtins.

Definition is_space (c : ascii) : bool :=
  let n := Z.of_N (N_of_ascii c) in (n =? 32) || ((9 <=? n) && (n <=? 13)).

Definition is_digit (c : ascii) : bool :=
  let n := Z.of_N (N_of_ascii c) in (48 <=? n) && (n <=? 57).

Definition digit_value (c : ascii) : Z := Z.of_N (N_of_ascii c) - 48.

Fixpoint lstrip (s : string) : string :=
  match s with
  | String c s' => if is_space c then lstrip s' else s
  | EmptyString => EmptyString
  end.

Definition strip (s : string) : string :=
  String.rev (lstrip (String.rev (lstrip s))).

(** Digits with single underscores between them; [sep] tells whether the
    previous character was an underscore. Returns the value and the
    number of digits read. *)
Fixpoint digits (acc : Z) (n : nat) (sep : bool) (s : string) : option (Z * nat) :=
  match s with
  | EmptyString => if sep then None else Some (acc, n)
  | String c s' =>
      if is_digit c then digits (10 * acc + digit_value c) (S n) false s'
      else if Ascii.eqb c "_" then
        if sep then None else match n with O => None | _ => digits acc n true s' end
      else None
  end.

Definition unsigned (s : string) : option (Z * nat) :=
  match s with
  | EmptyString => None
  | _ => digits 0 0 false s
  end.

Definition signed {A} (f : string → option A) (neg : A → A) (s : string) : option A :=
  match s with
  | String "-" s' => neg <$> f s'
  | String "+" s' => f s'
  | _ => f s
  end.

Definition int_of_str (s : string) : option Z :=
  signed (λ u, fst <$> unsigned u) Z.opp (strip s).

Definition decimal (u : string) : option float :=
  match Py.split "." u with
  | [i] => '(v, n) ← unsigned i;
           if bool_decide (n ≤ 15)%nat then Some (Py.float_of_int v) else None
  | [i; f] =>
      '(v, n) ← digits 0 0 false i;
      '(w, k) ← digits 0 0 false f;
      if bool_decide (0 < n + k ∧ n + k ≤ 15)%nat
      then Some (Py.float_of_int (v * 10 ^ Z.of_nat k + w)
                 / Py.float_of_int (10 ^ Z.of_nat k))%float
      else None
  | _ => None
  end.

Definition float_of_str (s : string) : option float :=
  signed decimal PrimFloat.opp (strip s).

#[export] Instance ascii : Py.Builtins :=
  {| Py.int_of_str := int_of_str; Py.float_of_str := float_of_str |}.

End Ascii_builtins.

(** ** The scoring engine (identical in the two files) *)

(** [bits_from_bmask(bmask, width)]:
    [np.array([(bmask >> i) & 1 for i in range(width)], dtype=np.int8)]. *)
Definition bits_from_bmask (bmask width : Z) : list Z :=
  (λ i, Z.land (Z.shiftr bmask i) 1) <$> Py.range width.

(** An edge [(i, j, w)]. *)
Definition edge : Type := Z * Z * float.

(** The loop of [maxcut_score], from an accumulator: [None] is the
    [IndexError] of [bits[i]] or [bits[j]]. *)
Fixpoint maxcut_score_from (bits : list Z) (edges : list edge) (score : float)
  : option float :=
  match edges with
  | [] => Some score
  | (i, j, w) :: edges' =>
      bi ← Py.index bits i;
      bj ← Py.index bits j;
      maxcut_score_from bits edges'
        (if bool_decide (bi ≠ bj) then (score + w)%float else score)
  end.

(** [maxcut_score(bits, edges)]: [score = 0.0], then the loop. *)
Definition maxcut_score (bits : list Z) (edges : list edge) : option float :=
  maxcut_score_from bits edges 0%float.

(** [make_ring_edges(n, w)]: [[(i, (i + 1) % n, float(w)) for i in range(n)]]. *)
Definition make_ring_edges (n : Z) (w : float) : list edge :=
  (λ i, (i, (i + 1) `mod` n, w)) <$> Py.range n.

(** ** The link protocol *)

(** The command lines written to the serial port:
    ["@HELLO"], ["@PARAM N=%.2f B=%d K=%d M=%d"] and
    ["@GET K=%d STRIDE=%d BURN=%d"].  The fields are kept as values; the
    two-decimal rendering of [N] happens when the line is formatted. *)
Inductive command : Type :=
  | HELLO
  | PARAM (N : float) (B K M : Z)
  | GET (K STRIDE BURN : Z).

(** A tick that was assembled and scored. *)
Record sample : Type := Sample {
  s_tick : Z;
  s_bits : list Z;
  s_score : float
}.

(** ** The tick buffer (the same statements in the two files) *)

Section tick_buffer.
Context {V : Type}.

(** [if tick not in tick_buffer: tick_buffer[tick] = {}]
    [tick_buffer[tick][sidx] = v]. *)
Definition store (tb : gmap Z (gmap Z V)) (tick sidx : Z) (v : V)
  : gmap Z (gmap Z V) :=
  <[tick := <[sidx := v]> (default ∅ (tb !! tick))]> tb.

(** [sorted(tick_buffer.keys())]. *)
Definition sorted_keys (tb : gmap Z (gmap Z V)) : list Z :=
  merge_sort Z.le (map_to_list tb).*1.

(** [l[:-20]]. *)
Definition all_but_last_20 (l : list Z) : list Z := take (length l - 20)%nat l.

(** [if len(tick_buffer) > 50:]
    [    for old in sorted(tick_buffer.keys())[:-20]: tick_buffer.pop(old, None)]. *)
Definition cleanup (tb : gmap Z (gmap Z V)) : gmap Z (gmap Z V) :=
  if 50 <? Z.of_nat (size tb)
  then foldl (λ m old, delete old m) tb (all_but_last_20 (sorted_keys tb))
  else tb.
End tick_buffer.

(** ** The console client, [pc_client_maxcut.py] *)

Module Console.

(** [clamp_int(x, lo, hi)]: [max(lo, min(hi, int(x)))]. *)
Definition clamp_int (x lo hi : Z) : Z := Z.max lo (Z.min hi x).

(** [clamp_float(x, lo, hi)]: [max(lo, min(hi, float(x)))]. *)
Definition clamp_float (x lo hi : float) : float :=
  Py.max_float lo (Py.min_float hi x).

(** The module-level settings that [main] reads, prompts for and clamps. *)
Record settings : Type := Settings {
  NUM_SLAVES : Z;
  BITS_PER_SLAVE : Z;
  PARAM_T : float;
  PARAM_B : Z;
  PARAM_KP : Z;
  PARAM_M : Z;
  BATCH_K : Z;
  BATCH_STRIDE : Z;
  BATCH_BURN : Z;
  RING_WEIGHT : float
}.

(** The defaults of the file. *)
Definition defaults : settings :=
  {| NUM_SLAVES := 4; BITS_PER_SLAVE := 4;
     PARAM_T := 0.20%float; PARAM_B := 5; PARAM_KP := 60; PARAM_M := 1;
     BATCH_K := 300; BATCH_STRIDE := 1; BATCH_BURN := 20;
     RING_WEIGHT := 1%float |}.

(** "Clamp to safe ranges": the seven assignments of [main]. *)
Definition clamp_settings (s : settings) : settings :=
  {| NUM_SLAVES := NUM_SLAVES s;
     BITS_PER_SLAVE := BITS_PER_SLAVE s;
     PARAM_T := clamp_float (PARAM_T s) 0 1;
     PARAM_B := clamp_int (PARAM_B s) (-127) 127;
     PARAM_KP := clamp_int (PARAM_KP s) 0 255;
     PARAM_M := clamp_int (PARAM_M s) 0 255;
     BATCH_K := clamp_int (BATCH_K s) 1 2000;
     BATCH_STRIDE := clamp_int (BATCH_STRIDE s) 1 1000;
     BATCH_BURN := clamp_int (BATCH_BURN s) 0 5000;
     RING_WEIGHT := RING_WEIGHT s |}.

(** "Handshake and start": the three [send] calls. *)
Definition handshake (s : settings) : list command :=
  [ HELLO;
    PARAM (PARAM_T s) (PARAM_B s) (PARAM_KP s) (PARAM_M s);
    GET (BATCH_K s) (BATCH_STRIDE s) (BATCH_BURN s) ].

(** What [main] sends for the values the user entered. *)
Definition start (entered : settings) : list command :=
  handshake (clamp_settings entered).

(** [build_edges(n_bits)]: both branches return the ring. *)
Definition build_edges (s : settings) (n_bits : Z) : list edge :=
  make_ring_edges n_bits (RING_WEIGHT s).

Definition n_bits (s : settings) : Z := NUM_SLAVES s * BITS_PER_SLAVE s.

Definition edges (s : settings) : list edge := build_edges s (n_bits s).

(** The tuple [(bmask, loss, noise, seed)] kept per slave. *)
Record tuple : Type := Tuple {
  bmask : Z;
  loss : Z;
  noise : float;
  seed : Z
}.

(** The local variables of [main] that outlive one line. *)
Record state : Type := State {
  tick_buffer : gmap Z (gmap Z tuple);
  best_score : float;
  best_bits : option (list Z);
  best_tick : option Z
}.

(** [best_score = -1e18], [best_bits = None], [best_tick = None],
    [tick_buffer = {}]. *)
Definition init : state :=
  {| tick_buffer := ∅; best_score := (-1e18)%float;
     best_bits := None; best_tick := None |}.

Definition set_buffer (tb : gmap Z (gmap Z tuple)) (st : state) : state :=
  {| tick_buffer := tb; best_score := best_score st;
     best_bits := best_bits st; best_tick := best_tick st |}.

(** [if score > best_score: best_score = score; best_bits = bits.copy();]
    [best_tick = tick]. *)
Definition observe (st : state) (smp : sample) : state :=
  if (best_score st <? s_score smp)%float
  then {| tick_buffer := tick_buffer st; best_score := s_score smp;
          best_bits := Some (s_bits smp); best_tick := Some (s_tick smp) |}
  else st.

(** The [for s in range(NUM_SLAVES)] loop that fills [vec], stopping at
    the first missing slave index. *)
Fixpoint build_vec (width : Z) (entry : gmap Z tuple) (ss : list Z)
  : list (list Z) :=
  match ss with
  | [] => []
  | s :: ss' =>
      match entry !! s with
      | None => []
      | Some t => bits_from_bmask (bmask t) width :: build_vec width entry ss'
      end
  end.

(** What one iteration of the receive loop leaves behind: the next state
    and the sample that was scored, if any; the [break] on ["@DONE"]; or
    an exception that leaves [main]. *)
Inductive outcome : Type :=
  | Continue (st : state) (ev : option sample)
  | Break
  | Raise.

(** The body of the loop from [if tick not in tick_buffer] on, for a
    record that was parsed.  [np.concatenate] of an empty list raises
    [ValueError]. *)
Definition ingest (cfg : settings) (st : state) (tick sidx : Z) (t : tuple)
  : outcome :=
  let tb := store (tick_buffer st) tick sidx t in
  let entry := default ∅ (tb !! tick) in
  if NUM_SLAVES cfg <=? Z.of_nat (size entry) then
    let vec := build_vec (BITS_PER_SLAVE cfg) entry (Py.range (NUM_SLAVES cfg)) in
    if Z.of_nat (length vec) =? NUM_SLAVES cfg then
      match vec with
      | [] => Raise
      | _ :: _ =>
          let bits := concat vec in
          match maxcut_score bits (edges cfg) with
          | None => Raise
          | Some score =>
              let smp := Sample tick bits score in
              Continue (set_buffer (cleanup tb) (observe st smp)) (Some smp)
          end
      end
    else Continue (set_buffer (cleanup tb) st) None
  else Continue (set_buffer tb st) None.

(** One iteration of [while True] on a line that was read, decoded and
    stripped.  The ["@BATCH"] header only fills [batch_meta], which
    nothing reads back; other lines are printed. *)
Definition process_line `{Py.Builtins} (cfg : settings) (st : state)
  (line : string) : outcome :=
  if Py.startswith line "@BATCH" then Continue st None
  else if Py.startswith line "@DONE" then Break
  else if Py.startswith line "O," then
    let parts := Py.split "," line in
    if (length parts <? 7)%nat then Continue st None
    else
      match parts !! 1%nat ≫= Py.int_of_str, parts !! 2%nat ≫= Py.int_of_str,
            parts !! 3%nat ≫= Py.int_of_str, parts !! 4%nat ≫= Py.int_of_str,
            parts !! 5%nat ≫= Py.float_of_str, parts !! 6%nat ≫= Py.int_of_str with
      | Some tick, Some sidx, Some bm, Some lo, Some no, Some se =>
          ingest cfg st tick sidx (Tuple bm lo no se)
      | _, _, _, _, _, _ => Continue st None
      end
  else Continue st None.

(** A parsed record: tick, slave index and tuple. *)
Definition record : Type := Z * Z * tuple.

(** The receive loop over a sequence of parsed records: the final state
    and the samples scored, in order; [None] when an exception left the
    loop. *)
Fixpoint ingest_all (cfg : settings) (st : state) (rs : list record)
  : option (state * list sample) :=
  match rs with
  | [] => Some (st, [])
  | (tick, sidx, t) :: rs' =>
      match ingest cfg st tick sidx t with
      | Continue st' ev =>
          '(st'', evs) ← ingest_all cfg st' rs';
          Some (st'', option_list ev ++ evs)
      | Break | Raise => None
      end
  end.


(** [parse_kv_from_batch_header(line)]: the [KEY=VALUE] tokens of a
    ["@BATCH"] header; tokens without ["="] are skipped.  Nothing in the
    [try] can raise. *)
Definition parse_kv_from_batch_header (line : string) : list (string * string) :=
  foldl (λ out t,
           match Py.cut "=" t with
           | Some (k, v) => Py.dict_set (Py.strip k) (Py.strip v) out
           | None => out
           end)
    [] (Py.split_whitespace (Py.strip (Py.remove line "@BATCH"))).

(** [safe_input(prompt, default)]: the text typed, stripped, or the
    default when it is blank or when [input] raised ([None]). *)
Definition safe_input {A} (typed : option string) (default : A) : string + A :=
  match typed with
  | None => inr default
  | Some s =>
      match Py.strip s with
      | EmptyString => inr default
      | s' => inl s'
      end
  end.

(** [int(x)] and [float(x)] on what [safe_input] returned: the text is
    parsed, the default is already a number. *)
Definition to_int `{Py.Builtins} (x : string + Z) : option Z :=
  match x with
  | inl s => Py.int_of_str s
  | inr z => Some z
  end.

Definition to_float `{Py.Builtins} (x : string + float) : option float :=
  match x with
  | inl s => Py.float_of_str s
  | inr f => Some f
  end.

(** What the user types at the eleven prompts of [main]. *)
Record answers : Type := Answers {
  a_port : option string;
  a_baud : option string;
  a_slaves : option string;
  a_bits : option string;
  a_t : option string;
  a_b : option string;
  a_kp : option string;
  a_m : option string;
  a_k : option string;
  a_stride : option string;
  a_burn : option string
}.

(** The [if ASK_USER:] block of [main], from the current port, baud rate
    and settings: [None] is the [ValueError] of an [int] or [float] call,
    which leaves [main]. *)
Definition ask `{Py.Builtins} (a : answers) (port : string) (baud : Z)
  (s : settings) : option (string * Z * settings) :=
  let port' := match safe_input (a_port a) port with inl p | inr p => p end in
  baud' ← to_int (safe_input (a_baud a) baud);
  slaves ← to_int (safe_input (a_slaves a) (NUM_SLAVES s));
  bits ← to_int (safe_input (a_bits a) (BITS_PER_SLAVE s));
  t ← to_float (safe_input (a_t a) (PARAM_T s));
  b ← to_int (safe_input (a_b a) (PARAM_B s));
  kp ← to_int (safe_input (a_kp a) (PARAM_KP s));
  m ← to_int (safe_input (a_m a) (PARAM_M s));
  k ← to_int (safe_input (a_k a) (BATCH_K s));
  stride ← to_int (safe_input (a_stride a) (BATCH_STRIDE s));
  burn ← to_int (safe_input (a_burn a) (BATCH_BURN s));
  Some (port', baud',
        {| NUM_SLAVES := slaves; BITS_PER_SLAVE := bits;
           PARAM_T := t; PARAM_B := b; PARAM_KP := kp; PARAM_M := m;
           BATCH_K := k; BATCH_STRIDE := stride; BATCH_BURN := burn;
           RING_WEIGHT := RING_WEIGHT s |}).

(** [main] up to the three [send] calls, once the port is open: the
    commands written, or [None] when a prompt raised. *)
Definition main_start `{Py.Builtins} (ask_user : bool) (a : answers)
  (port : string) (baud : Z) (s : settings) : option (list command) :=
  '(_, _, s') ← (if ask_user then ask a port baud s else Some (port, baud, s));
  Some (start s').

End Console.

(** ** The dashboard client, [pc_client_maxcutV2.py] *)

Module Dashboard.

Definition NUM_SLAVES : Z := 4.
Definition BITS_PER_SLAVE : Z := 4.
Definition N_BITS : Z := NUM_SLAVES * BITS_PER_SLAVE.

(** [EDGES = [(i, (i + 1) % N_BITS, 1.0) for i in range(N_BITS)]]. *)
Definition EDGES : list edge :=
  (λ i, (i, (i + 1) `mod` N_BITS, 1%float)) <$> Py.range N_BITS.

Definition PARAM_B : Z := 5.
Definition PARAM_KP : Z := 60.
Definition PARAM_M : Z := 1.
Definition BATCH_STRIDE : Z := 1.
Definition BATCH_BURN : Z := 50.

(** The widgets that the callbacks read with [dpg.get_value]. *)
Record gui : Type := Gui {
  k_val : Z;
  t_val : float;
  anneal_active : bool;
  t_start : float;
  t_end : float
}.

(** The attributes of [QuantumDashboard] that the receive path uses. *)
Record state : Type := State {
  running : bool;
  all_scores : list float;
  all_samples : list (Z * float * string);
  best_history_x : list Z;
  best_history_y : list float;
  best_score : float;
  best_bits : option string;
  sample_count : Z;
  tick_buffer : gmap Z (gmap Z Z);
  last_sent_t : float;
  batch_k : Z
}.

(** [__init__]. *)
Definition init : state :=
  {| running := false; all_scores := []; all_samples := [];
     best_history_x := []; best_history_y := [];
     best_score := 0%float; best_bits := None; sample_count := 0;
     tick_buffer := ∅; last_sent_t := (-1)%float; batch_k := 300 |}.

Definition set_buffer (tb : gmap Z (gmap Z Z)) (st : state) : state :=
  {| running := running st; all_scores := all_scores st;
     all_samples := all_samples st;
     best_history_x := best_history_x st; best_history_y := best_history_y st;
     best_score := best_score st; best_bits := best_bits st;
     sample_count := sample_count st; tick_buffer := tb;
     last_sent_t := last_sent_t st; batch_k := batch_k st |}.

Definition set_last_sent_t (t : float) (st : state) : state :=
  {| running := running st; all_scores := all_scores st;
     all_samples := all_samples st;
     best_history_x := best_history_x st; best_history_y := best_history_y st;
     best_score := best_score st; best_bits := best_bits st;
     sample_count := sample_count st; tick_buffer := tick_buffer st;
     last_sent_t := t; batch_k := batch_k st |}.

Definition set_running (b : bool) (st : state) : state :=
  {| running := b; all_scores := all_scores st;
     all_samples := all_samples st;
     best_history_x := best_history_x st; best_history_y := best_history_y st;
     best_score := best_score st; best_bits := best_bits st;
     sample_count := sample_count st; tick_buffer := tick_buffer st;
     last_sent_t := last_sent_t st; batch_k := batch_k st |}.

(** [on_start], once the port is open: the three writes, and
    [last_sent_t], [running] and [batch_k]. *)
Definition on_start (g : gui) (st : state) : state * list command :=
  if running st then (st, [])
  else
    let t0 := if anneal_active g then t_start g else t_val g in
    ({| running := true; all_scores := all_scores st;
        all_samples := all_samples st;
        best_history_x := best_history_x st;
        best_history_y := best_history_y st;
        best_score := best_score st; best_bits := best_bits st;
        sample_count := sample_count st; tick_buffer := tick_buffer st;
        last_sent_t := t0; batch_k := k_val g |},
     [ HELLO;
       PARAM t0 PARAM_B PARAM_KP PARAM_M;
       GET (k_val g) BATCH_STRIDE BATCH_BURN ]).

(** ["".join(str(int(x)) for x in bits)], for an array of zeros and ones. *)
Definition bitstr (bits : list Z) : string :=
  foldr (λ b s, String (if b =? 0 then "0"%char else "1"%char) s) EmptyString bits.

(** [[bits_from_bmask(entry[s]) for s in range(NUM_SLAVES) if s in entry]],
    with the default [width=4]. *)
Definition build_vec (entry : gmap Z Z) : list (list Z) :=
  omap (λ s, (λ bm, bits_from_bmask bm 4) <$> entry !! s) (Py.range NUM_SLAVES).

(** The statements under [if len(vec) == NUM_SLAVES], after the score. *)
Definition record_sample (st : state) (smp : sample) : state :=
  let str := bitstr (s_bits smp) in
  let better := (best_score st <? s_score smp)%float in
  let best := if better then s_score smp else best_score st in
  {| running := running st;
     all_scores := all_scores st ++ [s_score smp];
     all_samples := all_samples st ++ [(s_tick smp, s_score smp, str)];
     best_history_x := best_history_x st ++ [s_tick smp];
     best_history_y := best_history_y st ++ [best];
     best_score := best;
     best_bits := if better then Some str else best_bits st;
     sample_count := sample_count st + 1;
     tick_buffer := tick_buffer st;
     last_sent_t := last_sent_t st; batch_k := batch_k st |}.

(** "ANNEALING LOGIC": the temperature of the schedule, and the command
    written when it moved by at least 0.01.  [sample_count / batch_k] is
    taken as the quotient of the two conversions, which is the quotient
    that Python computes while both integers are below [2^53] in
    magnitude: [sample_count] counts the samples of a session and
    [batch_k] is the 32-bit value of the widget. *)
Definition progress (st : state) : float :=
  if 0 <? batch_k st
  then (Py.float_of_int (sample_count st) / Py.float_of_int (batch_k st))%float
  else 0%float.

Definition current_t (g : gui) (st : state) : float :=
  (t_start g + (t_end g - t_start g) * progress st)%float.

Definition anneal (g : gui) (st : state) : state * list command :=
  if anneal_active g then
    let t := current_t g st in
    if (0.01 <=? abs (t - last_sent_t st))%float
    then (set_last_sent_t t st, [PARAM t PARAM_B PARAM_KP PARAM_M])
    else (st, [])
  else (st, []).

(** What one line leaves behind: the state, the commands written and the
    sample recorded, if any. *)
Definition outcome : Type := state * list command * option sample.

Definition then_anneal (g : gui) (st : state) (ev : option sample) : outcome :=
  let '(st', cmds) := anneal g st in (st', cmds, ev).

(** The body of the [try] after the three [int] calls.  An exception of
    the score would be swallowed by [except: pass] with the record
    already stored. *)
Definition ingest (g : gui) (st : state) (tick sidx bm : Z) : outcome :=
  let tb := store (tick_buffer st) tick sidx bm in
  let entry := default ∅ (tb !! tick) in
  if NUM_SLAVES <=? Z.of_nat (size entry) then
    let vec := build_vec entry in
    if Z.of_nat (length vec) =? NUM_SLAVES then
      let bits := concat vec in
      match maxcut_score bits EDGES with
      | None => (set_buffer tb st, [], None)
      | Some score =>
          let smp := Sample tick bits score in
          then_anneal g (set_buffer (cleanup tb) (record_sample st smp)) (Some smp)
      end
    else then_anneal g (set_buffer (cleanup tb) st) None
  else then_anneal g (set_buffer tb st) None.

(** One iteration of the [while] of [update] on a decoded, stripped
    line; ["@DONE"] clears [running] (and the caller leaves the loop). *)
Definition process_line `{Py.Builtins} (g : gui) (st : state) (line : string)
  : outcome :=
  if Py.startswith line "@DONE" then (set_running false st, [], None)
  else if Py.startswith line "O," then
    let parts := Py.split "," line in
    if (7 <=? length parts)%nat then
      match parts !! 1%nat ≫= Py.int_of_str, parts !! 2%nat ≫= Py.int_of_str,
            parts !! 3%nat ≫= Py.int_of_str with
      | Some tick, Some sidx, Some bm => ingest g st tick sidx bm
      | _, _, _ => (st, [], None)
      end
    else (st, [], None)
  else (st, [], None).

(** The receive path over a sequence of parsed records. *)
Fixpoint ingest_all (g : gui) (st : state) (rs : list (Z * Z * Z))
  : state * list command * list sample :=
  match rs with
  | [] => (st, [], [])
  | (tick, sidx, bm) :: rs' =>
      let '(st', cmds, ev) := ingest g st tick sidx bm in
      let '(st'', cmds', evs) := ingest_all g st' rs' in
      (st'', cmds ++ cmds', option_list ev ++ evs)
  end.

(** [update] on the lines waiting in the port: nothing unless
    [running]; the loop stops at ["@DONE"]. *)
Fixpoint update_loop `{Py.Builtins} (g : gui) (st : state)
  (lines : list string) : state * list command * list sample :=
  match lines with
  | [] => (st, [], [])
  | line :: lines' =>
      let '(st', cmds, ev) := process_line g st line in
      if Py.startswith line "@DONE" then (st', cmds, option_list ev)
      else
        let '(st'', cmds', evs) := update_loop g st' lines' in
        (st'', cmds ++ cmds', option_list ev ++ evs)
  end.

Definition update `{Py.Builtins} (g : gui) (st : state) (lines : list string)
  : state * list command * list sample :=
  if running st then update_loop g st lines else (st, [], []).

(** [on_stop]: [running = False] (and the port is closed). *)
Definition on_stop (st : state) : state := set_running false st.

(** [on_clear]: the data of the session is reset; [running],
    [last_sent_t] and [batch_k] are not touched. *)
Definition on_clear (st : state) : state :=
  {| running := running st; all_scores := []; all_samples := [];
     best_history_x := []; best_history_y := [];
     best_score := 0%float; best_bits := None; sample_count := 0;
     tick_buffer := ∅; last_sent_t := last_sent_t st; batch_k := batch_k st |}.

(** [on_restart]: [on_stop], [on_clear], then [on_start]. *)
Definition on_restart (g : gui) (st : state) : state * list command :=
  on_start g (on_clear (on_stop st)).

End Dashboard.

(** ** Notions used to state the properties *)

(** The value of a little-endian bit sequence. *)
Definition le_value (bits : list Z) : Z := foldr (λ b acc, b + 2 * acc) 0 bits.

(** An edge whose two endpoints index [bits] without an [IndexError]:
    the positions [0..len-1], and the negative indices [-len..-1] that
    NumPy counts from the end. *)
Definition in_range (bits : list Z) (e : edge) : Prop :=
  (- Z.of_nat (length bits) ≤ e.1.1 < Z.of_nat (length bits)) ∧
  (- Z.of_nat (length bits) ≤ e.1.2 < Z.of_nat (length bits)).

(** An edge whose endpoint bits differ. *)
Definition is_cut (bits : list Z) (e : edge) : bool :=
  match Py.index bits e.1.1, Py.index bits e.1.2 with
  | Some a, Some b => negb (a =? b)
  | _, _ => false
  end.

(** The weights of the cut edges, in the order of the edge list, and their
    floating-point sum accumulated from [0.0] in that order. *)
Definition cut_weights (bits : list Z) (edges : list edge) : list float :=
  snd <$> List.filter (is_cut bits) edges.

Definition float_sum (ws : list float) : float := foldl PrimFloat.add 0%float ws.

Definition all_equal (bits : list Z) : Prop :=
  ∀ i j a b, bits !! i = Some a → bits !! j = Some b → a = b.

(** Flipping every bit, [0] to [1] and [1] to [0]. *)
Definition flip_bits (bits : list Z) : list Z := (λ b, 1 - b) <$> bits.

(** A per-tick entry that holds every slave index [0..n-1]. *)
Definition complete {V} (n : Z) (entry : gmap Z V) : Prop :=
  ∀ s, 0 ≤ s < n → is_Some (entry !! s).

(** The bit sequence of a complete entry: the decoded masks of slaves
    [0..n-1], in that order. *)
Definition assembled {V} (mask : V → Z) (width n : Z) (entry : gmap Z V)
  (bits : list Z) : Prop :=
  ∃ vs, mapM (λ s, entry !! s) (Py.range n) = Some vs ∧
        bits = concat ((λ v, bits_from_bmask (mask v) width) <$> vs).

(** The samples of one tick among those emitted. *)
Definition of_tick (tick : Z) (evs : list sample) : list sample :=
  List.filter (λ smp, s_tick smp =? tick) evs.

(** Floats that are numbers. *)
Definition is_number (x : float) : Prop := is_nan x = false.

(** The best result held by a state of the console client, and of the
    dashboard. *)
Definition console_best (st : Console.state) : float * option (list Z) * option Z :=
  (Console.best_score st, Console.best_bits st, Console.best_tick st).

Definition dashboard_best (st : Dashboard.state) : float * option string :=
  (Dashboard.best_score st, Dashboard.best_bits st).

(** The comparison of two floats, through its IEEE 754 specification:
    [None] when one of them is NaN. *)
Definition fcmp (a b : float) : option comparison :=
  SFcompare (Prim2SF a) (Prim2SF b).

(** The receive path of either client as a partial step function on parsed
    records, and its iteration: the samples emitted along a sequence of
    records, [None] when an exception left the loop. *)
Section steps.
Context {V S : Type} (step : S → Z → Z → V → option (S * option sample)).

Fixpoint steps (st : S) (rs : list (Z * Z * V)) : option (S * list sample) :=
  match rs with
  | [] => Some (st, [])
  | (tick, sidx, v) :: rs' =>
      '(st', ev) ← step st tick sidx v;
      '(st'', evs) ← steps st' rs';
      Some (st'', option_list ev ++ evs)
  end.
End steps.

Definition console_step (cfg : Console.settings) (st : Console.state)
  (tick sidx : Z) (t : Console.tuple) : option (Console.state * option sample) :=
  match Console.ingest cfg st tick sidx t with
  | Console.Continue st' ev => Some (st', ev)
  | Console.Break | Console.Raise => None
  end.

Definition dashboard_step (g : Dashboard.gui) (st : Dashboard.state)
  (tick sidx bm : Z) : option (Dashboard.state * option sample) :=
  let '(st', _, ev) := Dashboard.ingest g st tick sidx bm in Some (st', ev).


(** The entry of a tick after a record was stored. *)
Definition entry_after {V} (tb : gmap Z (gmap Z V)) (tick sidx : Z) (v : V)
  : gmap Z V :=
  <[sidx := v]> (default ∅ (tb !! tick)).

(** Every (tick, slave index) held by the buffer was recorded in [rs]. *)
Definition seen {V} (tb : gmap Z (gmap Z V)) (rs : list (Z * Z * V)) : Prop :=
  ∀ tick entry s, tb !! tick = Some entry → is_Some (entry !! s) →
                  ∃ v, (tick, s, v) ∈ rs.


(** The same in the dashboard, which parses three fields. *)
Definition dashboard_decode `{Py.Builtins} (line : string) : option (Z * Z * Z) :=
  if Py.startswith line "O," then
    let parts := Py.split "," line in
    if (7 <=? length parts)%nat then
      tick ← parts !! 1%nat ≫= Py.int_of_str;
      sidx ← parts !! 2%nat ≫= Py.int_of_str;
      bm ← parts !! 3%nat ≫= Py.int_of_str;
      Some (tick, sidx, bm)
    else None
  else None.

(** The lines before the first one that starts with ["@DONE"]. *)
Fixpoint until_done (lines : list string) : list string :=
  match lines with
  | [] => []
  | line :: lines' =>
      if Py.startswith line "@DONE" then [] else line :: until_done lines'
  end.

Definition has_done (lines : list string) : bool :=
  existsb (λ line, Py.startswith line "@DONE") lines.

(** A text without white space, and a text without a given character. *)
Fixpoint no_space (s : string) : bool :=
  match s with
  | EmptyString => true
  | String c s' => negb (Py.isspace c) && no_space s'
  end.

Fixpoint lacks (x : ascii) (s : string) : bool :=
  match s with
  | EmptyString => true
  | String c s' => negb (Ascii.eqb c x) && lacks x s'
  end.

(** A ["@BATCH"] header: the tag, then a space and [KEY=VALUE] for each
    pair. *)
Definition token (kv : string * string) : string := kv.1 +:+ String "=" kv.2.

Fixpoint fields (kvs : list (string * string)) : string :=
  match kvs with
  | [] => EmptyString
  | kv :: kvs' => String " " (token kv +:+ fields kvs')
  end.

Definition batch_header (kvs : list (string * string)) : string :=
  "@BATCH" +:+ fields kvs.

(** Keys without white space, ["="] or ["@"], and values without white
    space or ["@"]. *)
Definition clean_key (k : string) : bool :=
  no_space k && lacks "=" k && lacks "@" k.

Definition clean_value (v : string) : bool := no_space v && lacks "@" v.

Definition clean (kv : string * string) : Prop :=
  clean_key kv.1 = true ∧ clean_value kv.2 = true.

(** An answer left blank (or an [input] that raised), and an answer that
    the conversion rejects. *)
Definition blank (typed : option string) : Prop :=
  match typed with
  | None => True
  | Some s => Py.strip s = EmptyString
  end.

Definition rejected {A} (parse : string → option A) (typed : option string)
  : Prop :=
  ∃ s, typed = Some s ∧ Py.strip s ≠ EmptyString ∧ parse (Py.strip s) = None.

(** The dictionary built by assigning the pairs in order. *)
Definition dict_of (kvs : list (string * string)) : list (string * string) :=
  foldl (λ d kv, Py.dict_set kv.1 kv.2 d) [] kvs.



(** The row that the dashboard logs for a sample. *)
Definition logged (smp : sample) : Z * float * string :=
  (s_tick smp, s_score smp, Dashboard.bitstr (s_bits smp)).

(** A series of floats that never goes down. *)
Definition nondecreasing (ys : list float) : Prop :=
  ∀ i j a b, (i ≤ j)%nat → ys !! i = Some a → ys !! j = Some b →
             (a <=? b)%float = true.

(** The bookkeeping of the dashboard agrees with its log of samples: the
    counter, the scores of the histogram and the two series of the
    evolution plot have one item per logged sample, the best-so-far
    series never goes down and ends at the best score. *)
Definition consistent (st : Dashboard.state) : Prop :=
  Dashboard.sample_count st = Z.of_nat (length (Dashboard.all_samples st)) ∧
  Dashboard.all_scores st = (λ row, row.1.2) <$> Dashboard.all_samples st ∧
  Dashboard.best_history_x st = (λ row, row.1.1) <$> Dashboard.all_samples st ∧
  length (Dashboard.best_history_y st) = length (Dashboard.all_samples st) ∧
  nondecreasing (Dashboard.best_history_y st) ∧
  is_number (Dashboard.best_score st) ∧
  (Dashboard.all_samples st = [] ∨
   last (Dashboard.best_history_y st) = Some (Dashboard.best_score st)).

(** The number of edges of the dashboard's ring that a bit sequence cuts. *)
Definition cut_count (bits : list Z) : nat :=
  length (List.filter (is_cut bits) Dashboard.EDGES).

(** Bits that are zeros and ones. *)
Definition is_bits (bits : list Z) : Prop := Forall (λ b, b = 0 ∨ b = 1) bits.

(** The buffers of the two clients hold the same masks. *)
Definition same_masks (tbc : gmap Z (gmap Z Console.tuple))
  (tbd : gmap Z (gmap Z Z)) : Prop :=
  tbd = (λ entry : gmap Z Console.tuple, Console.bmask <$> entry) <$> tbc.


(** * Proofs *)

(** ** Comparison of binary64 floats *)

Section float_order.

Ltac pos_cmp :=
  repeat match goal with
  | |- context [PosDef.Pos.compare_cont Eq ?a ?b] =>
      change (PosDef.Pos.compare_cont Eq a b) with (Pos.compare a b)
  | H : context [PosDef.Pos.compare_cont Eq ?a ?b] |- _ =>
      change (PosDef.Pos.compare_cont Eq a b) with (Pos.compare a b) in H
  end.

Ltac cmp_cases :=
  repeat match goal with
  | |- context [Z.compare ?a ?b] => destruct (Z.compare_spec a b)
  | H : context [Z.compare ?a ?b] |- _ => destruct (Z.compare_spec a b)
  | |- context [Pos.compare ?a ?b] => destruct (Pos.compare_spec a b)
  | H : context [Pos.compare ?a ?b] |- _ => destruct (Pos.compare_spec a b)
  end.

Lemma SFcompare_antisym x y : SFcompare y x = CompOpp <$> SFcompare x y.
Proof.
  destruct x as [[]|[]| |[] mx ex], y as [[]|[]| |[] my ey]; simpl; try reflexivity;
    pos_cmp; rewrite (Z.compare_antisym ex ey), (Pos.compare_antisym mx my);
    destruct (ex ?= ey)%Z, (mx ?= my)%positive; reflexivity.
Qed.

Lemma SFcompare_trans c x y z :
  SFcompare x y = Some c → SFcompare y z = Some c → SFcompare x z = Some c.
Proof.
  destruct x as [[]|[]| |[] mx ex], y as [[]|[]| |[] my ey], z as [[]|[]| |[] mz ez];
    simpl; try congruence; pos_cmp;
    intros H1 H2; cmp_cases; simpl in *; subst; try congruence; try lia.
Qed.

Lemma SFcompare_Eq_l x y z :
  SFcompare x y = Some Eq → SFcompare x z = SFcompare y z.
Proof.
  destruct x as [[]|[]| |[] mx ex], y as [[]|[]| |[] my ey], z as [[]|[]| |[] mz ez];
    simpl; try congruence; pos_cmp;
    intros H1; cmp_cases; simpl in *; subst; try congruence; try lia.
Qed.

Lemma SFcompare_Eq_r x y z :
  SFcompare y z = Some Eq → SFcompare x y = SFcompare x z.
Proof.
  destruct x as [[]|[]| |[] mx ex], y as [[]|[]| |[] my ey], z as [[]|[]| |[] mz ez];
    simpl; try congruence; pos_cmp;
    intros H1; cmp_cases; simpl in *; subst; try congruence; try lia.
Qed.

Lemma SFcompare_refl x : x ≠ S754_nan → SFcompare x x = Some Eq.
Proof.
  destruct x as [[]|[]| |[] mx ex]; simpl; try congruence; intros _; pos_cmp;
    rewrite Z.compare_refl, Pos.compare_refl; reflexivity.
Qed.

Lemma SFcompare_total x y :
  x ≠ S754_nan → y ≠ S754_nan → is_Some (SFcompare x y).
Proof.
  destruct x as [[]|[]| |[] mx ex], y as [[]|[]| |[] my ey];
    simpl; try congruence; eauto.
Qed.

Lemma SFcompare_nan_l x y : SFcompare x y ≠ None → x ≠ S754_nan.
Proof. destruct x; simpl; congruence. Qed.

Lemma SFcompare_nan_r x y : SFcompare x y ≠ None → y ≠ S754_nan.
Proof. destruct x, y; simpl; congruence. Qed.

End float_order.

Lemma ltb_fcmp a b : (a <? b)%float = true ↔ fcmp a b = Some Lt.
Proof.
  rewrite FloatAxioms.ltb_spec. unfold SFltb, fcmp.
  destruct (SFcompare _ _) as [[]|]; split; congruence.
Qed.

Lemma leb_fcmp a b :
  (a <=? b)%float = true ↔ fcmp a b = Some Lt ∨ fcmp a b = Some Eq.
Proof.
  rewrite FloatAxioms.leb_spec. unfold SFleb, fcmp.
  destruct (SFcompare _ _) as [[]|]; split; intros; try tauto; try congruence;
    destruct H; congruence.
Qed.

Lemma eqb_fcmp a b : (a =? b)%float = true ↔ fcmp a b = Some Eq.
Proof.
  rewrite FloatAxioms.eqb_spec. unfold SFeqb, fcmp.
  destruct (SFcompare _ _) as [[]|]; split; congruence.
Qed.

Lemma is_number_fcmp a : is_number a ↔ fcmp a a = Some Eq.
Proof.
  unfold is_number, is_nan. rewrite negb_false_iff. apply eqb_fcmp.
Qed.

Lemma is_number_spec a : is_number a ↔ Prim2SF a ≠ S754_nan.
Proof.
  rewrite is_number_fcmp. unfold fcmp. split.
  - intros H. apply (SFcompare_nan_l _ (Prim2SF a)). congruence.
  - apply SFcompare_refl.
Qed.

Lemma fcmp_sym a b : fcmp b a = CompOpp <$> fcmp a b.
Proof. apply SFcompare_antisym. Qed.

Lemma fcmp_total a b : is_number a → is_number b → is_Some (fcmp a b).
Proof. rewrite !is_number_spec. apply SFcompare_total. Qed.

Lemma fcmp_number a b c : fcmp a b = Some c → is_number a ∧ is_number b.
Proof.
  unfold fcmp. intros H. rewrite !is_number_spec. split.
  - eapply SFcompare_nan_l. rewrite H. done.
  - eapply SFcompare_nan_r. rewrite H. done.
Qed.

Lemma ltb_leb a b : (a <? b)%float = true → (a <=? b)%float = true.
Proof. rewrite ltb_fcmp, leb_fcmp. auto. Qed.

Lemma leb_refl a : is_number a → (a <=? a)%float = true.
Proof. rewrite is_number_fcmp, leb_fcmp. auto. Qed.

Lemma leb_not_ltb a b :
  (a <=? b)%float = true → (a <? b)%float = false → (a =? b)%float = true.
Proof.
  rewrite leb_fcmp, eqb_fcmp. intros [H|H] Hlt; [|done].
  apply ltb_fcmp in H. congruence.
Qed.

Lemma eqb_sym a b : (a =? b)%float = true → (b =? a)%float = true.
Proof. rewrite !eqb_fcmp, (fcmp_sym a b). intros ->. done. Qed.

Lemma not_ltb_leb a b :
  is_number a → is_number b → (a <? b)%float = false → (b <=? a)%float = true.
Proof.
  intros Ha Hb Hlt. destruct (fcmp_total a b Ha Hb) as [c Hc].
  rewrite leb_fcmp, (fcmp_sym a b), Hc. destruct c; simpl; auto.
  apply ltb_fcmp in Hc. congruence.
Qed.

Lemma leb_trans a b c :
  (a <=? b)%float = true → (b <=? c)%float = true → (a <=? c)%float = true.
Proof.
  rewrite !leb_fcmp. unfold fcmp. intros [H1|H1] [H2|H2].
  - left. eapply SFcompare_trans; eauto.
  - left. rewrite <- (SFcompare_Eq_r _ _ _ H2). done.
  - left. rewrite (SFcompare_Eq_l _ _ _ H1). done.
  - right. eapply SFcompare_trans; eauto.
Qed.

Lemma ltb_leb_trans a b c :
  (a <? b)%float = true → (b <=? c)%float = true → (a <? c)%float = true.
Proof.
  rewrite leb_fcmp, !ltb_fcmp. unfold fcmp. intros H1 [H2|H2].
  - eapply SFcompare_trans; eauto.
  - rewrite <- (SFcompare_Eq_r _ _ _ H2). done.
Qed.

Lemma leb_ltb_trans a b c :
  (a <=? b)%float = true → (b <? c)%float = true → (a <? c)%float = true.
Proof.
  rewrite leb_fcmp, !ltb_fcmp. unfold fcmp. intros [H1|H1] H2.
  - eapply SFcompare_trans; eauto.
  - rewrite (SFcompare_Eq_l _ _ _ H1). done.
Qed.

Lemma ltb_irrefl a : (a <? a)%float = false.
Proof.
  destruct (a <? a)%float eqn:E; [|done]. apply ltb_fcmp in E.
  destruct (fcmp_number _ _ _ E) as [Ha _]. apply is_number_fcmp in Ha. congruence.
Qed.

(** ** The scoring engine *)

Lemma range_length n : length (Py.range n) = Z.to_nat n.
Proof. unfold Py.range. apply length_seqZ. Qed.

Lemma range_lookup n k : 0 ≤ k < n → Py.range n !! Z.to_nat k = Some k.
Proof.
  intros Hk. unfold Py.range. rewrite (lookup_seqZ_lt 0 n (Z.to_nat k)) by lia.
  f_equal. lia.
Qed.

Lemma elem_of_range n k : k ∈ Py.range n ↔ 0 ≤ k < n.
Proof. unfold Py.range. rewrite elem_of_seqZ. lia. Qed.

Lemma bits_from_bmask_length mask width :
  length (bits_from_bmask mask width) = Z.to_nat width.
Proof. unfold bits_from_bmask. rewrite length_fmap. apply range_length. Qed.

Lemma bits_from_bmask_lookup mask width k :
  0 ≤ k < width →
  bits_from_bmask mask width !! Z.to_nat k = Some (Z.land (Z.shiftr mask k) 1).
Proof.
  intros Hk. unfold bits_from_bmask. rewrite list_lookup_fmap, range_lookup by done.
  done.
Qed.

Lemma land_1_testbit x : Z.land x 1 = Z.b2z (Z.testbit x 0).
Proof.
  change 1 with (Z.ones 1). rewrite Z.land_ones by lia.
  rewrite Z.bit0_mod. done.
Qed.

Lemma le_value_shift mask a n :
  0 ≤ a →
  le_value ((λ i, Z.land (Z.shiftr mask i) 1) <$> seqZ a (Z.of_nat n))
  = Z.shiftr mask a `mod` 2 ^ Z.of_nat n.
Proof.
  revert a. induction n as [|n IH]; intros a Ha.
  - simpl. rewrite Z.mod_1_r. done.
  - rewrite Nat2Z.inj_succ, seqZ_cons by lia.
    rewrite fmap_cons. cbn [le_value foldr].
    replace (Z.pred (Z.succ (Z.of_nat n))) with (Z.of_nat n) by lia.
    change (foldr _ 0 ?l) with (le_value l).
    rewrite (IH (Z.succ a)) by lia.
    replace (Z.succ a) with (a + 1) by lia.
    rewrite <- Z.shiftr_shiftr by lia.
    set (x := Z.shiftr mask a).
    rewrite Z.shiftr_div_pow2 by lia. change (2 ^ 1) with 2.
    change 1 with (Z.ones 1) at 1. rewrite Z.land_ones by lia. change (2 ^ 1) with 2.
    rewrite Z.pow_succ_r by lia.
    rewrite Z.rem_mul_r by lia. done.
Qed.

(** C8. For every mask (non-negative in particular) and every non-negative
    width, [bits_from_bmask] returns exactly [width] bits; bit [k] is [(mask >> k) & 1], which is the [k]-th
    binary digit of the mask, so the sequence is the little-endian writing
    of [mask mod 2^width].  Being a function of its two arguments, it reads
    and writes no state. *)
Theorem bits_from_bmask_spec (mask width : Z) :
  0 ≤ width →
  Z.of_nat (length (bits_from_bmask mask width)) = width ∧
  (∀ k, 0 ≤ k < width →
     bits_from_bmask mask width !! Z.to_nat k = Some (Z.land (Z.shiftr mask k) 1) ∧
     Z.land (Z.shiftr mask k) 1 = Z.b2z (Z.testbit mask k)) ∧
  le_value (bits_from_bmask mask width) = mask `mod` 2 ^ width.
Proof.
  intros Hw. split; [|split].
  - rewrite bits_from_bmask_length. lia.
  - intros k Hk. split; [by apply bits_from_bmask_lookup|].
    rewrite land_1_testbit, Z.shiftr_spec by lia. f_equal.
  - unfold bits_from_bmask, Py.range.
    rewrite <- (Z2Nat.id width) at 1 by done.
    rewrite le_value_shift by done. rewrite Z.shiftr_0_r, Z2Nat.id by done. done.
Qed.

Lemma bits_from_bmask_spec_witness :
  Z.of_nat (length (bits_from_bmask 5 4)) = 4 ∧
  (∀ k, 0 ≤ k < 4 →
     bits_from_bmask 5 4 !! Z.to_nat k = Some (Z.land (Z.shiftr 5 k) 1) ∧
     Z.land (Z.shiftr 5 k) 1 = Z.b2z (Z.testbit 5 k)) ∧
  le_value (bits_from_bmask 5 4) = 5 `mod` 2 ^ 4.
Proof. apply (bits_from_bmask_spec 5 4); lia. Defined.

Lemma index_in_range {A} (a : list A) i :
  - Z.of_nat (length a) ≤ i < Z.of_nat (length a) → is_Some (Py.index a i).
Proof.
  intros Hi. unfold Py.index. destruct (0 <=? i) eqn:E0.
  - apply Z.leb_le in E0. apply lookup_lt_is_Some_2. lia.
  - apply Z.leb_gt in E0. rewrite (proj2 (Z.leb_le _ _)) by lia.
    apply lookup_lt_is_Some_2. lia.
Qed.

Lemma index_elem_of {A} (a : list A) i x : Py.index a i = Some x → x ∈ a.
Proof.
  unfold Py.index. repeat case_match; try done; apply list_elem_of_lookup_2.
Qed.

Lemma index_fmap {A B} (f : A → B) (a : list A) i :
  Py.index (f <$> a) i = f <$> Py.index a i.
Proof.
  unfold Py.index. rewrite length_fmap.
  repeat case_match; rewrite ?list_lookup_fmap; done.
Qed.

Lemma maxcut_score_from_sum bits edges acc :
  Forall (in_range bits) edges →
  maxcut_score_from bits edges acc
  = Some (foldl PrimFloat.add acc (cut_weights bits edges)).
Proof.
  intros Hr. revert acc. induction Hr as [|[[i j] w] edges [Hi Hj] _ IH]; intros acc.
  - done.
  - simpl in Hi, Hj. cbn [maxcut_score_from].
    destruct (index_in_range bits i Hi) as [bi Hbi].
    destruct (index_in_range bits j Hj) as [bj Hbj].
    rewrite Hbi, Hbj. cbn [mbind option_bind]. rewrite IH.
    unfold cut_weights. cbn [List.filter]. unfold is_cut at 2. cbn [fst snd].
    rewrite Hbi, Hbj. case_bool_decide as Hne.
    + rewrite (proj2 (Z.eqb_neq bi bj)) by done. done.
    + subst bj. rewrite Z.eqb_refl. done.
Qed.

Lemma cut_weights_all_equal bits edges :
  all_equal bits → cut_weights bits edges = [].
Proof.
  intros Heq. unfold cut_weights. induction edges as [|[[i j] w] edges IH]; [done|].
  cbn [List.filter]. unfold is_cut at 1. cbn [fst snd].
  destruct (Py.index bits i) as [a|] eqn:Ha, (Py.index bits j) as [b|] eqn:Hb;
    try done.
  apply index_elem_of, list_elem_of_lookup in Ha as [ia Ha].
  apply index_elem_of, list_elem_of_lookup in Hb as [ib Hb].
  rewrite (Heq _ _ _ _ Ha Hb), Z.eqb_refl. done.
Qed.

Lemma filter_Permutation {A} (f : A → bool) (l l' : list A) :
  l ≡ₚ l' → List.filter f l ≡ₚ List.filter f l'.
Proof.
  induction 1 as [|x l l' _ IH|x y l|l l' l'' _ IH1 _ IH2]; cbn [List.filter].
  - done.
  - destruct (f x); [by constructor|done].
  - destruct (f x), (f y); try done. apply perm_swap.
  - by etrans.
Qed.

Lemma cut_weights_uniform bits edges w :
  Forall (λ e : edge, e.2 = w) edges →
  cut_weights bits edges = replicate (length (cut_weights bits edges)) w.
Proof.
  intros Hw. unfold cut_weights.
  induction Hw as [|[[i j] w'] edges Hx _ IH]; [done|].
  cbn [List.filter]. destruct (is_cut bits (i, j, w')); [|done].
  rewrite fmap_cons. cbn [length replicate]. simpl in Hx. subst w'. f_equal. done.
Qed.

Lemma ring_in_range bits n w :
  Z.of_nat (length bits) = n → Forall (in_range bits) (make_ring_edges n w).
Proof.
  intros Hn. unfold make_ring_edges. rewrite Forall_fmap. apply Forall_forall.
  intros i Hi%elem_of_range. unfold in_range. cbn [fst snd compose].
  pose proof (Z.mod_pos_bound (i + 1) n). lia.
Qed.

(** C7, as the clients compute it.  For every bit sequence and every edge
    list whose endpoints index the sequence, [maxcut_score]
    returns the floating-point sum, accumulated from [0.0] in the order of
    the edge list, of the weights of exactly the edges whose endpoint bits
    differ; it is [0.0] for the empty edge list and for a sequence whose
    bits are all equal; and it is the same for every reordering of an edge
    list whose weights are all equal, such as the ring that both clients
    build. *)
Theorem maxcut_score_sum (bits : list Z) (edges : list edge) :
  Forall (in_range bits) edges →
  maxcut_score bits edges = Some (float_sum (cut_weights bits edges)) ∧
  maxcut_score bits [] = Some 0%float ∧
  (all_equal bits → maxcut_score bits edges = Some 0%float) ∧
  (∀ edges' w, edges' ≡ₚ edges → Forall (λ e : edge, e.2 = w) edges →
     maxcut_score bits edges' = maxcut_score bits edges).
Proof.
  intros Hr. split; [|split; [|split]].
  - apply maxcut_score_from_sum, Hr.
  - done.
  - intros Heq. unfold maxcut_score. rewrite maxcut_score_from_sum by done.
    rewrite cut_weights_all_equal by done. done.
  - intros edges' w Hp Hw. unfold maxcut_score.
    rewrite !maxcut_score_from_sum; [|done|by rewrite Hp].
    do 2 f_equal.
    rewrite (cut_weights_uniform bits edges w) by done.
    rewrite (cut_weights_uniform bits edges' w) by (by rewrite Hp).
    f_equal. unfold cut_weights. rewrite !length_fmap.
    apply Permutation_length, filter_Permutation, Hp.
Qed.

Lemma maxcut_score_sum_witness :
  let bits := [0; 1; 1; 0] in
  let edges := make_ring_edges 4 1 in
  maxcut_score bits edges = Some (float_sum (cut_weights bits edges)) ∧
  maxcut_score bits [] = Some 0%float ∧
  (all_equal bits → maxcut_score bits edges = Some 0%float) ∧
  (∀ edges' w, edges' ≡ₚ edges → Forall (λ e : edge, e.2 = w) edges →
     maxcut_score bits edges' = maxcut_score bits edges).
Proof.
  apply (maxcut_score_sum [0; 1; 1; 0] (make_ring_edges 4 1)).
  apply ring_in_range. reflexivity.
Defined.

(** C7, as stated, fails on floats: on the path 0-1-2-3 with weights
    [1e16], [1.0], [1.0] and alternating bits every edge is cut, and the
    score depends on the order in which the weights are added. *)
Lemma maxcut_score_reorder_counterexample :
  let bits := [0; 1; 0; 1] in
  let edges : list edge := [(0, 1, 1e16%float); (1, 2, 1%float); (2, 3, 1%float)] in
  let edges' : list edge := [(1, 2, 1%float); (2, 3, 1%float); (0, 1, 1e16%float)] in
  Forall (in_range bits) edges ∧ edges' ≡ₚ edges ∧
  maxcut_score bits edges = Some 1e16%float ∧
  maxcut_score bits edges' = Some 10000000000000002%float ∧
  maxcut_score bits edges' ≠ maxcut_score bits edges.
Proof.
  cbv zeta. split; [|split; [|split; [|split]]].
  - repeat constructor; simpl; lia.
  - symmetry. etrans; [apply perm_swap|]. apply perm_skip, perm_swap.
  - vm_compute. reflexivity.
  - vm_compute. reflexivity.
  - vm_compute. intros H. discriminate H.
Qed.

Lemma flip_bits_index bits i :
  Py.index (flip_bits bits) i = (λ b, 1 - b) <$> Py.index bits i.
Proof. apply index_fmap. Qed.

(** C10. Flipping every bit leaves the score unchanged, for every bit
    sequence and every edge list (an edge that leaves the sequence raises
    for both): the endpoints of an edge differ after the flip exactly when
    they differed before. *)
Theorem maxcut_score_flip (bits : list Z) (edges : list edge) :
  maxcut_score (flip_bits bits) edges = maxcut_score bits edges.
Proof.
  unfold maxcut_score. generalize 0%float.
  induction edges as [|[[i j] w] edges IH]; intros acc; [done|].
  cbn [maxcut_score_from]. rewrite !flip_bits_index.
  destruct (Py.index bits i) as [bi|]; [|done].
  destruct (Py.index bits j) as [bj|]; [|done].
  cbn [fmap option_fmap option_map mbind option_bind]. rewrite IH.
  f_equal. repeat case_bool_decide; try done; lia.
Qed.

(** ** The tick buffer *)

Lemma store_lookup {V} (tb : gmap Z (gmap Z V)) tick sidx v :
  store tb tick sidx v !! tick = Some (entry_after tb tick sidx v).
Proof. unfold store, entry_after. by rewrite lookup_insert_eq. Qed.

Lemma store_lookup_ne {V} (tb : gmap Z (gmap Z V)) tick sidx v tick' :
  tick ≠ tick' → store tb tick sidx v !! tick' = tb !! tick'.
Proof. intros. unfold store. by rewrite lookup_insert_ne. Qed.

Lemma foldl_delete_lookup {V} (l : list Z) (tb : gmap Z V) k :
  foldl (λ m old, delete old m) tb l !! k
  = if decide (k ∈ l) then None else tb !! k.
Proof.
  revert tb. induction l as [|x l IH]; intros tb; cbn [foldl].
  - rewrite decide_False; [done|]. apply not_elem_of_nil.
  - rewrite IH. destruct (decide (k ∈ l)) as [Hin|Hin].
    + rewrite decide_True; [done|]. by right.
    + destruct (decide (k = x)) as [->|Hne].
      * rewrite lookup_delete_eq, decide_True; [done|]. by left.
      * rewrite lookup_delete_ne by done. rewrite decide_False; [done|].
        intros [->|?]%elem_of_cons; done.
Qed.

Lemma cleanup_lookup_Some {V} (tb : gmap Z (gmap Z V)) k e :
  cleanup tb !! k = Some e → tb !! k = Some e.
Proof.
  unfold cleanup. case_match; [|done].
  rewrite foldl_delete_lookup. case_decide; done.
Qed.

Lemma seen_store {V} (tb : gmap Z (gmap Z V)) pre tick sidx v :
  seen tb pre → seen (store tb tick sidx v) (pre ++ [(tick, sidx, v)]).
Proof.
  intros Hseen tick' entry s Hl [w Hw].
  destruct (decide (tick = tick')) as [<-|Hne].
  - rewrite store_lookup in Hl. injection Hl as <-. unfold entry_after in Hw.
    destruct (decide (sidx = s)) as [<-|Hs].
    + exists v. apply elem_of_app. right. by left.
    + rewrite lookup_insert_ne in Hw by done.
      destruct (tb !! tick) as [e|] eqn:He; [|done].
      destruct (Hseen tick e s He) as [v' Hv']; [by eexists|].
      exists v'. apply elem_of_app. by left.
  - rewrite store_lookup_ne in Hl by done.
    destruct (Hseen tick' entry s Hl) as [v' Hv']; [by eexists|].
    exists v'. apply elem_of_app. by left.
Qed.

Lemma seen_cleanup {V} (tb : gmap Z (gmap Z V)) pre :
  seen tb pre → seen (cleanup tb) pre.
Proof. intros Hseen tick entry s Hl. apply Hseen. by apply cleanup_lookup_Some. Qed.


Lemma complete_Forall {V} n (entry : gmap Z V) :
  complete n entry ↔ Forall (λ s, is_Some (entry !! s)) (Py.range n).
Proof.
  rewrite Forall_forall. unfold complete.
  split; intros H s Hs; apply H; by apply elem_of_range.
Qed.

Lemma complete_size {V} n (entry : gmap Z V) :
  complete n entry → n ≤ Z.of_nat (size entry).
Proof.
  intros Hc. destruct (decide (0 ≤ n)); [|lia].
  assert (list_to_set (Py.range n) ⊆ dom entry) as Hsub.
  { intros s Hs%elem_of_list_to_set%elem_of_range. apply elem_of_dom. by apply Hc. }
  apply subseteq_size in Hsub. rewrite size_dom in Hsub.
  rewrite size_list_to_set in Hsub by apply NoDup_seqZ.
  rewrite range_length in Hsub. lia.
Qed.

(** What the two clients' receive paths have in common. *)
Section aggregator.
Context {V St : Type} (mask : V → Z) (width n : Z).
Context (buffer : St → gmap Z (gmap Z V)).
Context (step : St → Z → Z → V → option (St * option sample)).

Hypothesis n_pos : 1 ≤ n.

Hypothesis step_buffer : ∀ st tick sidx v st' ev,
  step st tick sidx v = Some (st', ev) →
  buffer st' = store (buffer st) tick sidx v ∨
  buffer st' = cleanup (store (buffer st) tick sidx v).

Hypothesis step_emitted : ∀ st tick sidx v st' smp,
  step st tick sidx v = Some (st', Some smp) →
  s_tick smp = tick ∧
  complete n (entry_after (buffer st) tick sidx v) ∧
  assembled mask width n (entry_after (buffer st) tick sidx v) (s_bits smp).

Hypothesis step_quiet : ∀ st tick sidx v,
  Z.of_nat (size (entry_after (buffer st) tick sidx v)) < n →
  ∃ st', step st tick sidx v = Some (st', None) ∧
         buffer st' = store (buffer st) tick sidx v.

Hypothesis step_emit : ∀ st tick sidx v,
  complete n (entry_after (buffer st) tick sidx v) →
  ∃ st' smp, step st tick sidx v = Some (st', Some smp).


(** A sample is only ever emitted for a tick whose every slave index
    below [n] was recorded. *)
Lemma steps_units st rs st' evs pre :
  steps step st rs = Some (st', evs) → seen (buffer st) pre →
  ∀ smp, smp ∈ evs → ∀ s, 0 ≤ s < n → ∃ v, (s_tick smp, s, v) ∈ pre ++ rs.
Proof using step_buffer step_emitted.
  revert st pre evs. induction rs as [|[[tick sidx] v] rs IH];
    intros st pre evs Hs Hseen smp Hin s Hsn.
  - injection Hs as <- <-. by apply elem_of_nil in Hin.
  - cbn [steps] in Hs.
    destruct (step st tick sidx v) as [[st1 ev]|] eqn:E; [|done]. cbn in Hs.
    destruct (steps step st1 rs) as [[st2 evs']|] eqn:E2; [|done]. cbn in Hs.
    injection Hs as <- <-.
    pose proof (seen_store _ _ tick sidx v Hseen) as Hseen'.
    apply elem_of_app in Hin as [Hin|Hin].
    + destruct ev as [smp'|]; [|by apply elem_of_nil in Hin].
      apply list_elem_of_singleton in Hin as <-.
      destruct (step_emitted _ _ _ _ _ _ E) as (-> & Hc & _).
      destruct (Hseen' tick _ s (store_lookup _ _ _ _) (Hc s Hsn)) as [w Hw].
      exists w. apply elem_of_app in Hw as [Hw|Hw%list_elem_of_singleton].
      * apply elem_of_app. by left.
      * apply elem_of_app. right. rewrite Hw. by left.
    + assert (seen (buffer st1) (pre ++ [(tick, sidx, v)])) as Hseen1.
      { destruct (step_buffer _ _ _ _ _ _ E) as [->| ->];
          [done|by apply seen_cleanup]. }
      destruct (IH _ _ _ E2 Hseen1 smp Hin s Hsn) as [w Hw].
      exists w. by rewrite <- app_assoc in Hw.
Qed.




(** Records of distinct ticks not yet in the buffer are all kept when more
    than one slave is expected: none of their entries reaches [n], so the
    eviction is never reached. *)
Lemma steps_distinct st (rs : list (Z * Z * V)) :
  2 ≤ n → NoDup rs.*1.*1 → (∀ tick, tick ∈ rs.*1.*1 → buffer st !! tick = None) →
  ∃ st', steps step st rs = Some (st', []) ∧
         size (buffer st') = (size (buffer st) + length rs)%nat.
Proof using step_quiet.
  intros Hn. revert st. induction rs as [|[[tick sidx] v] rs IH]; intros st Hnd Hfresh.
  - exists st. split; [done|]. cbn [length]. lia.
  - cbn [fmap list_fmap fst] in Hnd, Hfresh. apply NoDup_cons in Hnd as [Hu Hnd].
    assert (buffer st !! tick = None) as Hnone by (apply Hfresh; by left).
    destruct (step_quiet st tick sidx v) as (st1 & E1 & Hb1).
    { unfold entry_after. rewrite Hnone. cbn [default from_option].
      rewrite map_size_insert_None by apply lookup_empty.
      rewrite map_size_empty. lia. }
    destruct (IH st1 Hnd) as (st' & E' & Hsz').
    { intros tick' Hin. rewrite Hb1, store_lookup_ne by (intros ->; done).
      apply Hfresh. by right. }
    exists st'. cbn [steps]. rewrite E1. cbn. rewrite E'. cbn. split; [done|].
    rewrite Hsz', Hb1. unfold store. rewrite map_size_insert_None by done.
    cbn [length]. lia.
Qed.
End aggregator.

(** ** Assembling the bits of a tick *)

Lemma complete_mapM {V} n (entry : gmap Z V) :
  complete n entry → ∃ vs, mapM (λ s, entry !! s) (Py.range n) = Some vs.
Proof.
  intros Hc. apply (mapM_is_Some_2 (λ s, entry !! s)). by apply complete_Forall.
Qed.

Lemma mapM_Some_length {A B} (f : A → option B) l vs :
  mapM f l = Some vs → length vs = length l.
Proof. intros H%mapM_Some. symmetry. by eapply Forall2_length. Qed.

Lemma decoded_length {V} (mask : V → Z) width (vs : list V) :
  length (concat ((λ v, bits_from_bmask (mask v) width) <$> vs))
  = (length vs * Z.to_nat width)%nat.
Proof.
  induction vs as [|v vs IH]; [done|].
  rewrite fmap_cons. cbn [concat]. rewrite length_app, bits_from_bmask_length, IH.
  cbn [length]. lia.
Qed.

Lemma ring_nil n w : n ≤ 0 → make_ring_edges n w = [].
Proof.
  intros Hn. unfold make_ring_edges, Py.range, seqZ.
  by replace (Z.to_nat n) with 0%nat by lia.
Qed.

Lemma ring_score_total bits n w :
  n ≤ 0 ∨ Z.of_nat (length bits) = n → is_Some (maxcut_score bits (make_ring_edges n w)).
Proof.
  intros [Hn|Hn].
  - rewrite ring_nil by done. by eexists.
  - unfold maxcut_score. rewrite maxcut_score_from_sum; [by eexists|].
    by apply ring_in_range.
Qed.

Lemma console_build_vec_mapM width (entry : gmap Z Console.tuple) ss vs :
  mapM (λ s, entry !! s) ss = Some vs →
  Console.build_vec width entry ss
  = (λ t, bits_from_bmask (Console.bmask t) width) <$> vs.
Proof.
  intros H%mapM_Some. induction H as [|s t ss vs Hs _ IH]; [done|].
  cbn [Console.build_vec]. rewrite Hs, IH. done.
Qed.

Lemma console_build_vec_length width (entry : gmap Z Console.tuple) ss :
  (length (Console.build_vec width entry ss) ≤ length ss)%nat.
Proof.
  induction ss as [|s ss IH]; [done|]. cbn [Console.build_vec length].
  destruct (entry !! s); cbn [length]; lia.
Qed.

Lemma console_build_vec_full width (entry : gmap Z Console.tuple) ss :
  length (Console.build_vec width entry ss) = length ss →
  Forall (λ s, is_Some (entry !! s)) ss.
Proof.
  induction ss as [|s ss IH]; [constructor|]. cbn [Console.build_vec length].
  destruct (entry !! s) as [t|] eqn:E; [|done]. cbn [length]. intros [= H].
  constructor; [by eexists|by apply IH].
Qed.

Lemma dashboard_build_vec_mapM (entry : gmap Z Z) vs :
  mapM (λ s, entry !! s) (Py.range Dashboard.NUM_SLAVES) = Some vs →
  Dashboard.build_vec entry = (λ bm, bits_from_bmask bm 4) <$> vs.
Proof.
  unfold Dashboard.build_vec. generalize (Py.range Dashboard.NUM_SLAVES).
  intros ss H%mapM_Some. induction H as [|s t ss vs Hs _ IH]; [done|].
  cbn [omap list_omap]. rewrite Hs. cbn. f_equal. exact IH.
Qed.

Lemma omap_length_full {A B} (f : A → option B) l :
  length (omap f l) = length l → Forall (λ x, is_Some (f x)) l.
Proof.
  assert (∀ l, length (omap f l) ≤ length l)%nat as Hle.
  { clear l. induction l as [|x l IH]; [done|]. cbn [omap list_omap].
    destruct (f x); cbn [length]; lia. }
  induction l as [|x l IH]; [constructor|]. cbn [omap list_omap].
  destruct (f x) as [y|] eqn:E; cbn [length].
  - intros [= H]. constructor; [by eexists|by apply IH].
  - intros H. specialize (Hle l). lia.
Qed.

(** ** The receive path of the console client *)

Section console.
Context (cfg : Console.settings).

Lemma console_score_total (vs : list Console.tuple) :
  Z.of_nat (length vs) = (Console.NUM_SLAVES cfg) →
  is_Some (maxcut_score
             (concat ((λ t, bits_from_bmask (Console.bmask t) (Console.BITS_PER_SLAVE cfg)) <$> vs))
             (Console.edges cfg)).
Proof.
  intros Hlen. unfold Console.edges, Console.build_edges, Console.n_bits.
  apply ring_score_total. rewrite decoded_length.
  destruct (decide (0 ≤ (Console.BITS_PER_SLAVE cfg))); [right; nia|left; nia].
Qed.

Lemma console_ingest_inv st tick sidx t st' ev :
  Console.ingest cfg st tick sidx t = Console.Continue st' ev →
  let tb := store (Console.tick_buffer st) tick sidx t in
  let entry := entry_after (Console.tick_buffer st) tick sidx t in
  match ev with
  | Some smp =>
      s_tick smp = tick ∧ 1 ≤ (Console.NUM_SLAVES cfg) ∧ complete (Console.NUM_SLAVES cfg) entry ∧
      assembled Console.bmask (Console.BITS_PER_SLAVE cfg) (Console.NUM_SLAVES cfg) entry (s_bits smp) ∧
      maxcut_score (s_bits smp) (Console.edges cfg) = Some (s_score smp) ∧
      st' = Console.set_buffer (cleanup tb) (Console.observe st smp)
  | None =>
      (1 ≤ (Console.NUM_SLAVES cfg) → ¬ complete (Console.NUM_SLAVES cfg) entry) ∧
      (st' = Console.set_buffer tb st ∨ st' = Console.set_buffer (cleanup tb) st)
  end.
Proof.
  unfold Console.ingest. cbv zeta. rewrite store_lookup. cbn [default from_option id].
  set (entry := entry_after _ _ _ _). set (tb := store _ _ _ _).
  destruct ((Console.NUM_SLAVES cfg) <=? Z.of_nat (size entry)) eqn:Hsz.
  - destruct (Z.of_nat (length (Console.build_vec (Console.BITS_PER_SLAVE cfg) entry (Py.range (Console.NUM_SLAVES cfg)))) =? (Console.NUM_SLAVES cfg)) eqn:Hlen.
    + apply Z.eqb_eq in Hlen.
      assert (complete (Console.NUM_SLAVES cfg) entry) as Hc.
      { apply complete_Forall, (console_build_vec_full (Console.BITS_PER_SLAVE cfg)).
        rewrite range_length. lia. }
      destruct (complete_mapM _ _ Hc) as [vs Hvs].
      rewrite (console_build_vec_mapM _ _ _ _ Hvs) in *.
      destruct vs as [|v vs]; [by cbn|]. rewrite fmap_cons.
      rewrite <- (fmap_cons (λ t, bits_from_bmask (Console.bmask t) (Console.BITS_PER_SLAVE cfg))).
      destruct (maxcut_score _ _) as [score|] eqn:Hscore; [|done].
      intros [= <- <-]. cbn zeta. cbn [s_tick s_bits s_score].
      split; [done|]. split.
      { rewrite length_fmap in Hlen. cbn [length] in Hlen. lia. }
      split; [done|]. split; [by exists (v :: vs)|]. done.
    + intros [= <- <-]. split; [|by right]. intros HN Hc.
      destruct (complete_mapM _ _ Hc) as [vs Hvs].
      rewrite (console_build_vec_mapM _ _ _ _ Hvs) in Hlen.
      apply mapM_Some_length in Hvs. rewrite range_length in Hvs.
      rewrite length_fmap, Hvs in Hlen. apply Z.eqb_neq in Hlen.
      apply complete_size in Hc. apply Z.leb_le in Hsz. lia.
  - intros [= <- <-]. split; [|by left]. intros _ Hc%complete_size.
    apply Z.leb_gt in Hsz. lia.
Qed.

Lemma console_ingest_quiet st tick sidx t :
  Z.of_nat (size (entry_after (Console.tick_buffer st) tick sidx t)) < (Console.NUM_SLAVES cfg) →
  Console.ingest cfg st tick sidx t
  = Console.Continue
      (Console.set_buffer (store (Console.tick_buffer st) tick sidx t) st) None.
Proof.
  intros Hsz. unfold Console.ingest. cbv zeta. rewrite store_lookup. cbn [default from_option id].
  by rewrite (proj2 (Z.leb_gt _ _)) by lia.
Qed.


Lemma console_ingest_total st tick sidx t :
  1 ≤ (Console.NUM_SLAVES cfg) → ∃ st' ev, Console.ingest cfg st tick sidx t = Console.Continue st' ev.
Proof.
  intros HN. unfold Console.ingest. cbv zeta. rewrite store_lookup. cbn [default from_option id].
  set (entry := entry_after _ _ _ _) in *.
  destruct ((Console.NUM_SLAVES cfg) <=? _); [|by eexists _, _].
  destruct (_ =? (Console.NUM_SLAVES cfg)) eqn:Hlen; [|by eexists _, _].
  apply Z.eqb_eq in Hlen.
  assert (complete (Console.NUM_SLAVES cfg) entry) as Hc.
  { apply complete_Forall, (console_build_vec_full (Console.BITS_PER_SLAVE cfg)). rewrite range_length. lia. }
  destruct (complete_mapM _ _ Hc) as [vs Hvs].
  rewrite (console_build_vec_mapM _ _ _ _ Hvs) in *. rewrite length_fmap in Hlen.
  destruct vs as [|v vs]; [cbn in Hlen; lia|]. rewrite fmap_cons.
  rewrite <- (fmap_cons (λ t, bits_from_bmask (Console.bmask t) (Console.BITS_PER_SLAVE cfg))).
  destruct (console_score_total (v :: vs)) as [score ->]; [lia|].
  by eexists _, _.
Qed.

Lemma console_step_buffer st tick sidx t st' ev :
  console_step cfg st tick sidx t = Some (st', ev) →
  Console.tick_buffer st' = store (Console.tick_buffer st) tick sidx t ∨
  Console.tick_buffer st' = cleanup (store (Console.tick_buffer st) tick sidx t).
Proof.
  unfold console_step.
  destruct (Console.ingest _ _ _ _ _) as [st1 ev1| |] eqn:E; [|done..].
  intros [= -> ->]. apply console_ingest_inv in E. destruct ev as [smp|].
  - destruct E as (_ & _ & _ & _ & _ & ->). by right.
  - destruct E as (_ & [-> | ->]); [by left|by right].
Qed.

Lemma console_step_emitted st tick sidx t st' smp :
  console_step cfg st tick sidx t = Some (st', Some smp) →
  s_tick smp = tick ∧
  complete (Console.NUM_SLAVES cfg) (entry_after (Console.tick_buffer st) tick sidx t) ∧
  assembled Console.bmask (Console.BITS_PER_SLAVE cfg) (Console.NUM_SLAVES cfg)
    (entry_after (Console.tick_buffer st) tick sidx t) (s_bits smp).
Proof.
  unfold console_step.
  destruct (Console.ingest _ _ _ _ _) as [st1 ev1| |] eqn:E; [|done..].
  intros [= -> ->]. apply console_ingest_inv in E.
  destruct E as (? & _ & ? & ? & _). done.
Qed.

Lemma console_step_quiet st tick sidx t :
  Z.of_nat (size (entry_after (Console.tick_buffer st) tick sidx t)) < (Console.NUM_SLAVES cfg) →
  ∃ st', console_step cfg st tick sidx t = Some (st', None) ∧
         Console.tick_buffer st' = store (Console.tick_buffer st) tick sidx t.
Proof.
  intros H. unfold console_step. rewrite console_ingest_quiet by done.
  by eexists.
Qed.


Lemma console_ingest_all_steps rs st :
  Console.ingest_all cfg st rs = steps (console_step cfg) st rs.
Proof.
  revert st. induction rs as [|[[tick sidx] t] rs IH]; intros st; [done|].
  cbn [Console.ingest_all steps].
  destruct (Console.ingest cfg st tick sidx t) as [st1 ev| |] eqn:E.
  - assert (console_step cfg st tick sidx t = Some (st1, ev)) as ->
      by (unfold console_step; by rewrite E).
    cbn [mbind option_bind]. by rewrite IH.
  - assert (console_step cfg st tick sidx t = None) as ->
      by (unfold console_step; by rewrite E). done.
  - assert (console_step cfg st tick sidx t = None) as ->
      by (unfold console_step; by rewrite E). done.
Qed.
End console.

(** ** The receive path of the dashboard client *)

Lemma dashboard_anneal_buffer g st st' cmds :
  Dashboard.anneal g st = (st', cmds) →
  Dashboard.tick_buffer st' = Dashboard.tick_buffer st.
Proof. unfold Dashboard.anneal. repeat case_match; by intros [= <- <-]. Qed.

Lemma dashboard_then_anneal g st ev :
  ∃ st' cmds, Dashboard.then_anneal g st ev = (st', cmds, ev) ∧
              Dashboard.anneal g st = (st', cmds).
Proof.
  unfold Dashboard.then_anneal. destruct (Dashboard.anneal g st) as [st' cmds].
  by exists st', cmds.
Qed.

Lemma dashboard_score_total (vs : list Z) :
  length vs = 4%nat →
  is_Some (maxcut_score (concat ((λ bm, bits_from_bmask bm 4) <$> vs))
             Dashboard.EDGES).
Proof.
  intros Hlen. change Dashboard.EDGES with (make_ring_edges 16 1).
  apply ring_score_total. right.
  rewrite (decoded_length (λ bm : Z, bm) 4 vs), Hlen. done.
Qed.

Lemma dashboard_ingest_inv g st tick sidx bm st' cmds ev :
  Dashboard.ingest g st tick sidx bm = (st', cmds, ev) →
  let tb := store (Dashboard.tick_buffer st) tick sidx bm in
  let entry := entry_after (Dashboard.tick_buffer st) tick sidx bm in
  match ev with
  | Some smp =>
      s_tick smp = tick ∧ complete Dashboard.NUM_SLAVES entry ∧
      assembled (λ bm : Z, bm) 4 Dashboard.NUM_SLAVES entry (s_bits smp) ∧
      maxcut_score (s_bits smp) Dashboard.EDGES = Some (s_score smp) ∧
      Dashboard.anneal g
        (Dashboard.set_buffer (cleanup tb) (Dashboard.record_sample st smp))
      = (st', cmds)
  | None =>
      ¬ complete Dashboard.NUM_SLAVES entry ∧
      (Dashboard.anneal g (Dashboard.set_buffer tb st) = (st', cmds) ∨
       Dashboard.anneal g (Dashboard.set_buffer (cleanup tb) st) = (st', cmds))
  end.
Proof.
  unfold Dashboard.ingest. cbv zeta. rewrite store_lookup.
  cbn [default from_option id].
  set (entry := entry_after _ _ _ _). set (tb := store _ _ _ _).
  destruct (Dashboard.NUM_SLAVES <=? Z.of_nat (size entry)) eqn:Hsz.
  - destruct (Z.of_nat (length (Dashboard.build_vec entry)) =? Dashboard.NUM_SLAVES)
      eqn:Hlen.
    + apply Z.eqb_eq in Hlen.
      assert (complete Dashboard.NUM_SLAVES entry) as Hc.
      { apply complete_Forall.
        apply (omap_length_full (λ s, (λ bm, bits_from_bmask bm 4) <$> entry !! s)
                 (Py.range Dashboard.NUM_SLAVES)) in Hlen'
          || (eapply Forall_impl;
              [apply (omap_length_full
                        (λ s, (λ bm, bits_from_bmask bm 4) <$> entry !! s));
               fold (Dashboard.build_vec entry); rewrite range_length;
               change (Z.to_nat Dashboard.NUM_SLAVES) with 4%nat;
               change Dashboard.NUM_SLAVES with 4 in Hlen; lia|]).
        intros s Hs. cbn in Hs. by apply fmap_is_Some in Hs. }
      destruct (complete_mapM _ _ Hc) as [vs Hvs].
      rewrite (dashboard_build_vec_mapM _ _ Hvs) in *.
      pose proof (mapM_Some_length _ _ _ Hvs) as Hl.
      destruct (dashboard_score_total vs) as [score Hscore]; [done|].
      rewrite Hscore.
      destruct (dashboard_then_anneal g
                  (Dashboard.set_buffer (cleanup tb)
                     (Dashboard.record_sample st
                        (Sample tick (concat ((λ bm, bits_from_bmask bm 4) <$> vs))
                           score)))
                  (Some (Sample tick (concat ((λ bm, bits_from_bmask bm 4) <$> vs))
                           score))) as (st1 & cmds1 & -> & Ha).
      intros [= <- <- <-]. cbn [s_tick s_bits s_score].
      split; [done|]. split; [done|]. split; [by exists vs|]. done.
    + destruct (dashboard_then_anneal g (Dashboard.set_buffer (cleanup tb) st) None)
        as (st1 & cmds1 & -> & Ha).
      intros [= <- <- <-]. split; [|by right]. intros Hc.
      destruct (complete_mapM _ _ Hc) as [vs Hvs].
      rewrite (dashboard_build_vec_mapM _ _ Hvs) in Hlen.
      apply mapM_Some_length in Hvs. rewrite length_fmap, Hvs in Hlen. done.
  - destruct (dashboard_then_anneal g (Dashboard.set_buffer tb st) None)
      as (st1 & cmds1 & -> & Ha).
    intros [= <- <- <-]. split; [|by left]. intros Hc%complete_size.
    apply Z.leb_gt in Hsz. lia.
Qed.

Lemma dashboard_ingest_quiet g st tick sidx bm :
  Z.of_nat (size (entry_after (Dashboard.tick_buffer st) tick sidx bm))
  < Dashboard.NUM_SLAVES →
  Dashboard.ingest g st tick sidx bm
  = Dashboard.then_anneal g
      (Dashboard.set_buffer (store (Dashboard.tick_buffer st) tick sidx bm) st) None.
Proof.
  intros Hsz. unfold Dashboard.ingest. cbv zeta. rewrite store_lookup.
  cbn [default from_option id]. by rewrite (proj2 (Z.leb_gt _ _)) by lia.
Qed.


Lemma dashboard_step_buffer g st tick sidx bm st' ev :
  dashboard_step g st tick sidx bm = Some (st', ev) →
  Dashboard.tick_buffer st' = store (Dashboard.tick_buffer st) tick sidx bm ∨
  Dashboard.tick_buffer st'
  = cleanup (store (Dashboard.tick_buffer st) tick sidx bm).
Proof.
  unfold dashboard_step.
  destruct (Dashboard.ingest g st tick sidx bm) as [[st1 cmds] ev1] eqn:E.
  intros [= -> ->]. apply dashboard_ingest_inv in E. destruct ev as [smp|].
  - destruct E as (_ & _ & _ & _ & Ha). right.
    by rewrite (dashboard_anneal_buffer _ _ _ _ Ha).
  - destruct E as (_ & [Ha|Ha]); [left|right];
      by rewrite (dashboard_anneal_buffer _ _ _ _ Ha).
Qed.

Lemma dashboard_step_emitted g st tick sidx bm st' smp :
  dashboard_step g st tick sidx bm = Some (st', Some smp) →
  s_tick smp = tick ∧
  complete Dashboard.NUM_SLAVES (entry_after (Dashboard.tick_buffer st) tick sidx bm) ∧
  assembled (λ bm : Z, bm) 4 Dashboard.NUM_SLAVES
    (entry_after (Dashboard.tick_buffer st) tick sidx bm) (s_bits smp).
Proof.
  unfold dashboard_step.
  destruct (Dashboard.ingest g st tick sidx bm) as [[st1 cmds] ev1] eqn:E.
  intros [= -> ->]. apply dashboard_ingest_inv in E.
  destruct E as (? & ? & ? & _). done.
Qed.

Lemma dashboard_step_quiet g st tick sidx bm :
  Z.of_nat (size (entry_after (Dashboard.tick_buffer st) tick sidx bm))
  < Dashboard.NUM_SLAVES →
  ∃ st', dashboard_step g st tick sidx bm = Some (st', None) ∧
         Dashboard.tick_buffer st' = store (Dashboard.tick_buffer st) tick sidx bm.
Proof.
  intros H. unfold dashboard_step. rewrite dashboard_ingest_quiet by done.
  destruct (dashboard_then_anneal g
              (Dashboard.set_buffer (store (Dashboard.tick_buffer st) tick sidx bm) st)
              None) as (st1 & cmds1 & -> & Ha).
  exists st1. split; [done|].
  by rewrite (dashboard_anneal_buffer _ _ _ _ Ha).
Qed.


Lemma dashboard_ingest_all_steps g rs st :
  steps (dashboard_step g) st rs
  = Some ((Dashboard.ingest_all g st rs).1.1, (Dashboard.ingest_all g st rs).2).
Proof.
  revert st. induction rs as [|[[tick sidx] bm] rs IH]; intros st; [done|].
  cbn [Dashboard.ingest_all steps].
  destruct (Dashboard.ingest g st tick sidx bm) as [[st1 cmds] ev] eqn:E.
  assert (dashboard_step g st tick sidx bm = Some (st1, ev)) as ->
    by (unfold dashboard_step; by rewrite E).
  cbn [mbind option_bind]. rewrite IH.
  destruct (Dashboard.ingest_all g st1 rs) as [[st2 cmds'] evs]. done.
Qed.

(** ** Completion of a tick *)

(** C4. In both clients a tick is assembled and scored only when the entry
    of the tick, after the record was stored, holds every slave index
    [0..NUM_SLAVES-1]; the bits of the sample are then the decoded masks of
    the slaves [0], [1], ... in that order.  Hence, along any sequence of
    records from the start, a sample is only emitted for a tick each of
    whose slave indices below [NUM_SLAVES] was recorded: a tick with a gap
    is never scored. *)
Theorem scored_only_when_complete (cfg : Console.settings) (g : Dashboard.gui) :
  (∀ st tick sidx t st' smp,
     Console.ingest cfg st tick sidx t = Console.Continue st' (Some smp) →
     s_tick smp = tick ∧
     complete (Console.NUM_SLAVES cfg)
       (entry_after (Console.tick_buffer st) tick sidx t) ∧
     assembled Console.bmask (Console.BITS_PER_SLAVE cfg) (Console.NUM_SLAVES cfg)
       (entry_after (Console.tick_buffer st) tick sidx t) (s_bits smp)) ∧
  (∀ rs st evs smp s,
     Console.ingest_all cfg Console.init rs = Some (st, evs) →
     smp ∈ evs → 0 ≤ s < Console.NUM_SLAVES cfg →
     ∃ t, (s_tick smp, s, t) ∈ rs) ∧
  (∀ st tick sidx bm st' cmds smp,
     Dashboard.ingest g st tick sidx bm = (st', cmds, Some smp) →
     s_tick smp = tick ∧
     complete Dashboard.NUM_SLAVES
       (entry_after (Dashboard.tick_buffer st) tick sidx bm) ∧
     assembled (λ bm : Z, bm) 4 Dashboard.NUM_SLAVES
       (entry_after (Dashboard.tick_buffer st) tick sidx bm) (s_bits smp)) ∧
  (∀ rs smp s,
     smp ∈ (Dashboard.ingest_all g Dashboard.init rs).2 →
     0 ≤ s < Dashboard.NUM_SLAVES →
     ∃ bm, (s_tick smp, s, bm) ∈ rs).
Proof.
  split; [|split; [|split]].
  - intros st tick sidx t st' smp E. apply (console_step_emitted cfg st tick sidx t st').
    unfold console_step. by rewrite E.
  - intros rs st evs smp s E Hin Hs. rewrite console_ingest_all_steps in E.
    apply (steps_units Console.bmask (Console.BITS_PER_SLAVE cfg)
             (Console.NUM_SLAVES cfg) Console.tick_buffer (console_step cfg)
             (console_step_buffer cfg)
             (console_step_emitted cfg) Console.init rs st evs [] E); try done;
      intros tick entry s' Hl; by rewrite lookup_empty in Hl.
  - intros st tick sidx bm st' cmds smp E.
    apply (dashboard_step_emitted g st tick sidx bm st').
    unfold dashboard_step. by rewrite E.
  - intros rs smp s Hin Hs.
    apply (steps_units (λ bm : Z, bm) 4 Dashboard.NUM_SLAVES
             Dashboard.tick_buffer (dashboard_step g)
             (dashboard_step_buffer g) (dashboard_step_emitted g)
             Dashboard.init rs _ _ [] (dashboard_ingest_all_steps g rs Dashboard.init));
      try done; intros tick entry s' Hl; by rewrite lookup_empty in Hl.
Qed.

(** The four slaves of tick 7 report: the sample emitted is for tick 7,
    and slave 2 of tick 7 is among the records. *)
Lemma scored_only_when_complete_witness :
  let rs := [(7, 0, Console.Tuple 5 0 0 0); (7, 1, Console.Tuple 3 0 0 0);
             (7, 2, Console.Tuple 0 0 0 0); (7, 3, Console.Tuple 15 0 0 0)] in
  let smp := Sample 7 [1; 0; 1; 0; 1; 1; 0; 0; 0; 0; 0; 0; 1; 1; 1; 1] 6 in
  snd <$> Console.ingest_all Console.defaults Console.init rs = Some [smp] ∧
  ∃ t, (7, 2, t) ∈ rs.
Proof.
  cbv zeta. split; [vm_compute; reflexivity|].
  destruct (scored_only_when_complete Console.defaults (Dashboard.Gui 300 0 false 0 0))
    as (_ & Hrun & _).
  assert (∃ st, Console.ingest_all Console.defaults Console.init
                  [(7, 0, Console.Tuple 5 0 0 0); (7, 1, Console.Tuple 3 0 0 0);
                   (7, 2, Console.Tuple 0 0 0 0); (7, 3, Console.Tuple 15 0 0 0)]
                = Some (st, [Sample 7 [1; 0; 1; 0; 1; 1; 0; 0; 0; 0; 0; 0; 1; 1; 1; 1] 6]))
    as [st E] by (eexists; vm_compute; reflexivity).
  assert (0 ≤ 2 < Console.NUM_SLAVES Console.defaults) as Hs
    by (change (Console.NUM_SLAVES Console.defaults) with 4; lia).
  exact (Hrun _ _ _ _ 2 E (list_elem_of_here _ _) Hs).
Defined.

(** The slaves 0, 2 and 3 of a tick report, then slave 7: four distinct
    indices with a gap at 1, and no sample in either client. *)
Example gap_is_not_scored :
  snd <$> Console.ingest_all Console.defaults Console.init
            [(5, 0, Console.Tuple 1 0 0 0); (5, 2, Console.Tuple 2 0 0 0);
             (5, 3, Console.Tuple 3 0 0 0); (5, 7, Console.Tuple 4 0 0 0)]
  = Some [] ∧
  (Dashboard.ingest_all (Dashboard.Gui 300 0 false 0 0) Dashboard.init
     [(5, 0, 1); (5, 2, 2); (5, 3, 3); (5, 7, 4)]).2 = [].
Proof. split; vm_compute; reflexivity. Qed.

(** ** One sample per completion, and again for a late record *)




(** ** Retention *)

(** The eviction stands inside the branch taken when the entry of the
    current tick holds at least [NUM_SLAVES] records, so it is not reached
    while ticks stay incomplete: with more than one slave expected, the
    records of any number of distinct ticks are all kept. *)
Lemma buffer_unbounded_without_completion (cfg : Console.settings)
  (g : Dashboard.gui) :
  (2 ≤ Console.NUM_SLAVES cfg →
   ∀ rs : list Console.record, NoDup rs.*1.*1 →
     ∃ st, Console.ingest_all cfg Console.init rs = Some (st, []) ∧
           size (Console.tick_buffer st) = length rs) ∧
  (∀ rs : list (Z * Z * Z), NoDup rs.*1.*1 →
     (Dashboard.ingest_all g Dashboard.init rs).2 = [] ∧
     size (Dashboard.tick_buffer (Dashboard.ingest_all g Dashboard.init rs).1.1)
     = length rs).
Proof.
  split.
  - intros HN rs Hnd.
    destruct (steps_distinct (Console.NUM_SLAVES cfg) Console.tick_buffer
                (console_step cfg) (console_step_quiet cfg) Console.init rs HN Hnd)
      as (st & E & Hsz); [done|].
    exists st. by rewrite console_ingest_all_steps.
  - intros rs Hnd.
    destruct (steps_distinct Dashboard.NUM_SLAVES Dashboard.tick_buffer
                (dashboard_step g) (dashboard_step_quiet g) Dashboard.init rs
                ltac:(done) Hnd) as (st & E & Hsz); [done|].
    rewrite dashboard_ingest_all_steps in E. injection E as <- E. done.
Qed.

(** C3 on the code.  Sixty ticks of which only slave 0 reports: no tick
    completes, the eviction is never reached, and sixty ticks, more than
    the watermark of 50, are tracked after the last record, in both
    clients. *)
Theorem sixty_ticks_tracked :
  let rs := (λ i : nat, (Z.of_nat i, 0, Console.Tuple 0 0 0 0)) <$> seq 0 60 in
  let rs' := (λ i : nat, (Z.of_nat i, 0, 0)) <$> seq 0 60 in
  (λ r, size (Console.tick_buffer r.1))
    <$> Console.ingest_all Console.defaults Console.init rs = Some 60%nat ∧
  size (Dashboard.tick_buffer
          (Dashboard.ingest_all (Dashboard.Gui 300 0 false 0 0) Dashboard.init rs').1.1)
  = 60%nat.
Proof. split; vm_compute; reflexivity. Qed.

(** When the eviction runs, it keeps the twenty largest ticks. *)

Lemma sorted_keys_spec {V} (tb : gmap Z (gmap Z V)) :
  StronglySorted Z.le (sorted_keys tb) ∧ NoDup (sorted_keys tb) ∧
  length (sorted_keys tb) = size tb ∧
  ∀ k, k ∈ sorted_keys tb ↔ is_Some (tb !! k).
Proof.
  unfold sorted_keys. split; [apply StronglySorted_merge_sort; apply _|].
  split; [rewrite merge_sort_Permutation; apply NoDup_fst_map_to_list|].
  split; [by rewrite merge_sort_Permutation, length_fmap, length_map_to_list|].
  intros k. rewrite merge_sort_Permutation, list_elem_of_fmap. split.
  - intros ([k' e] & -> & Hin%elem_of_map_to_list). by eexists.
  - intros [e He]. exists (k, e). split; [done|]. by apply elem_of_map_to_list.
Qed.

Lemma foldl_delete_size {V} (l : list Z) (tb : gmap Z V) :
  NoDup l → (∀ k, k ∈ l → is_Some (tb !! k)) →
  size (foldl (λ m old, delete old m) tb l) = (size tb - length l)%nat.
Proof.
  revert tb. induction l as [|x l IH]; intros tb Hnd Hin; cbn [foldl length].
  - lia.
  - apply NoDup_cons in Hnd as [Hx Hnd].
    destruct (Hin x) as [e He]; [by left|].
    rewrite IH; [|done|].
    + rewrite map_size_delete, He. cbn [length]. lia.
    + intros k Hk. rewrite lookup_delete_ne by (intros ->; done).
      apply Hin. by right.
Qed.

Lemma cleanup_spec {V} (tb : gmap Z (gmap Z V)) :
  ((size tb ≤ 50)%nat → cleanup tb = tb) ∧
  ((50 < size tb)%nat →
   size (cleanup tb) = 20%nat ∧
   ∀ old kept, is_Some (tb !! old) → cleanup tb !! old = None →
               is_Some (cleanup tb !! kept) → old < kept).
Proof.
  unfold cleanup. destruct (sorted_keys_spec tb) as (Hsort & Hnd & Hlen & Hkeys).
  split.
  - intros Hle. by rewrite (proj2 (Z.ltb_ge _ _)) by lia.
  - intros Hgt. rewrite (proj2 (Z.ltb_lt _ _)) by lia.
    unfold all_but_last_20. set (l := sorted_keys tb) in *.
    set (m := (length l - 20)%nat).
    assert (l = take m l ++ drop m l) as Hl by (by rewrite take_drop).
    rewrite Hl in Hsort, Hnd. split.
    + rewrite foldl_delete_size.
      * rewrite length_take. lia.
      * by apply NoDup_app in Hnd as (? & _ & _).
      * intros k Hk. apply Hkeys. rewrite Hl. apply elem_of_app. by left.
    + intros old kept Hold Hgone [e Hkept]. rewrite foldl_delete_lookup in Hgone, Hkept.
      destruct (decide (old ∈ take m l)) as [Ho|]; [|by destruct Hold; congruence].
      destruct (decide (kept ∈ take m l)) as [|Hk]; [done|].
      assert (kept ∈ drop m l) as Hk'.
      { assert (kept ∈ l) as Hin by (apply Hkeys; by eexists).
        rewrite Hl in Hin. by apply elem_of_app in Hin as [?|?]. }
      pose proof (StronglySorted_app_1_elem_of _ _ _ _ _ Hsort Ho Hk') as Hle.
      apply NoDup_app in Hnd as (_ & Hdisj & _).
      assert (old ≠ kept) by (intros ->; by eapply Hdisj). lia.
Qed.

(** ** Malformed data lines *)





(** ** Clamping of the parameters *)

Lemma SFcompare_Eq_inv x y :
  SFcompare x y = Some Eq →
  x = y ∨ ∃ s s', x = S754_zero s ∧ y = S754_zero s'.
Proof.
  destruct x as [[]|[]| |[] mx ex], y as [[]|[]| |[] my ey]; simpl; try congruence;
    try (intros _; by left); try (intros _; right; by eexists _, _).
  all: change (PosDef.Pos.compare_cont Eq mx my) with (Pos.compare mx my).
  all: destruct (Z.compare_spec ex ey); try congruence.
  all: destruct (Pos.compare_spec mx my); simpl; try congruence.
  all: intros _; left; congruence.
Qed.

Lemma eqb_leibniz a b :
  (a =? b)%float = true →
  a = b ∨ ∃ s s', Prim2SF a = S754_zero s ∧ Prim2SF b = S754_zero s'.
Proof.
  intros H%eqb_fcmp. apply SFcompare_Eq_inv in H as [H|H]; [|by right].
  left. by apply Prim2SF_inj.
Qed.

Lemma zero_cases t s :
  Prim2SF t = S754_zero s → t = (if s then (-0)%float else 0%float).
Proof. intros H. apply Prim2SF_inj. rewrite H. by destruct s. Qed.

Lemma clamp_float_unit_range t :
  (0 <=? Console.clamp_float t 0 1)%float = true ∧
  (Console.clamp_float t 0 1 <=? 1)%float = true.
Proof.
  unfold Console.clamp_float, Py.max_float, Py.min_float.
  destruct (t <? 1)%float eqn:E1.
  - destruct (0 <? t)%float eqn:E2.
    + split; by apply ltb_leb.
    + split; reflexivity.
  - split; reflexivity.
Qed.

Lemma clamp_float_unit_id t :
  (0 <=? t)%float = true → (t <=? 1)%float = true →
  Console.clamp_float t 0 1 = t ∨
  (t = (-0)%float ∧ Console.clamp_float t 0 1 = 0%float).
Proof.
  intros H0 H1. unfold Console.clamp_float, Py.max_float, Py.min_float.
  assert ((if (t <? 1)%float then t else 1%float) = t) as ->.
  { destruct (t <? 1)%float eqn:E1; [done|].
    destruct (eqb_leibniz _ _ (leb_not_ltb _ _ H1 E1)) as [->|(s & s' & _ & Hz)];
      [done|]. by vm_compute in Hz. }
  destruct (0 <? t)%float eqn:E2; [by left|].
  destruct (eqb_leibniz _ _ (leb_not_ltb _ _ H0 E2)) as [<-|(s & s' & _ & Hz)];
    [by left|].
  apply zero_cases in Hz. destruct s'; [right|left]; done.
Qed.

Lemma clamp_int_range x lo hi : lo ≤ hi → lo ≤ Console.clamp_int x lo hi ≤ hi.
Proof. unfold Console.clamp_int. lia. Qed.

Lemma clamp_int_id x lo hi : lo ≤ x ≤ hi → Console.clamp_int x lo hi = x.
Proof. unfold Console.clamp_int. lia. Qed.

(** C6, in the console client.  Whatever the user entered, [main] sends
    the handshake, then the parameters clamped to [0,1], [-127,127],
    [0,255] and [0,255], then the batch request clamped to [1,2000],
    [1,1000] and [0,5000]; nothing is rejected, and a value already in its
    range is sent as it is (a temperature of [-0.0] is sent as [0.0]). *)
Theorem console_parameters_clamped (s : Console.settings) :
  let c := Console.clamp_settings s in
  Console.start s
  = [ HELLO;
      PARAM (Console.PARAM_T c) (Console.PARAM_B c) (Console.PARAM_KP c)
        (Console.PARAM_M c);
      GET (Console.BATCH_K c) (Console.BATCH_STRIDE c) (Console.BATCH_BURN c) ] ∧
  ((0 <=? Console.PARAM_T c)%float = true ∧ (Console.PARAM_T c <=? 1)%float = true ∧
   -127 ≤ Console.PARAM_B c ≤ 127 ∧ 0 ≤ Console.PARAM_KP c ≤ 255 ∧
   0 ≤ Console.PARAM_M c ≤ 255 ∧ 1 ≤ Console.BATCH_K c ≤ 2000 ∧
   1 ≤ Console.BATCH_STRIDE c ≤ 1000 ∧ 0 ≤ Console.BATCH_BURN c ≤ 5000) ∧
  (((0 <=? Console.PARAM_T s)%float = true → (Console.PARAM_T s <=? 1)%float = true →
    Console.PARAM_T c = Console.PARAM_T s ∨
    (Console.PARAM_T s = (-0)%float ∧ Console.PARAM_T c = 0%float)) ∧
   (-127 ≤ Console.PARAM_B s ≤ 127 → Console.PARAM_B c = Console.PARAM_B s) ∧
   (0 ≤ Console.PARAM_KP s ≤ 255 → Console.PARAM_KP c = Console.PARAM_KP s) ∧
   (0 ≤ Console.PARAM_M s ≤ 255 → Console.PARAM_M c = Console.PARAM_M s) ∧
   (1 ≤ Console.BATCH_K s ≤ 2000 → Console.BATCH_K c = Console.BATCH_K s) ∧
   (1 ≤ Console.BATCH_STRIDE s ≤ 1000 →
    Console.BATCH_STRIDE c = Console.BATCH_STRIDE s) ∧
   (0 ≤ Console.BATCH_BURN s ≤ 5000 → Console.BATCH_BURN c = Console.BATCH_BURN s)).
Proof.
  cbv zeta. split; [reflexivity|]. cbn [Console.clamp_settings Console.PARAM_T
    Console.PARAM_B Console.PARAM_KP Console.PARAM_M Console.BATCH_K
    Console.BATCH_STRIDE Console.BATCH_BURN]. split.
  - pose proof (clamp_float_unit_range (Console.PARAM_T s)) as [??].
    repeat split; try done; apply clamp_int_range; lia.
  - split; [apply clamp_float_unit_id|]. repeat split; apply clamp_int_id.
Qed.

(** Values out of every range, and the commands the console client sends
    for them. *)
Lemma console_parameters_clamped_witness :
  Console.start (Console.Settings 4 4 7.5 500 (-3) 256 0 5000 (-1) 1)
  = [HELLO; PARAM 1 127 0 255; GET 1 1000 0].
Proof.
  exact (proj1 (console_parameters_clamped
                  (Console.Settings 4 4 7.5 500 (-3) 256 0 5000 (-1) 1))).
Defined.

(** C6, as stated, fails in the dashboard client: [on_start] writes the
    temperature and the count of the widgets as they are. *)
Lemma dashboard_sends_unclamped :
  (Dashboard.on_start (Dashboard.Gui 5000 7.5 false 0.35 0.05) Dashboard.init).2
  = [HELLO; PARAM 7.5 5 60 1; GET 5000 1 50] ∧
  (7.5 <=? 1)%float = false ∧ ¬ (1 ≤ 5000 ≤ 2000).
Proof. split; [reflexivity|]. split; [reflexivity|lia]. Qed.

(** ** The annealing controller of the dashboard *)

Lemma dashboard_ingest_anneal g st tick sidx bm st' cmds ev :
  Dashboard.ingest g st tick sidx bm = (st', cmds, ev) →
  ∃ st1, Dashboard.anneal g st1 = (st', cmds) ∧
         Dashboard.sample_count st1
         = Dashboard.sample_count st + match ev with Some _ => 1 | None => 0 end ∧
         Dashboard.last_sent_t st1 = Dashboard.last_sent_t st ∧
         Dashboard.batch_k st1 = Dashboard.batch_k st.
Proof.
  intros E%dashboard_ingest_inv. destruct ev as [smp|].
  - destruct E as (_ & _ & _ & _ & Ha). eexists. split; [exact Ha|]. done.
  - destruct E as (_ & [Ha|Ha]); (eexists; split; [exact Ha|]);
      cbn; split; [lia|done| lia|done].
Qed.

(** C9. While the annealing box is ticked, the temperature computed after
    a record is [t_start + (t_end - t_start) * progress], where [progress]
    is [sample_count / batch_k] when the requested count is positive and
    [0] when it is zero or negative (the count of the widget is stored as
    entered); an ["@PARAM"] command is written exactly when the distance of
    that temperature to [last_sent_t] is at least [0.01]; the command then
    carries that temperature with the bias, coupling and mode that
    [on_start] pushed, and [last_sent_t] becomes that temperature;
    otherwise nothing is written and the state is unchanged.  This is the
    controller that runs after every record that was parsed, on the sample
    count updated by it.  The counter and the count are below [2^53] in
    magnitude, where the quotient of their conversions is the quotient
    that Python computes. *)
Theorem anneal_schedule (g : Dashboard.gui) (st : Dashboard.state) :
  Dashboard.anneal_active g = true →
  Z.abs (Dashboard.sample_count st) < 2 ^ 53 → Dashboard.batch_k st < 2 ^ 53 →
  let progress :=
    if 0 <? Dashboard.batch_k st
    then (Py.float_of_int (Dashboard.sample_count st)
          / Py.float_of_int (Dashboard.batch_k st))%float
    else 0%float in
  let t := (Dashboard.t_start g
            + (Dashboard.t_end g - Dashboard.t_start g) * progress)%float in
  let far := (0.01 <=? abs (t - Dashboard.last_sent_t st))%float in
  Dashboard.current_t g st = t ∧
  (far = true →
   Dashboard.anneal g st
   = (Dashboard.set_last_sent_t t st,
      [PARAM t Dashboard.PARAM_B Dashboard.PARAM_KP Dashboard.PARAM_M]) ∧
   Dashboard.last_sent_t (Dashboard.anneal g st).1 = t) ∧
  (far = false → Dashboard.anneal g st = (st, [])) ∧
  (∀ st0, Dashboard.running st0 = false →
     ∃ t0, (Dashboard.on_start g st0).2
           = [HELLO;
              PARAM t0 Dashboard.PARAM_B Dashboard.PARAM_KP Dashboard.PARAM_M;
              GET (Dashboard.k_val g) Dashboard.BATCH_STRIDE Dashboard.BATCH_BURN] ∧
           Dashboard.batch_k (Dashboard.on_start g st0).1 = Dashboard.k_val g) ∧
  (∀ st0 tick sidx bm st' cmds ev,
     Dashboard.ingest g st0 tick sidx bm = (st', cmds, ev) →
     ∃ st1, Dashboard.anneal g st1 = (st', cmds) ∧
            Dashboard.sample_count st1
            = Dashboard.sample_count st0 + match ev with Some _ => 1 | None => 0 end ∧
            Dashboard.last_sent_t st1 = Dashboard.last_sent_t st0 ∧
            Dashboard.batch_k st1 = Dashboard.batch_k st0).
Proof.
  intros Hact _ _ progress t far.
  assert (Dashboard.current_t g st = t) as Ht by reflexivity.
  split; [done|]. split; [|split; [|split]].
  - intros Hfar. unfold Dashboard.anneal. rewrite Hact, Ht. fold far. rewrite Hfar.
    done.
  - intros Hfar. unfold Dashboard.anneal. rewrite Hact, Ht. fold far. by rewrite Hfar.
  - intros st0 Hrun. unfold Dashboard.on_start. rewrite Hrun. by eexists.
  - intros st0 tick sidx bm st' cmds ev. apply dashboard_ingest_anneal.
Qed.

(** Half-way through a batch of 300 with the default schedule, from
    [0.35] to [0.05]: the temperature is [0.2], and it is written because
    [0.25] was the last one sent. *)
Lemma anneal_schedule_witness :
  let g := Dashboard.Gui 300 0.2 true 0.35 0.05 in
  let st := Dashboard.State true [] [] [] [] 0 None 150 ∅ 0.25 300 in
  Dashboard.current_t g st = 0.19999999999999998%float ∧
  Dashboard.anneal g st
  = (Dashboard.set_last_sent_t 0.19999999999999998 st,
     [PARAM 0.19999999999999998 5 60 1]).
Proof.
  cbv zeta.
  destruct (anneal_schedule (Dashboard.Gui 300 0.2 true 0.35 0.05)
              (Dashboard.State true [] [] [] [] 0 None 150 ∅ 0.25 300)
              eq_refl eq_refl eq_refl) as (Ht & Hfar & _).
  split; [exact Ht|]. apply Hfar. reflexivity.
Defined.

(** C9, as stated, fails when the count of the widget is not positive: a
    capture started with [K = -4] and the default schedule scores two
    ticks; the quotient of the claim gives [0.35 + (0.05 - 0.35) * (2 / -4)],
    about [0.5], at a distance of [0.15] from the [0.35] last sent, yet the
    temperature of the controller stays [0.35] and nothing is written. *)
Lemma anneal_nonpositive_count_counterexample :
  let g := Dashboard.Gui (-4) 0.2 true 0.35 0.05 in
  let rs := [(0, 0, 5); (0, 1, 5); (0, 2, 5); (0, 3, 5);
             (1, 0, 5); (1, 1, 5); (1, 2, 5); (1, 3, 5)] in
  let r := Dashboard.ingest_all g (Dashboard.on_start g Dashboard.init).1 rs in
  let st := r.1.1 in
  let claimed := (Dashboard.t_start g
                  + (Dashboard.t_end g - Dashboard.t_start g)
                    * (Py.float_of_int (Dashboard.sample_count st)
                       / Py.float_of_int (Dashboard.batch_k st)))%float in
  (Dashboard.on_start g Dashboard.init).2 = [HELLO; PARAM 0.35 5 60 1; GET (-4) 1 50] ∧
  length r.2 = 2%nat ∧
  Dashboard.sample_count st = 2 ∧ Dashboard.batch_k st = -4 ∧
  Dashboard.last_sent_t st = 0.35%float ∧
  (0.49 <? claimed)%float = true ∧
  (0.01 <=? abs (claimed - Dashboard.last_sent_t st))%float = true ∧
  Dashboard.current_t g st = 0.35%float ∧
  r.1.2 = [] ∧ (Dashboard.anneal g st).2 = [].
Proof. vm_compute. repeat split; reflexivity. Qed.

(** ** The best result *)

(** A running best under the strict comparison of the clients. *)
Section best.
Context {St P : Type} (score : St → float) (kept : St → P).
Context (obs : St → sample → St) (keep : sample → P).

Hypothesis obs_score : ∀ st smp,
  score (obs st smp)
  = if (score st <? s_score smp)%float then s_score smp else score st.

Hypothesis obs_kept : ∀ st smp,
  kept (obs st smp) = if (score st <? s_score smp)%float then keep smp else kept st.

Lemma best_fold st smps :
  is_number (score st) → Forall (λ smp, is_number (s_score smp)) smps →
  let st' := foldl obs st smps in
  is_number (score st') ∧
  (score st <=? score st')%float = true ∧
  Forall (λ smp, (s_score smp <=? score st')%float = true) smps ∧
  ((score st' = score st ∧ kept st' = kept st) ∨
   (∃ pre smp post,
      smps = pre ++ smp :: post ∧
      score st' = s_score smp ∧ kept st' = keep smp ∧
      (score st <? s_score smp)%float = true ∧
      Forall (λ p, (s_score p <? s_score smp)%float = true) pre ∧
      Forall (λ p, (s_score p <=? s_score smp)%float = true) post)).
Proof using obs_score obs_kept.
  intros Hst. induction smps as [|x smps IH] using rev_ind; intros Hnum st'.
  - subst st'. cbn. split; [done|]. split; [by apply leb_refl|].
    split; [constructor|]. by left.
  - apply Forall_app in Hnum as [Hnum Hx]. apply Forall_cons in Hx as [Hx _].
    destruct (IH Hnum) as (Hn1 & Hle1 & Hub1 & Hcase). clear IH.
    subst st'. rewrite foldl_app. cbn [foldl].
    set (st1 := foldl obs st smps) in *.
    rewrite obs_score, obs_kept.
    destruct (score st1 <? s_score x)%float eqn:Hlt.
    + split; [done|]. split; [eapply leb_trans; [exact Hle1|by apply ltb_leb]|].
      split.
      * apply Forall_app. split; [|by repeat constructor; apply leb_refl].
        eapply Forall_impl; [exact Hub1|]. intros p Hp. cbn in Hp |- *.
        apply ltb_leb. by eapply leb_ltb_trans.
      * right. exists smps, x, []. split; [done|]. split; [done|]. split; [done|].
        split; [by eapply leb_ltb_trans|]. split; [|constructor].
        eapply Forall_impl; [exact Hub1|]. intros p Hp. cbn in Hp |- *.
        by eapply leb_ltb_trans.
    + assert ((s_score x <=? score st1)%float = true) as Hxle
        by (by apply not_ltb_leb).
      split; [done|]. split; [done|]. split.
      * apply Forall_app. split; [done|]. by repeat constructor.
      * destruct Hcase as [[Hs Hk]|(pre & smp & post & -> & Hs & Hk & Hlt0 & Hpre & Hpost)].
        -- by left.
        -- right. exists pre, smp, (post ++ [x]).
           split; [by rewrite <- app_assoc|]. split; [done|]. split; [done|].
           split; [done|]. split; [done|]. apply Forall_app. split; [done|].
           repeat constructor. by rewrite <- Hs.
Qed.

Lemma best_changes_only_above st smp :
  (score st <? s_score smp)%float = false →
  score (obs st smp) = score st ∧ kept (obs st smp) = kept st.
Proof using obs_score obs_kept. intros H. by rewrite obs_score, obs_kept, H. Qed.
End best.

Lemma console_observe_best st1 st2 smp :
  console_best st1 = console_best st2 →
  console_best (Console.observe st1 smp) = console_best (Console.observe st2 smp).
Proof.
  unfold console_best, Console.observe. destruct st1, st2. cbn.
  intros [= -> -> ->]. by case_match.
Qed.

Lemma console_fold_best st1 st2 smps :
  console_best st1 = console_best st2 →
  console_best (foldl Console.observe st1 smps)
  = console_best (foldl Console.observe st2 smps).
Proof.
  revert st1 st2. induction smps as [|smp smps IH]; intros st1 st2 H; [done|].
  cbn [foldl]. by apply IH, console_observe_best.
Qed.

(** The best result after a run of the console client is the running best
    over the samples it emitted. *)
Lemma console_run_best cfg rs st st' evs :
  Console.ingest_all cfg st rs = Some (st', evs) →
  console_best st' = console_best (foldl Console.observe st evs).
Proof.
  revert st evs. induction rs as [|[[tick sidx] t] rs IH]; intros st evs.
  - by intros [= <- <-].
  - cbn [Console.ingest_all].
    destruct (Console.ingest cfg st tick sidx t) as [st1 ev| |] eqn:E; [|done..].
    destruct (Console.ingest_all cfg st1 rs) as [[st2 evs']|] eqn:E2; [|done].
    cbn. intros [= <- <-]. rewrite (IH _ _ E2). rewrite foldl_app.
    apply console_fold_best. apply console_ingest_inv in E.
    destruct ev as [smp|].
    + by destruct E as (_ & _ & _ & _ & _ & ->).
    + by destruct E as (_ & [-> | ->]).
Qed.

Lemma dashboard_record_best st1 st2 smp :
  dashboard_best st1 = dashboard_best st2 →
  dashboard_best (Dashboard.record_sample st1 smp)
  = dashboard_best (Dashboard.record_sample st2 smp).
Proof.
  unfold dashboard_best, Dashboard.record_sample. destruct st1, st2. cbn.
  by intros [= -> ->].
Qed.

Lemma dashboard_fold_best st1 st2 smps :
  dashboard_best st1 = dashboard_best st2 →
  dashboard_best (foldl Dashboard.record_sample st1 smps)
  = dashboard_best (foldl Dashboard.record_sample st2 smps).
Proof.
  revert st1 st2. induction smps as [|smp smps IH]; intros st1 st2 H; [done|].
  cbn [foldl]. by apply IH, dashboard_record_best.
Qed.

Lemma dashboard_anneal_best g st st' cmds :
  Dashboard.anneal g st = (st', cmds) → dashboard_best st' = dashboard_best st.
Proof. unfold Dashboard.anneal. repeat case_match; by intros [= <- <-]. Qed.

(** The same for the dashboard. *)
Lemma dashboard_run_best g rs st :
  dashboard_best (Dashboard.ingest_all g st rs).1.1
  = dashboard_best (foldl Dashboard.record_sample st (Dashboard.ingest_all g st rs).2).
Proof.
  revert st. induction rs as [|[[tick sidx] bm] rs IH]; intros st; [done|].
  cbn [Dashboard.ingest_all].
  destruct (Dashboard.ingest g st tick sidx bm) as [[st1 cmds] ev] eqn:E.
  specialize (IH st1).
  destruct (Dashboard.ingest_all g st1 rs) as [[st2 cmds'] evs].
  cbn [fst snd] in *. rewrite IH, foldl_app. apply dashboard_fold_best.
  apply dashboard_ingest_inv in E. destruct ev as [smp|].
  - destruct E as (_ & _ & _ & _ & Ha). by rewrite (dashboard_anneal_best _ _ _ _ Ha).
  - destruct E as (_ & [Ha|Ha]); by rewrite (dashboard_anneal_best _ _ _ _ Ha).
Qed.

(** C2, as the clients behave.  The best result starts at a finite
    sentinel with no bits: [-1e18] in the console client, [0] in the
    dashboard.  A sample replaces it exactly when its score is strictly
    greater; otherwise the best score and what is kept with it stay as they
    are.  After any sequence of samples whose scores are numbers, from any
    state whose best score is a number, the best score has not decreased
    and no sample seen exceeds it; and either no sample exceeded the
    starting score and the best result is the starting one, or the best
    result is a sample that did, with every earlier sample strictly below it
    and every later one at most equal: ties keep the earliest.  The best
    result after a run is this running best over the samples emitted. *)
Theorem best_result_running_maximum :
  (Console.best_score Console.init = (-1e18)%float ∧
   Console.best_bits Console.init = None ∧ Console.best_tick Console.init = None ∧
   Dashboard.best_score Dashboard.init = 0%float ∧
   Dashboard.best_bits Dashboard.init = None) ∧
  (∀ st smp,
     Console.observe st smp
     = if (Console.best_score st <? s_score smp)%float
       then Console.State (Console.tick_buffer st) (s_score smp)
              (Some (s_bits smp)) (Some (s_tick smp))
       else st) ∧
  (∀ st smps,
     is_number (Console.best_score st) →
     Forall (λ smp, is_number (s_score smp)) smps →
     let st' := foldl Console.observe st smps in
     (Console.best_score st <=? Console.best_score st')%float = true ∧
     Forall (λ smp, (s_score smp <=? Console.best_score st')%float = true) smps ∧
     ((Console.best_score st' = Console.best_score st ∧
       Console.best_bits st' = Console.best_bits st ∧
       Console.best_tick st' = Console.best_tick st) ∨
      (∃ pre smp post,
         smps = pre ++ smp :: post ∧
         Console.best_score st' = s_score smp ∧
         Console.best_bits st' = Some (s_bits smp) ∧
         Console.best_tick st' = Some (s_tick smp) ∧
         (Console.best_score st <? s_score smp)%float = true ∧
         Forall (λ p, (s_score p <? s_score smp)%float = true) pre ∧
         Forall (λ p, (s_score p <=? s_score smp)%float = true) post))) ∧
  (∀ st smp,
     (Dashboard.best_score st <? s_score smp)%float = false →
     Dashboard.best_score (Dashboard.record_sample st smp) = Dashboard.best_score st ∧
     Dashboard.best_bits (Dashboard.record_sample st smp) = Dashboard.best_bits st) ∧
  (∀ st smps,
     is_number (Dashboard.best_score st) →
     Forall (λ smp, is_number (s_score smp)) smps →
     let st' := foldl Dashboard.record_sample st smps in
     (Dashboard.best_score st <=? Dashboard.best_score st')%float = true ∧
     Forall (λ smp, (s_score smp <=? Dashboard.best_score st')%float = true) smps ∧
     ((Dashboard.best_score st' = Dashboard.best_score st ∧
       Dashboard.best_bits st' = Dashboard.best_bits st) ∨
      (∃ pre smp post,
         smps = pre ++ smp :: post ∧
         Dashboard.best_score st' = s_score smp ∧
         Dashboard.best_bits st' = Some (Dashboard.bitstr (s_bits smp)) ∧
         (Dashboard.best_score st <? s_score smp)%float = true ∧
         Forall (λ p, (s_score p <? s_score smp)%float = true) pre ∧
         Forall (λ p, (s_score p <=? s_score smp)%float = true) post))) ∧
  (∀ cfg rs st st' evs,
     Console.ingest_all cfg st rs = Some (st', evs) →
     console_best st' = console_best (foldl Console.observe st evs)) ∧
  (∀ g rs st,
     dashboard_best (Dashboard.ingest_all g st rs).1.1
     = dashboard_best
         (foldl Dashboard.record_sample st (Dashboard.ingest_all g st rs).2)).
Proof.
  split; [done|]. split; [done|].
  split; [|split; [|split; [|split; [apply console_run_best|apply dashboard_run_best]]]].
  - intros st smps Hst Hnum.
    destruct (best_fold Console.best_score
                (λ st, (Console.best_bits st, Console.best_tick st))
                Console.observe (λ smp, (Some (s_bits smp), Some (s_tick smp)))
                ltac:(intros s x; unfold Console.observe; by case_match)
                ltac:(intros s x; unfold Console.observe; by case_match)
                st smps Hst Hnum) as (_ & Hle & Hub & Hcase).
    split; [done|]. split; [done|].
    destruct Hcase as [[Hs [= Hb Ht]]|(pre & smp & post & ? & ? & [= Hb Ht] & ?)].
    + by left.
    + right. by exists pre, smp, post.
  - intros st smp H. unfold Dashboard.record_sample. cbn. by rewrite H.
  - intros st smps Hst Hnum.
    destruct (best_fold Dashboard.best_score Dashboard.best_bits
                Dashboard.record_sample (λ smp, Some (Dashboard.bitstr (s_bits smp)))
                ltac:(done) ltac:(done) st smps Hst Hnum) as (_ & Hle & Hub & Hcase).
    done.
Qed.

(** Three samples of scores 2, 6 and 6, for the ticks 1, 2 and 3: the
    best result ends at the first sample of score 6. *)
Lemma best_result_running_maximum_witness :
  let smps := [Sample 1 [0; 1] 2; Sample 2 [1; 0] 6; Sample 3 [1; 1] 6] in
  let st' := foldl Console.observe Console.init smps in
  (Console.best_score Console.init <=? Console.best_score st')%float = true ∧
  Forall (λ smp, (s_score smp <=? Console.best_score st')%float = true) smps ∧
  console_best st' = (6%float, Some [1; 0], Some 2).
Proof.
  cbv zeta.
  destruct best_result_running_maximum as (_ & _ & Hfold & _).
  destruct (Hfold Console.init
              [Sample 1 [0; 1] 2; Sample 2 [1; 0] 6; Sample 3 [1; 1] 6])
    as (Hle & Hub & _).
  - reflexivity.
  - repeat constructor.
  - split; [exact Hle|]. split; [exact Hub|]. reflexivity.
Defined.

(** C2, as stated, fails.  The console client starts at [-1e18], which is
    above minus infinity, so on a ring of weight [-1e18] the sample of
    bits 1, 0 has score [-2e18] and is seen but never kept; and the
    dashboard starts at [0], so a tick of all-zero masks, of score [0], is
    recorded while its bits are not kept as the best. *)
Lemma best_result_sentinel :
  Console.best_score Console.init = (-1e18)%float ∧
  (neg_infinity <? Console.best_score Console.init)%float = true ∧
  (let cfg := Console.Settings 1 2 0.2 5 60 1 300 1 20 (-1e18) in
   (λ r, (r.2, Console.best_score r.1, Console.best_bits r.1))
     <$> Console.ingest_all cfg Console.init [(0, 0, Console.Tuple 1 0 0 0)]
   = Some ([Sample 0 [1; 0] (-2e18)], (-1e18)%float, None)) ∧
  (let r := Dashboard.ingest_all (Dashboard.Gui 300 0.2 false 0.35 0.05) Dashboard.init
              [(7, 0, 0); (7, 1, 0); (7, 2, 0); (7, 3, 0)] in
   r.2 = [Sample 7 [0; 0; 0; 0; 0; 0; 0; 0; 0; 0; 0; 0; 0; 0; 0; 0] 0] ∧
   Dashboard.best_score r.1.1 = 0%float ∧ Dashboard.best_bits r.1.1 = None).
Proof. cbv zeta. repeat split; vm_compute; reflexivity. Qed.

(** * Further properties of the code *)

(** ** Scoring *)

Lemma index_is_Some {A} (a : list A) i :
  is_Some (Py.index a i) ↔ - Z.of_nat (length a) ≤ i < Z.of_nat (length a).
Proof.
  split; [|apply index_in_range].
  unfold Py.index. destruct (0 <=? i) eqn:E0.
  - apply Z.leb_le in E0. intros H%lookup_lt_is_Some. lia.
  - apply Z.leb_gt in E0. destruct (- Z.of_nat (length a) <=? i) eqn:E1.
    + apply Z.leb_le in E1. lia.
    + by intros [? ?].
Qed.

Lemma maxcut_score_from_is_Some bits edges acc :
  is_Some (maxcut_score_from bits edges acc) ↔ Forall (in_range bits) edges.
Proof.
  revert acc. induction edges as [|[[i j] w] edges IH]; intros acc.
  - split; [constructor|by eexists].
  - cbn [maxcut_score_from]. rewrite Forall_cons. unfold in_range at 1. cbn [fst snd].
    rewrite <- !index_is_Some.
    destruct (Py.index bits i) as [bi|]; cbn [mbind option_bind].
    + destruct (Py.index bits j) as [bj|]; cbn [mbind option_bind].
      * rewrite IH. split; [intros ?; repeat split; by eauto|by intros [_ ?]].
      * split; [by intros [? ?]|]. by intros [[_ [? ?]] _].
    + split; [by intros [? ?]|]. by intros [[[? ?] _] _].
Qed.

(** X1. [maxcut_score] returns a score exactly when both endpoints of
    every edge index the bit sequence, from [-len] to [len - 1]; one edge
    outside, anywhere in the list, makes the whole call raise
    [IndexError], also when all the edges before it were added. *)
Theorem maxcut_score_defined_iff (bits : list Z) (edges : list edge) :
  (is_Some (maxcut_score bits edges) ↔ Forall (in_range bits) edges) ∧
  (maxcut_score bits edges = None ↔ Exists (λ e, ¬ in_range bits e) edges).
Proof.
  pose proof (maxcut_score_from_is_Some bits edges 0%float) as H.
  fold (maxcut_score bits edges) in H. split; [done|]. split.
  - intros Hnone. apply not_Forall_Exists; [intros e; unfold in_range; apply _|].
    intros Hall%H. rewrite Hnone in Hall. by destruct Hall.
  - intros Hex%Exists_not_Forall. destruct (maxcut_score bits edges) eqn:E; [|done].
    destruct Hex. apply H. by eexists.
Qed.

Lemma ring_length n w : length (make_ring_edges n w) = Z.to_nat n.
Proof. unfold make_ring_edges. by rewrite length_fmap, range_length. Qed.

Lemma ring_lookup n w i :
  0 ≤ i < n → make_ring_edges n w !! Z.to_nat i = Some (i, (i + 1) `mod` n, w).
Proof.
  intros Hi. unfold make_ring_edges. by rewrite list_lookup_fmap, range_lookup.
Qed.

(** X2. [make_ring_edges(n, w)] has [n] edges (none when [n <= 0]), the
    [i]-th from [i] to [(i + 1) % n] with weight [w]; scoring any [n] bits
    against it never raises, and the score of the clients' graph is
    defined for every assembled sample. *)
Theorem ring_edges_score_defined (n : Z) (w : float) :
  length (make_ring_edges n w) = Z.to_nat n ∧
  (∀ i, 0 ≤ i < n →
     make_ring_edges n w !! Z.to_nat i = Some (i, (i + 1) `mod` n, w)) ∧
  (∀ bits, Z.of_nat (length bits) = n →
     is_Some (maxcut_score bits (make_ring_edges n w))) ∧
  (∀ bits, n ≤ 0 → maxcut_score bits (make_ring_edges n w) = Some 0%float).
Proof.
  split; [apply ring_length|]. split; [intros; by apply ring_lookup|]. split.
  - intros bits Hn. apply ring_score_total. by right.
  - intros bits Hn. by rewrite ring_nil.
Qed.

Lemma land_1_cases x : Z.land x 1 = 0 ∨ Z.land x 1 = 1.
Proof. rewrite land_1_testbit. destruct (Z.testbit x 0); auto. Qed.

Lemma bits_from_bmask_is_bits mask width : is_bits (bits_from_bmask mask width).
Proof.
  unfold is_bits, bits_from_bmask. rewrite Forall_fmap. apply Forall_forall.
  intros i _. apply land_1_cases.
Qed.

Lemma bits_from_bmask_succ mask n :
  bits_from_bmask mask (Z.of_nat (S n))
  = Z.land mask 1 :: bits_from_bmask (Z.shiftr mask 1) (Z.of_nat n).
Proof.
  unfold bits_from_bmask, Py.range. rewrite seqZ_cons by lia.
  rewrite fmap_cons, Z.shiftr_0_r. f_equal.
  replace (Z.pred (Z.of_nat (S n))) with (Z.of_nat n) by lia.
  change (Z.succ 0) with (1 + 0). rewrite <- fmap_add_seqZ, <- list_fmap_compose.
  apply list_fmap_ext. intros _ i Hi%list_elem_of_lookup_2%elem_of_seqZ. cbn.
  by rewrite Z.shiftr_shiftr by lia.
Qed.

Lemma bits_from_bmask_le_value bits :
  is_bits bits → bits_from_bmask (le_value bits) (Z.of_nat (length bits)) = bits.
Proof.
  induction 1 as [|b bits Hb _ IH]; [done|].
  cbn [length]. rewrite bits_from_bmask_succ. cbn [le_value foldr].
  change (foldr _ 0 bits) with (le_value bits). f_equal.
  - change 1 with (Z.ones 1). rewrite Z.land_ones by lia. change (2 ^ 1) with 2.
    replace (b + 2 * le_value bits) with (b + le_value bits * 2) by lia.
    rewrite Z.mod_add by lia. by destruct Hb as [-> | ->].
  - rewrite Z.shiftr_div_pow2 by lia. change (2 ^ 1) with 2.
    replace (b + 2 * le_value bits) with (b + le_value bits * 2) by lia.
    rewrite Z.div_add by lia.
    replace (b `div` 2 + le_value bits) with (le_value bits); [exact IH|].
    destruct Hb as [-> | ->]; change (0 `div` 2) with 0; change (1 `div` 2) with 0; lia.
Qed.

Lemma bits_from_bmask_bit mask width k :
  0 ≤ k < width →
  bits_from_bmask mask width !! Z.to_nat k = Some (Z.b2z (Z.testbit mask k)).
Proof.
  intros Hk. rewrite bits_from_bmask_lookup by done.
  rewrite land_1_testbit, Z.shiftr_spec by lia. by rewrite Z.add_0_l.
Qed.

(** X3. The decoded elements are zeros and ones; decoding the value of a
    bit sequence, over its length, gives the sequence back; and two masks
    decode to the same [width] bits exactly when they agree modulo
    [2^width]: the bits above [width] are ignored. *)
Theorem bits_from_bmask_round_trip :
  (∀ mask width, is_bits (bits_from_bmask mask width)) ∧
  (∀ bits, is_bits bits →
     bits_from_bmask (le_value bits) (Z.of_nat (length bits)) = bits) ∧
  (∀ mask mask' width, 0 ≤ width →
     bits_from_bmask mask width = bits_from_bmask mask' width ↔
     mask `mod` 2 ^ width = mask' `mod` 2 ^ width).
Proof.
  split; [apply bits_from_bmask_is_bits|]. split; [apply bits_from_bmask_le_value|].
  intros mask mask' width Hw. split.
  - intros Heq.
    pose proof (le_value_shift mask 0 (Z.to_nat width) ltac:(lia)) as H1.
    pose proof (le_value_shift mask' 0 (Z.to_nat width) ltac:(lia)) as H2.
    rewrite Z2Nat.id, Z.shiftr_0_r in H1, H2 by done.
    unfold bits_from_bmask, Py.range in Heq. by rewrite <- H1, <- H2, Heq.
  - intros Hmod. apply list_eq. intros i.
    destruct (decide (i < Z.to_nat width)%nat) as [Hi|Hi].
    + rewrite <- (Nat2Z.id i), !bits_from_bmask_bit by lia. do 2 f_equal.
      rewrite <- (Z.mod_pow2_bits_low mask width), <- (Z.mod_pow2_bits_low mask' width)
        by lia. by rewrite Hmod.
    + rewrite !lookup_ge_None_2; [done|rewrite bits_from_bmask_length; lia..].
Qed.

Lemma bits_from_bmask_round_trip_witness :
  is_bits [1; 0; 1; 1] ∧ le_value [1; 0; 1; 1] = 13 ∧
  bits_from_bmask 13 4 = [1; 0; 1; 1] ∧
  bits_from_bmask 29 4 = bits_from_bmask 13 4.
Proof.
  destruct bits_from_bmask_round_trip as (_ & Hrt & Hmod).
  assert (is_bits [1; 0; 1; 1]) as Hb by (repeat constructor; auto).
  split; [exact Hb|]. split; [reflexivity|]. split; [exact (Hrt _ Hb)|].
  apply Hmod; [lia|reflexivity].
Defined.

Lemma unit_sum k :
  (k ≤ 16)%nat → float_sum (replicate k 1%float) = Py.float_of_int (Z.of_nat k).
Proof.
  intros Hk. do 17 (destruct k as [|k]; [vm_compute; reflexivity|]). lia.
Qed.

Lemma unit_sum_number k : (k ≤ 16)%nat → is_number (Py.float_of_int (Z.of_nat k)).
Proof.
  intros Hk. do 17 (destruct k as [|k]; [vm_compute; reflexivity|]). lia.
Qed.

Lemma dashboard_edges_ring : Dashboard.EDGES = make_ring_edges 16 1.
Proof. reflexivity. Qed.

Lemma cut_count_le bits : (cut_count bits ≤ 16)%nat.
Proof.
  unfold cut_count. etrans; [apply filter_length_le|]. by vm_compute.
Qed.

Lemma dashboard_score_count bits :
  length bits = 16%nat →
  maxcut_score bits Dashboard.EDGES
  = Some (Py.float_of_int (Z.of_nat (cut_count bits))).
Proof.
  intros Hlen. unfold maxcut_score. rewrite maxcut_score_from_sum.
  - f_equal. rewrite (cut_weights_uniform bits Dashboard.EDGES 1%float).
    + fold (float_sum (replicate (length (cut_weights bits Dashboard.EDGES)) 1%float)).
      unfold cut_weights. rewrite length_fmap. apply unit_sum, cut_count_le.
    + rewrite dashboard_edges_ring. unfold make_ring_edges.
      rewrite Forall_fmap. by apply Forall_forall.
  - rewrite dashboard_edges_ring. apply ring_in_range. by rewrite Hlen.
Qed.

Lemma is_bits_concat (vec : list (list Z)) : Forall is_bits vec → is_bits (concat vec).
Proof. intros H. unfold is_bits. by apply Forall_concat. Qed.

(** X4. Every sample that the dashboard records has 16 bits, all zeros
    and ones, and its score is the number of ring edges whose endpoint
    bits differ, a whole number from 0 to 16 ([N_BITS]): the sum of unit
    weights is exact here, so the score shown over 16 never exceeds it
    and is never NaN. *)
Theorem dashboard_sample_score_count (g : Dashboard.gui) (st : Dashboard.state)
  (tick sidx bm : Z) (st' : Dashboard.state) (cmds : list command) (smp : sample) :
  Dashboard.ingest g st tick sidx bm = (st', cmds, Some smp) →
  length (s_bits smp) = 16%nat ∧ is_bits (s_bits smp) ∧
  s_score smp = Py.float_of_int (Z.of_nat (cut_count (s_bits smp))) ∧
  (cut_count (s_bits smp) ≤ 16)%nat ∧ is_number (s_score smp).
Proof.
  intros E%dashboard_ingest_inv. destruct E as (_ & _ & (vs & Hvs & Hbits) & Hscore & _).
  assert (length (s_bits smp) = 16%nat) as Hlen.
  { rewrite Hbits, (decoded_length (λ bm : Z, bm) 4 vs).
    by rewrite (mapM_Some_length _ _ _ Hvs). }
  rewrite dashboard_score_count in Hscore by done. injection Hscore as Hscore.
  split; [done|]. split.
  { rewrite Hbits. apply is_bits_concat. rewrite Forall_fmap. apply Forall_forall.
    intros v _. apply bits_from_bmask_is_bits. }
  split; [done|]. split; [apply cut_count_le|].
  rewrite <- Hscore. apply unit_sum_number, cut_count_le.
Qed.

Lemma dashboard_sample_score_count_witness :
  let g := Dashboard.Gui 300 0.2 false 0.35 0.05 in
  let st := (Dashboard.ingest_all g Dashboard.init [(7, 0, 5); (7, 1, 5); (7, 2, 5)]).1.1 in
  let smp := Sample 7 [1; 0; 1; 0; 1; 0; 1; 0; 1; 0; 1; 0; 1; 0; 1; 0] 16 in
  (Dashboard.ingest g st 7 3 5).2 = Some smp ∧
  cut_count (s_bits smp) = 16%nat ∧
  s_score smp = Py.float_of_int (Z.of_nat (cut_count (s_bits smp))).
Proof.
  cbv zeta.
  destruct (Dashboard.ingest (Dashboard.Gui 300 0.2 false 0.35 0.05)
              (Dashboard.ingest_all (Dashboard.Gui 300 0.2 false 0.35 0.05)
                 Dashboard.init [(7, 0, 5); (7, 1, 5); (7, 2, 5)]).1.1 7 3 5)
    as [[st' cmds] ev] eqn:E.
  assert (ev = Some (Sample 7 [1; 0; 1; 0; 1; 0; 1; 0; 1; 0; 1; 0; 1; 0; 1; 0] 16))
    as -> by (apply (f_equal snd) in E; vm_compute in E; by rewrite <- E).
  destruct (dashboard_sample_score_count _ _ _ _ _ _ _ _ E) as (_ & _ & Hs & _).
  split; [reflexivity|]. split; [reflexivity|exact Hs].
Defined.

(** ** The receive path at its edges *)

Lemma range_nonpos n : n ≤ 0 → Py.range n = [].
Proof. intros Hn. unfold Py.range, seqZ. by replace (Z.to_nat n) with 0%nat by lia. Qed.

(** X5. What the number of slaves asked for does to the console client:
    with one or more, a parsed record never raises; with zero, every
    parsed record raises (the [ValueError] of [np.concatenate] on an
    empty list); with a negative number nothing is ever scored, and every
    record reaches the eviction.  A sample has
    [NUM_SLAVES * BITS_PER_SLAVE] bits (none when the width is
    negative). *)
Theorem console_ingest_by_slave_count (cfg : Console.settings) (st : Console.state)
  (tick sidx : Z) (t : Console.tuple) :
  (1 ≤ Console.NUM_SLAVES cfg →
   ∃ st' ev, Console.ingest cfg st tick sidx t = Console.Continue st' ev) ∧
  (Console.NUM_SLAVES cfg = 0 → Console.ingest cfg st tick sidx t = Console.Raise) ∧
  (Console.NUM_SLAVES cfg < 0 →
   Console.ingest cfg st tick sidx t
   = Console.Continue
       (Console.set_buffer (cleanup (store (Console.tick_buffer st) tick sidx t)) st)
       None) ∧
  (∀ st' smp,
     Console.ingest cfg st tick sidx t = Console.Continue st' (Some smp) →
     length (s_bits smp)
     = (Z.to_nat (Console.NUM_SLAVES cfg) * Z.to_nat (Console.BITS_PER_SLAVE cfg))%nat).
Proof.
  split; [apply console_ingest_total|]. split; [|split].
  - intros HN. unfold Console.ingest. cbv zeta. rewrite HN.
    rewrite (proj2 (Z.leb_le 0 _)) by lia. by rewrite range_nonpos.
  - intros HN. unfold Console.ingest. cbv zeta.
    rewrite (proj2 (Z.leb_le _ _)) by lia. rewrite range_nonpos by lia.
    cbn [Console.build_vec length]. by rewrite (proj2 (Z.eqb_neq _ _)) by lia.
  - intros st' smp E%console_ingest_inv.
    destruct E as (_ & _ & _ & (vs & Hvs & ->) & _).
    rewrite (decoded_length Console.bmask), (mapM_Some_length _ _ _ Hvs).
    by rewrite range_length.
Qed.

Lemma console_ingest_by_slave_count_witness :
  ∃ st' ev, Console.ingest Console.defaults Console.init 7 0 (Console.Tuple 5 0 0 0)
            = Console.Continue st' ev.
Proof.
  apply (proj1 (console_ingest_by_slave_count Console.defaults Console.init 7 0
                  (Console.Tuple 5 0 0 0))).
  by vm_compute.
Defined.

(** ** Retention, when it runs *)


(** X6. The eviction leaves a buffer of at most 50 ticks as it is; from a
    larger one it keeps exactly 20 ticks, every one of them greater than
    every tick it removes, and the entries it keeps are unchanged. *)
Theorem eviction_keeps_latest_twenty {V} (tb : gmap Z (gmap Z V)) :
  ((size tb ≤ 50)%nat → cleanup tb = tb) ∧
  ((50 < size tb)%nat →
   size (cleanup tb) = 20%nat ∧
   ∀ old kept, is_Some (tb !! old) → cleanup tb !! old = None →
               is_Some (cleanup tb !! kept) → old < kept) ∧
  (∀ tick entry, cleanup tb !! tick = Some entry → tb !! tick = Some entry).
Proof.
  destruct (cleanup_spec tb) as [Hsmall Hlarge].
  split; [done|]. split; [done|]. intros tick entry. apply cleanup_lookup_Some.
Qed.

Lemma eviction_keeps_latest_twenty_witness :
  let tb : gmap Z (gmap Z Z) :=
    list_to_map ((λ i : nat, (Z.of_nat i, ∅)) <$> seq 0 51) in
  size tb = 51%nat ∧ size (cleanup tb) = 20%nat ∧
  cleanup tb !! 30 = None ∧ cleanup tb !! 31 = Some ∅.
Proof.
  cbv zeta. split; [by vm_compute|].
  destruct (eviction_keeps_latest_twenty
              (list_to_map ((λ i : nat, (Z.of_nat i, ∅)) <$> seq 0 51)
               : gmap Z (gmap Z Z))) as (_ & Hlarge & _).
  destruct Hlarge as [Hsz _]; [by vm_compute|].
  split; [exact Hsz|]. split; vm_compute; reflexivity.
Defined.

Lemma console_ingest_buffer_cases cfg st tick sidx t st' ev :
  Console.ingest cfg st tick sidx t = Console.Continue st' ev →
  let tb := store (Console.tick_buffer st) tick sidx t in
  let n := Z.of_nat (size (entry_after (Console.tick_buffer st) tick sidx t)) in
  (n < Console.NUM_SLAVES cfg ∧ Console.tick_buffer st' = tb ∧ ev = None) ∨
  (Console.NUM_SLAVES cfg ≤ n ∧ Console.tick_buffer st' = cleanup tb).
Proof.
  unfold Console.ingest. cbv zeta. rewrite store_lookup. cbn [default from_option id].
  destruct (Console.NUM_SLAVES cfg <=? _) eqn:Hsz.
  - apply Z.leb_le in Hsz. intros E. right. split; [done|].
    repeat case_match; try done; by injection E as <- <-.
  - apply Z.leb_gt in Hsz. intros [= <- <-]. by left.
Qed.

Lemma dashboard_ingest_buffer_cases g st tick sidx bm st' cmds ev :
  Dashboard.ingest g st tick sidx bm = (st', cmds, ev) →
  let tb := store (Dashboard.tick_buffer st) tick sidx bm in
  let n := Z.of_nat (size (entry_after (Dashboard.tick_buffer st) tick sidx bm)) in
  (n < Dashboard.NUM_SLAVES ∧ Dashboard.tick_buffer st' = tb ∧ ev = None) ∨
  (Dashboard.NUM_SLAVES ≤ n ∧ Dashboard.tick_buffer st' = cleanup tb).
Proof.
  intros E. pose proof (dashboard_ingest_inv _ _ _ _ _ _ _ _ E) as Hinv.
  cbv zeta in Hinv |- *.
  destruct (decide (Z.of_nat (size (entry_after (Dashboard.tick_buffer st) tick sidx bm))
                    < Dashboard.NUM_SLAVES)) as [Hlt|Hge].
  - left. rewrite dashboard_ingest_quiet in E by done.
    destruct (dashboard_then_anneal g
                (Dashboard.set_buffer (store (Dashboard.tick_buffer st) tick sidx bm) st)
                None) as (s1 & c1 & Ht & Ha).
    rewrite Ht in E. injection E as <- <- <-.
    by rewrite (dashboard_anneal_buffer _ _ _ _ Ha).
  - right. split; [lia|]. destruct ev as [smp|].
    + destruct Hinv as (_ & _ & _ & _ & Ha). by rewrite (dashboard_anneal_buffer _ _ _ _ Ha).
    + unfold Dashboard.ingest in E. cbv zeta in E. rewrite store_lookup in E.
      cbn [default from_option id] in E.
      rewrite (proj2 (Z.leb_le _ _)) in E by lia.
      destruct Hinv as (Hnc & _).
      destruct (Z.of_nat (length (Dashboard.build_vec _)) =? Dashboard.NUM_SLAVES)
        eqn:Hlen.
      * exfalso. apply Hnc. apply Z.eqb_eq in Hlen. apply complete_Forall.
        eapply Forall_impl.
        -- apply (omap_length_full
                    (λ s, (λ bm, bits_from_bmask bm 4)
                            <$> entry_after (Dashboard.tick_buffer st) tick sidx bm !! s)).
           fold (Dashboard.build_vec (entry_after (Dashboard.tick_buffer st) tick sidx bm)).
           rewrite range_length. change (Z.to_nat Dashboard.NUM_SLAVES) with 4%nat.
           change Dashboard.NUM_SLAVES with 4 in Hlen. lia.
        -- intros s Hs. cbn in Hs. by apply fmap_is_Some in Hs.
      * destruct (dashboard_then_anneal g
                    (Dashboard.set_buffer
                       (cleanup (store (Dashboard.tick_buffer st) tick sidx bm)) st)
                    None) as (s1 & c1 & Ht & Ha).
        rewrite Ht in E. injection E as <- <-.
        by rewrite (dashboard_anneal_buffer _ _ _ _ Ha).
Qed.




(** ** Ticks that left the buffer *)

Section aggregator_since.
Context {V St : Type} (mask : V → Z) (width n : Z).
Context (buffer : St → gmap Z (gmap Z V)).
Context (step : St → Z → Z → V → option (St * option sample)).

Hypothesis step_buffer : ∀ st tick sidx v st' ev,
  step st tick sidx v = Some (st', ev) →
  buffer st' = store (buffer st) tick sidx v ∨
  buffer st' = cleanup (store (buffer st) tick sidx v).

Hypothesis step_emitted : ∀ st tick sidx v st' smp,
  step st tick sidx v = Some (st', Some smp) →
  s_tick smp = tick ∧
  complete n (entry_after (buffer st) tick sidx v) ∧
  assembled mask width n (entry_after (buffer st) tick sidx v) (s_bits smp).

Lemma steps_units_since tick st rs st' evs pre :
  steps step st rs = Some (st', evs) →
  (∀ entry s, buffer st !! tick = Some entry → is_Some (entry !! s) →
              ∃ v, (tick, s, v) ∈ pre) →
  ∀ smp, smp ∈ evs → s_tick smp = tick →
  ∀ s, 0 ≤ s < n → ∃ v, (tick, s, v) ∈ pre ++ rs.
Proof using step_buffer step_emitted.
  revert st pre evs. induction rs as [|[[tick' sidx] v] rs IH];
    intros st pre evs Hs Hseen smp Hin Htick s Hsn.
  - injection Hs as <- <-. by apply elem_of_nil in Hin.
  - cbn [steps] in Hs.
    destruct (step st tick' sidx v) as [[st1 ev]|] eqn:E; [|done]. cbn in Hs.
    destruct (steps step st1 rs) as [[st2 evs']|] eqn:E2; [|done]. cbn in Hs.
    injection Hs as <- <-.
    assert (∀ entry s, store (buffer st) tick' sidx v !! tick = Some entry →
                       is_Some (entry !! s) →
                       ∃ w, (tick, s, w) ∈ pre ++ [(tick', sidx, v)]) as Hstore.
    { intros entry s' Hl Hs'. destruct (decide (tick' = tick)) as [->|Hne].
      - rewrite store_lookup in Hl. injection Hl as <-. unfold entry_after in Hs'.
        destruct (decide (sidx = s')) as [<-|Hne'].
        + exists v. apply elem_of_app. right. by left.
        + rewrite lookup_insert_ne in Hs' by done.
          destruct (buffer st !! tick) as [e|] eqn:He; cbn [default from_option id] in Hs';
            [|by destruct Hs' as [? Hs']; rewrite lookup_empty in Hs'].
          destruct (Hseen e s' eq_refl Hs') as [w Hw].
          exists w. apply elem_of_app. by left.
      - rewrite store_lookup_ne in Hl by done.
        destruct (Hseen entry s' Hl Hs') as [w Hw]. exists w. apply elem_of_app. by left. }
    apply elem_of_app in Hin as [Hin|Hin].
    + destruct ev as [smp'|]; [|by apply elem_of_nil in Hin].
      apply list_elem_of_singleton in Hin as <-.
      destruct (step_emitted _ _ _ _ _ _ E) as (Ht & Hc & _).
      rewrite Htick in Ht. subst tick'.
      destruct (Hstore _ s (store_lookup _ _ _ _) (Hc s Hsn)) as [w Hw].
      exists w. apply elem_of_app in Hw as [Hw|Hw%list_elem_of_singleton].
      * apply elem_of_app. by left.
      * apply elem_of_app. right. rewrite Hw. by left.
    + destruct (IH st1 (pre ++ [(tick', sidx, v)]) evs' E2) with (smp := smp) (s := s)
        as [w Hw]; try done.
      * intros entry s' Hl. apply Hstore.
        destruct (step_buffer _ _ _ _ _ _ E) as [Hb|Hb]; rewrite Hb in Hl;
          [done|by apply cleanup_lookup_Some].
      * exists w. by rewrite <- app_assoc in Hw.
Qed.
End aggregator_since.

(** X8. A tick that is not in the buffer, because it was never seen or
    because it was evicted, is scored later only if every slave index
    below [NUM_SLAVES] is recorded for it from then on: what was received
    for it before the eviction is lost, and the remaining records alone
    never complete it. *)
Theorem absent_tick_needs_all_slaves_again (cfg : Console.settings)
  (g : Dashboard.gui) (tick : Z) :
  (∀ st rs st' evs smp s,
     Console.tick_buffer st !! tick = None →
     Console.ingest_all cfg st rs = Some (st', evs) →
     smp ∈ evs → s_tick smp = tick → 0 ≤ s < Console.NUM_SLAVES cfg →
     ∃ t, (tick, s, t) ∈ rs) ∧
  (∀ st rs smp s,
     Dashboard.tick_buffer st !! tick = None →
     smp ∈ (Dashboard.ingest_all g st rs).2 → s_tick smp = tick →
     0 ≤ s < Dashboard.NUM_SLAVES →
     ∃ bm, (tick, s, bm) ∈ rs).
Proof.
  split.
  - intros st rs st' evs smp s Hnone E Hin Ht Hs.
    rewrite console_ingest_all_steps in E.
    apply (steps_units_since Console.bmask (Console.BITS_PER_SLAVE cfg)
             (Console.NUM_SLAVES cfg) Console.tick_buffer (console_step cfg)
             (console_step_buffer cfg) (console_step_emitted cfg)
             tick st rs st' evs [] E) with (smp := smp); try done.
    intros entry s' Hl. by rewrite Hnone in Hl.
  - intros st rs smp s Hnone Hin Ht Hs.
    apply (steps_units_since (λ bm : Z, bm) 4 Dashboard.NUM_SLAVES
             Dashboard.tick_buffer (dashboard_step g)
             (dashboard_step_buffer g) (dashboard_step_emitted g)
             tick st rs _ _ [] (dashboard_ingest_all_steps g rs st)) with (smp := smp);
      try done.
    intros entry s' Hl. by rewrite Hnone in Hl.
Qed.

(** Slaves 0 and 1 of tick 0 report, fifty more ticks complete and tick 0
    is evicted; slaves 2 and 3 of tick 0 then arrive: no sample for
    tick 0. *)
Example evicted_tick_does_not_complete :
  let t := Console.Tuple 0 0 0 0 in
  let full (i : nat) := (λ u : nat, (Z.of_nat i, Z.of_nat u, t)) <$> seq 0 4 in
  let rs := [(0, 0, t); (0, 1, t)] ++ mjoin (full <$> seq 1 50)
            ++ [(0, 2, t); (0, 3, t)] in
  (λ r, (length r.2, of_tick 0 r.2, size (Console.tick_buffer r.1)))
    <$> Console.ingest_all Console.defaults Console.init rs
  = Some (50%nat, [], 21%nat).
Proof. vm_compute. reflexivity. Qed.

(** ** Storing a record *)

(** X9. Storing a record makes it the one found under its tick and slave
    index, replacing an earlier record of that slave for that tick (the
    last write wins), and leaves every other slave and tick as it was;
    the number of tracked ticks grows by one exactly when the tick is
    new. *)
Theorem store_last_write_wins {V} (tb : gmap Z (gmap Z V)) (tick sidx : Z) (v : V) :
  store tb tick sidx v !! tick ≫= (λ entry, entry !! sidx) = Some v ∧
  (∀ tick' sidx', (tick', sidx') ≠ (tick, sidx) →
     store tb tick sidx v !! tick' ≫= (λ entry, entry !! sidx')
     = tb !! tick' ≫= (λ entry, entry !! sidx')) ∧
  (∀ v', store (store tb tick sidx v) tick sidx v' = store tb tick sidx v') ∧
  size (store tb tick sidx v)
  = (match tb !! tick with Some _ => size tb | None => S (size tb) end).
Proof.
  split; [|split; [|split]].
  - rewrite store_lookup. cbn. unfold entry_after. by rewrite lookup_insert_eq.
  - intros tick' sidx' Hne. destruct (decide (tick = tick')) as [<-|Ht].
    + rewrite store_lookup. cbn. unfold entry_after.
      rewrite lookup_insert_ne by congruence.
      destruct (tb !! tick); [done|]. cbn. by rewrite lookup_empty.
    + by rewrite store_lookup_ne.
  - intros v'. unfold store. rewrite lookup_insert_eq. cbn.
    by rewrite insert_insert_eq, insert_insert_eq.
  - unfold store. destruct (tb !! tick) as [e|] eqn:E.
    + rewrite map_size_insert_Some; [done|by eexists].
    + by rewrite map_size_insert_None.
Qed.

(** ** The bookkeeping of the dashboard *)

Lemma dashboard_anneal_shape g st st' cmds :
  Dashboard.anneal g st = (st', cmds) →
  st' = Dashboard.set_last_sent_t (Dashboard.last_sent_t st') st.
Proof.
  unfold Dashboard.anneal. repeat case_match; intros [= <- <-]; by destruct st.
Qed.

Lemma dashboard_ingest_shape g st tick sidx bm st' cmds ev :
  Dashboard.ingest g st tick sidx bm = (st', cmds, ev) →
  ∃ tb t, st' = Dashboard.set_last_sent_t t
                  (Dashboard.set_buffer tb
                     (from_option (Dashboard.record_sample st) st ev)).
Proof.
  intros E%dashboard_ingest_inv. destruct ev as [smp|].
  - destruct E as (_ & _ & _ & _ & Ha%dashboard_anneal_shape). by eexists _, _.
  - destruct E as (_ & [Ha%dashboard_anneal_shape|Ha%dashboard_anneal_shape]);
      by eexists _, _.
Qed.

(** X10. The log that [on_save] writes holds exactly the samples that
    were scored, in the order of their completion and after the rows
    already logged: one row (tick, score, bit string) per sample, with one
    more score for the histogram, one more tick for the evolution plot and
    the counter one higher; reading records never changes [running] or
    the batch size. *)
Theorem dashboard_log_matches_emitted (g : Dashboard.gui) (st : Dashboard.state)
  (rs : list (Z * Z * Z)) :
  let st' := (Dashboard.ingest_all g st rs).1.1 in
  let evs := (Dashboard.ingest_all g st rs).2 in
  Dashboard.all_samples st' = Dashboard.all_samples st ++ (logged <$> evs) ∧
  Dashboard.all_scores st' = Dashboard.all_scores st ++ (s_score <$> evs) ∧
  Dashboard.best_history_x st' = Dashboard.best_history_x st ++ (s_tick <$> evs) ∧
  length (Dashboard.best_history_y st')
  = (length (Dashboard.best_history_y st) + length evs)%nat ∧
  Dashboard.sample_count st' = Dashboard.sample_count st + Z.of_nat (length evs) ∧
  Dashboard.running st' = Dashboard.running st ∧
  Dashboard.batch_k st' = Dashboard.batch_k st.
Proof.
  revert st. induction rs as [|[[tick sidx] bm] rs IH]; intros st.
  - cbn. rewrite !app_nil_r. repeat split; lia.
  - cbn [Dashboard.ingest_all].
    destruct (Dashboard.ingest g st tick sidx bm) as [[st1 cmds] ev] eqn:E.
    specialize (IH st1).
    destruct (Dashboard.ingest_all g st1 rs) as [[st2 cmds'] evs].
    cbn [fst snd] in *. destruct IH as (H1 & H2 & H3 & H4 & H5 & H6 & H7).
    rewrite H1, H2, H3, H4, H5, H6, H7.
    apply dashboard_ingest_shape in E as (tb & t & ->).
    destruct ev as [smp|]; cbn; rewrite ?length_app, <- ?app_assoc; cbn;
      repeat split; lia.
Qed.

Lemma nondecreasing_snoc ys y :
  nondecreasing ys → is_number y →
  (∀ a, a ∈ ys → (a <=? y)%float = true) →
  nondecreasing (ys ++ [y]).
Proof.
  intros Hys Hy Hle i j a b Hij Ha Hb.
  apply lookup_snoc_Some in Hb as [[Hj Hb]|[Hj <-]].
  - rewrite lookup_app_l in Ha by lia. by apply (Hys i j).
  - apply lookup_snoc_Some in Ha as [[Hi Ha]|[Hi <-]].
    + apply Hle. by eapply list_elem_of_lookup_2.
    + by apply leb_refl.
Qed.

Lemma nondecreasing_last ys y a :
  nondecreasing ys → last ys = Some y → a ∈ ys → (a <=? y)%float = true.
Proof.
  intros Hys Hlast [i Hi]%list_elem_of_lookup_1.
  rewrite last_lookup in Hlast.
  apply (Hys i (pred (length ys))); [|done..].
  apply lookup_lt_Some in Hi. lia.
Qed.

Lemma record_sample_consistent st smp :
  is_number (s_score smp) → consistent st →
  consistent (Dashboard.record_sample st smp).
Proof.
  intros Hn (Hc & Hs & Hx & Hl & Hnd & Hb & Hlast).
  unfold consistent, Dashboard.record_sample. cbn.
  set (best := if (Dashboard.best_score st <? s_score smp)%float
               then s_score smp else Dashboard.best_score st).
  assert (is_number best) as Hbest by (unfold best; by case_match).
  assert ((Dashboard.best_score st <=? best)%float = true) as Hle.
  { unfold best. destruct (_ <? _)%float eqn:E; [by apply ltb_leb|by apply leb_refl]. }
  rewrite !length_app, !fmap_app, Hs, Hx, Hl, Hc. cbn.
  repeat split; try done; try lia.
  - apply nondecreasing_snoc; [done..|]. intros a Ha.
    destruct Hlast as [Hnil|Hlast].
    + rewrite Hnil in Hl. destruct (Dashboard.best_history_y st); [|done].
      by apply elem_of_nil in Ha.
    + eapply leb_trans; [|exact Hle]. by eapply nondecreasing_last.
  - right. by rewrite last_snoc.
Qed.

Lemma set_fields_consistent st tb t :
  consistent st →
  consistent (Dashboard.set_last_sent_t t (Dashboard.set_buffer tb st)).
Proof. done. Qed.

(** X11. The bookkeeping stays consistent over any sequence of records:
    the counter equals the number of logged samples, the histogram scores
    and the ticks of the evolution plot are those of the log, the
    best-so-far series has one point per sample, never goes down and ends
    at the best score, which is a number.  It holds at start-up and after
    [on_clear]. *)
Theorem dashboard_bookkeeping_consistent (g : Dashboard.gui) (st : Dashboard.state)
  (rs : list (Z * Z * Z)) :
  consistent st →
  consistent (Dashboard.ingest_all g st rs).1.1 ∧
  consistent Dashboard.init ∧ consistent (Dashboard.on_clear st).
Proof.
  intros Hst. split; [|split].
  - revert st Hst. induction rs as [|[[tick sidx] bm] rs IH]; intros st Hst; [done|].
    cbn [Dashboard.ingest_all].
    destruct (Dashboard.ingest g st tick sidx bm) as [[st1 cmds] ev] eqn:E.
    specialize (IH st1).
    destruct (Dashboard.ingest_all g st1 rs) as [[st2 cmds'] evs].
    cbn [fst snd] in *. apply IH.
    destruct (dashboard_ingest_shape _ _ _ _ _ _ _ _ E) as (tb & t & ->).
    apply set_fields_consistent. destruct ev as [smp|]; [|done]. cbn.
    apply record_sample_consistent; [|done].
    apply dashboard_ingest_inv in E as (_ & _ & (vs & Hvs & Hbits) & Hscore & _).
    rewrite dashboard_score_count in Hscore.
    + injection Hscore as <-. apply unit_sum_number, cut_count_le.
    + rewrite Hbits, (decoded_length (λ bm : Z, bm) 4 vs).
      by rewrite (mapM_Some_length _ _ _ Hvs).
  - unfold consistent. cbn. repeat split; try done. by left.
  - unfold consistent. cbn. repeat split; try done. by left.
Qed.

(** Two ticks from start-up, the second scoring lower than the first. *)
Lemma dashboard_bookkeeping_consistent_witness :
  let g := Dashboard.Gui 300 0.2 true 0.35 0.05 in
  let rs := [(0, 0, 5); (0, 1, 5); (0, 2, 5); (0, 3, 5);
             (1, 0, 0); (1, 1, 1); (1, 2, 0); (1, 3, 0)] in
  Dashboard.best_history_y (Dashboard.ingest_all g Dashboard.init rs).1.1
  = [16%float; 16%float] ∧
  consistent (Dashboard.ingest_all g Dashboard.init rs).1.1.
Proof.
  split; [vm_compute; reflexivity|].
  refine (proj1 (dashboard_bookkeeping_consistent _ Dashboard.init _ _)).
  unfold consistent. cbn. repeat split; try done. by left.
Defined.

(** ** The callbacks of the dashboard *)

(** X12. [on_restart] always starts a fresh capture (when the port
    opens): whatever the state, it writes ["@HELLO"], the ["@PARAM"] of
    the initial temperature and the ["@GET"] of the requested count, and
    leaves a running dashboard with an empty log, an empty buffer, the
    counter at zero and consistent bookkeeping.  [on_start] alone does
    nothing on a dashboard that is running, so a second click on Start
    writes nothing. *)
Theorem restart_starts_fresh_capture (g : Dashboard.gui) (st : Dashboard.state) :
  let t0 := if Dashboard.anneal_active g then Dashboard.t_start g
            else Dashboard.t_val g in
  let st' := (Dashboard.on_restart g st).1 in
  (Dashboard.on_restart g st).2
  = [HELLO; PARAM t0 5 60 1; GET (Dashboard.k_val g) 1 50] ∧
  Dashboard.running st' = true ∧
  Dashboard.all_samples st' = [] ∧ Dashboard.tick_buffer st' = ∅ ∧
  Dashboard.sample_count st' = 0 ∧ dashboard_best st' = (0%float, None) ∧
  Dashboard.last_sent_t st' = t0 ∧ Dashboard.batch_k st' = Dashboard.k_val g ∧
  consistent st' ∧
  (Dashboard.running st = true → Dashboard.on_start g st = (st, [])) ∧
  (∀ g', Dashboard.on_start g' (Dashboard.on_start g st).1
         = ((Dashboard.on_start g st).1, [])).
Proof.
  cbv zeta. unfold Dashboard.on_restart, Dashboard.on_start at 1 2 3 4 5 6 7 8 9.
  cbn. repeat split; try done.
  - by left.
  - intros Hrun. unfold Dashboard.on_start. by rewrite Hrun.
  - intros g'. unfold Dashboard.on_start. destruct (Dashboard.running st) eqn:E; cbn.
    + by rewrite E.
    + done.
Qed.

(** ** The receive loops, line by line *)





Lemma dashboard_process_line_decode `{Py.Builtins} g st line :
  Py.startswith line "@DONE" = false →
  Dashboard.process_line g st line
  = match dashboard_decode line with
    | Some (tick, sidx, bm) => Dashboard.ingest g st tick sidx bm
    | None => (st, [], None)
    end.
Proof.
  intros Hd. unfold Dashboard.process_line, dashboard_decode. rewrite Hd.
  destruct (Py.startswith line "O,"); [|done]. cbv zeta.
  destruct (7 <=? length (Py.split "," line))%nat; [|done].
  destruct (Py.split "," line !! 1%nat ≫= Py.int_of_str); [|done].
  destruct (Py.split "," line !! 2%nat ≫= Py.int_of_str); [|done].
  destruct (Py.split "," line !! 3%nat ≫= Py.int_of_str); done.
Qed.


(** X14. [update] of the dashboard does nothing unless a capture is
    running; otherwise it does to the waiting lines what the scoring path
    does to the records decoded from those before the first ["@DONE"]
    (data lines with at least seven fields whose tick, slave index and
    mask parse), and it clears [running] exactly when a ["@DONE"] line was
    read; the lines after it stay unread. *)
Theorem dashboard_update_by_records `{Py.Builtins} (g : Dashboard.gui)
  (st : Dashboard.state) (lines : list string) :
  Dashboard.update g st lines
  = if Dashboard.running st then
      let r := Dashboard.ingest_all g st (omap dashboard_decode (until_done lines)) in
      (if has_done lines then Dashboard.set_running false r.1.1 else r.1.1,
       r.1.2, r.2)
    else (st, [], []).
Proof.
  unfold Dashboard.update. destruct (Dashboard.running st); [|done]. cbv zeta.
  revert st. induction lines as [|line lines IH]; intros st; [done|].
  cbn [Dashboard.update_loop until_done has_done existsb].
  destruct (Py.startswith line "@DONE") eqn:Hd.
  { unfold Dashboard.process_line. by rewrite Hd. }
  rewrite dashboard_process_line_decode by done. cbn [omap list_omap orb].
  destruct (dashboard_decode line) as [[[tick sidx] bm]|].
  - cbn [Dashboard.ingest_all].
    destruct (Dashboard.ingest g st tick sidx bm) as [[st1 cmds] ev].
    rewrite IH.
    by destruct (Dashboard.ingest_all g st1 (omap dashboard_decode (until_done lines)))
      as [[st2 cmds'] evs].
  - rewrite IH.
    by destruct (Dashboard.ingest_all g st (omap dashboard_decode (until_done lines)))
      as [[st2 cmds'] evs].
Qed.

(** ** The commands written while receiving *)










(** ** The clamping helpers *)

Lemma ltb_nan_l x y : is_nan x = true → (x <? y)%float = false.
Proof.
  intros Hx. destruct (x <? y)%float eqn:E; [|done].
  apply ltb_fcmp, fcmp_number in E as [E _]. unfold is_number in E. congruence.
Qed.

Lemma ltb_asym a b : (a <? b)%float = true → (b <? a)%float = false.
Proof.
  intros H. destruct (b <? a)%float eqn:E; [|done].
  apply ltb_fcmp in H, E. rewrite (fcmp_sym a b), H in E. done.
Qed.

Lemma eqb_trans a b c :
  (a =? b)%float = true → (b =? c)%float = true → (a =? c)%float = true.
Proof.
  rewrite !eqb_fcmp. unfold fcmp. intros H1 H2. by rewrite (SFcompare_Eq_l _ _ _ H1).
Qed.

Lemma eqb_refl a : is_number a → (a =? a)%float = true.
Proof. intros H. by apply eqb_fcmp, is_number_fcmp. Qed.

(** X16. [clamp_int] returns the point of [[lo, hi]] nearest to its
    argument: it is idempotent, monotone and the identity on the range.
    [clamp_float] sends what is below [lo] to [lo], what is above [hi]
    and NaN to [hi], and returns a value equal to its argument inside
    the range (a zero may change its sign). *)
Theorem clamp_nearest_in_range (lo hi : Z) (flo fhi : float) :
  lo ≤ hi → (flo <? fhi)%float = true →
  (∀ x, lo ≤ Console.clamp_int x lo hi ≤ hi ∧
        (∀ y, lo ≤ y ≤ hi →
              Z.abs (Console.clamp_int x lo hi - x) ≤ Z.abs (y - x)) ∧
        Console.clamp_int (Console.clamp_int x lo hi) lo hi
        = Console.clamp_int x lo hi ∧
        (∀ x', x ≤ x' → Console.clamp_int x lo hi ≤ Console.clamp_int x' lo hi)) ∧
  (∀ x, ((x <? flo)%float = true → Console.clamp_float x flo fhi = flo) ∧
        ((fhi <? x)%float = true → Console.clamp_float x flo fhi = fhi) ∧
        (is_nan x = true → Console.clamp_float x flo fhi = fhi) ∧
        ((flo <=? x)%float = true → (x <=? fhi)%float = true →
         (Console.clamp_float x flo fhi =? x)%float = true)).
Proof.
  intros Hlo Hflo. split.
  - intros x. unfold Console.clamp_int. repeat split; intros; lia.
  - intros x. unfold Console.clamp_float, Py.max_float, Py.min_float.
    split; [|split; [|split]].
    + intros Hx. rewrite (ltb_leb_trans _ _ _ Hx (ltb_leb _ _ Hflo)).
      by rewrite (ltb_asym _ _ Hx).
    + intros Hx. by rewrite (ltb_asym _ _ Hx), Hflo.
    + intros Hx. by rewrite (ltb_nan_l _ _ Hx), Hflo.
    + intros H1 H2.
      assert (is_number x) as Hn.
      { apply leb_fcmp in H1. by destruct H1 as [[_ ?]%fcmp_number|[_ ?]%fcmp_number]. }
      destruct (x <? fhi)%float eqn:E1.
      * destruct (flo <? x)%float eqn:E2; [by apply eqb_refl|].
        by apply leb_not_ltb.
      * rewrite Hflo. by apply eqb_sym, leb_not_ltb.
Qed.

(** The bias range and the temperature range of [main]. *)
Lemma clamp_nearest_in_range_witness :
  Console.clamp_int 300 (-127) 127 = 127 ∧
  Console.clamp_float nan 0 1 = 1%float ∧
  Console.clamp_int (Console.clamp_int (-500) (-127) 127) (-127) 127
  = Console.clamp_int (-500) (-127) 127.
Proof.
  destruct (clamp_nearest_in_range (-127) 127 0 1) as [Hi Hf]; [lia|reflexivity|].
  split; [reflexivity|]. split.
  - by apply (Hf nan).
  - apply (Hi (-500)).
Defined.

(** ** The batch header *)

Lemma append_cons c a b : String c a +:+ b = String c (a +:+ b).
Proof. reflexivity. Qed.

Lemma lacks_app x a b : lacks x (a +:+ b) = lacks x a && lacks x b.
Proof.
  induction a as [|c a IH]; [done|]. rewrite append_cons. cbn [lacks].
  by rewrite IH, andb_assoc.
Qed.

Lemma remove_from_lacks old s :
  lacks "@" s = true → Py.remove_from (String "@" old) 0 s = s.
Proof.
  induction s as [|c s IH]; [done|]. cbn [lacks]. intros [Hc Hs]%andb_true_iff.
  cbn [Py.remove_from String.prefix].
  destruct (ascii_dec "@" c) as [<-|_]; [done|]. by rewrite IH.
Qed.

Lemma remove_from_match old c s :
  String.prefix old (String c s) = true →
  Py.remove_from old 0 (String c s) = Py.remove_from old (String.length old - 1) s.
Proof. intros H. cbn [Py.remove_from]. by rewrite H. Qed.

Lemma remove_from_skip old k c s :
  Py.remove_from old (S k) (String c s) = Py.remove_from old k s.
Proof. reflexivity. Qed.

Lemma remove_batch_tag s :
  lacks "@" s = true → Py.remove ("@BATCH" +:+ s) "@BATCH" = s.
Proof.
  intros Hs. rewrite !append_cons. change ("" +:+ s) with s. unfold Py.remove.
  rewrite remove_from_match.
  - change (String.length "@BATCH" - 1)%nat with 5%nat.
    rewrite !remove_from_skip. by apply remove_from_lacks.
  - cbn [String.prefix]. repeat (destruct ascii_dec; [|done]). by destruct s.
Qed.

Lemma no_space_app a b : no_space (a +:+ b) = no_space a && no_space b.
Proof.
  induction a as [|c a IH]; [done|]. rewrite append_cons. cbn [no_space].
  by rewrite IH, andb_assoc.
Qed.

Lemma append_empty_r s : s +:+ "" = s.
Proof. induction s as [|c s IH]; [done|]. by rewrite append_cons, IH. Qed.

Lemma rstrip_no_space s : no_space s = true → Py.rstrip s = s.
Proof.
  induction s as [|c s IH]; [done|]. cbn [no_space]. intros [Hc Hs]%andb_true_iff.
  cbn [Py.rstrip]. rewrite (IH Hs). apply negb_true_iff in Hc. rewrite Hc.
  by destruct s.
Qed.

Lemma lstrip_no_space s : no_space s = true → Py.lstrip s = s.
Proof.
  destruct s as [|c s]; [done|]. cbn [no_space Py.lstrip].
  intros [Hc _]%andb_true_iff. apply negb_true_iff in Hc. by rewrite Hc.
Qed.

Lemma strip_no_space s : no_space s = true → Py.strip s = s.
Proof. intros Hs. unfold Py.strip. by rewrite lstrip_no_space, rstrip_no_space. Qed.

Lemma rstrip_app a b :
  b ≠ EmptyString → Py.rstrip b = b → Py.rstrip (a +:+ b) = a +:+ b.
Proof.
  intros Hne Hb. induction a as [|c a IH]; [done|].
  rewrite append_cons. cbn [Py.rstrip]. rewrite IH.
  destruct (a +:+ b) eqn:E; [|done]. by destruct a, b.
Qed.

Lemma token_no_space kv :
  clean_key kv.1 = true → clean_value kv.2 = true → no_space (token kv) = true.
Proof.
  unfold clean_key, clean_value, token.
  intros [[Hk _]%andb_true_iff _]%andb_true_iff [Hv _]%andb_true_iff.
  rewrite no_space_app, Hk. cbn [no_space andb]. by rewrite Hv.
Qed.

Lemma token_lacks kv :
  clean_key kv.1 = true → clean_value kv.2 = true → lacks "@" (token kv) = true.
Proof.
  unfold clean_key, clean_value, token.
  intros [_ Hk]%andb_true_iff [_ Hv]%andb_true_iff.
  rewrite lacks_app, Hk. cbn [lacks andb]. by rewrite Hv.
Qed.

Lemma token_nonempty kv : token kv ≠ EmptyString.
Proof. unfold token. by destruct kv.1. Qed.

Lemma fields_lacks kvs : Forall clean kvs → lacks "@" (fields kvs) = true.
Proof.
  induction 1 as [|kv kvs [Hk Hv] _ IH]; [done|].
  cbn [fields lacks]. by rewrite lacks_app, token_lacks, IH.
Qed.

Lemma rstrip_fields kvs : Forall clean kvs → Py.rstrip (fields kvs) = fields kvs.
Proof.
  induction 1 as [|kv kvs [Hk Hv] _ IH]; [done|].
  change (fields (kv :: kvs)) with (" " +:+ (token kv +:+ fields kvs)).
  apply rstrip_app.
  - pose proof (token_nonempty kv). by destruct (token kv).
  - destruct kvs as [|kv' kvs].
    + cbn [fields]. rewrite append_empty_r.
      by apply rstrip_no_space, token_no_space.
    + by apply rstrip_app.
Qed.

Lemma lstrip_token kv s :
  clean kv → Py.lstrip (token kv +:+ s) = token kv +:+ s.
Proof.
  intros [Hk Hv]. pose proof (token_no_space kv Hk Hv) as Hn.
  pose proof (token_nonempty kv) as He.
  destruct (token kv) as [|c t]; [done|]. cbn [no_space] in Hn.
  apply andb_true_iff in Hn as [Hc%negb_true_iff _].
  rewrite append_cons. cbn [Py.lstrip]. by rewrite Hc.
Qed.

Lemma split_from_no_space w s :
  no_space w = true →
  Py.split_whitespace_from (w +:+ s)
  = ((w +:+ (Py.split_whitespace_from s).1), (Py.split_whitespace_from s).2).
Proof.
  induction w as [|c w IH]; intros Hw.
  - change ("" +:+ s) with s. change ("" +:+ (Py.split_whitespace_from s).1)
      with (Py.split_whitespace_from s).1.
    by destruct (Py.split_whitespace_from s).
  - cbn [no_space] in Hw. apply andb_true_iff in Hw as [Hc%negb_true_iff Hw].
    rewrite append_cons. cbn [Py.split_whitespace_from]. rewrite (IH Hw), Hc. done.
Qed.

Lemma split_from_fields kvs :
  Forall clean kvs →
  Py.split_whitespace_from (fields kvs) = (EmptyString, token <$> kvs).
Proof.
  induction 1 as [|kv kvs [Hk Hv] _ IH]; [done|].
  cbn [fields Py.split_whitespace_from].
  rewrite split_from_no_space by (by apply token_no_space). rewrite IH.
  cbn [fst snd]. change (Py.isspace " ") with true. cbn iota.
  rewrite append_empty_r. cbn [fmap list_fmap].
  pose proof (token_nonempty kv). by destruct (token kv).
Qed.

Lemma words_of_header kvs :
  Forall clean kvs →
  Py.split_whitespace (Py.strip (Py.remove (batch_header kvs) "@BATCH"))
  = token <$> kvs.
Proof.
  intros Hc. unfold batch_header.
  rewrite remove_batch_tag by (by apply fields_lacks).
  destruct Hc as [|kv kvs Hkv Hc]; [done|].
  unfold Py.strip. cbn [fields Py.lstrip]. change (Py.isspace " ") with true. cbn iota.
  rewrite lstrip_token by done.
  assert (Py.rstrip (token kv +:+ fields kvs) = token kv +:+ fields kvs) as ->.
  { destruct kvs as [|kv' kvs].
    - cbn [fields]. rewrite append_empty_r.
      destruct Hkv. by apply rstrip_no_space, token_no_space.
    - apply rstrip_app; [done|]. by apply rstrip_fields. }
  unfold Py.split_whitespace.
  destruct Hkv as [Hk Hv].
  rewrite split_from_no_space by (by apply token_no_space).
  rewrite split_from_fields by done. cbn [fst snd].
  rewrite append_empty_r. cbn [fmap list_fmap].
  pose proof (token_nonempty kv). by destruct (token kv).
Qed.

Lemma cut_token kv :
  clean kv → Py.cut "=" (token kv) = Some (kv.1, kv.2).
Proof.
  intros [Hk _]. unfold clean_key in Hk.
  apply andb_true_iff in Hk as [[_ Hk]%andb_true_iff _].
  unfold token. induction kv.1 as [|c k IH].
  - done.
  - cbn [lacks] in Hk. apply andb_true_iff in Hk as [Hc%negb_true_iff Hk].
    rewrite append_cons. cbn [Py.cut]. rewrite Hc, (IH Hk). done.
Qed.

Lemma dict_set_fresh k v d :
  k ∉ d.*1 → Py.dict_set k v d = d ++ [(k, v)].
Proof.
  induction d as [|[k' v'] d IH]; [done|]. cbn [fmap list_fmap fst].
  intros Hk. apply not_elem_of_cons in Hk as [Hne Hk].
  cbn [Py.dict_set]. destruct (String.eqb k' k) eqn:E.
  - apply String.eqb_eq in E. congruence.
  - by rewrite (IH Hk).
Qed.

Lemma dict_of_fresh acc kvs :
  NoDup (acc.*1 ++ kvs.*1) →
  foldl (λ d kv, Py.dict_set kv.1 kv.2 d) acc kvs = acc ++ kvs.
Proof.
  revert acc. induction kvs as [|[k v] kvs IH]; intros acc Hnd.
  - by rewrite app_nil_r.
  - cbn [foldl fst snd]. rewrite dict_set_fresh.
    + rewrite IH; [by rewrite <- app_assoc|].
      rewrite fmap_app. cbn. rewrite <- app_assoc. done.
    + cbn in Hnd. apply NoDup_app in Hnd as (_ & Hd & _).
      intros Hin. apply (Hd k Hin). by left.
Qed.

(** X17. A ["@BATCH"] header made of the tag and [KEY=VALUE] fields, one
    space before each, is parsed back into its pairs: each key is bound to
    its value, a key that occurs twice keeps its first place and its last
    value, and with distinct keys the result is the list of pairs in the
    order of the header.  (Keys without white space, ["="] or ["@"];
    values without white space or ["@"], which may contain ["="].) *)
Theorem batch_header_round_trip (kvs : list (string * string)) :
  Forall clean kvs →
  Console.parse_kv_from_batch_header (batch_header kvs) = dict_of kvs ∧
  (NoDup kvs.*1 → Console.parse_kv_from_batch_header (batch_header kvs) = kvs).
Proof.
  intros Hc.
  assert (Console.parse_kv_from_batch_header (batch_header kvs) = dict_of kvs) as Heq.
  { unfold Console.parse_kv_from_batch_header, dict_of.
    rewrite words_of_header by done.
    generalize (@nil (string * string)) as acc.
    induction Hc as [|kv kvs Hkv _ IH]; intros acc; [done|].
    cbn [fmap list_fmap foldl]. rewrite (cut_token kv Hkv).
    destruct Hkv as [[[Hk _]%andb_true_iff _]%andb_true_iff [Hv _]%andb_true_iff].
    rewrite (strip_no_space _ Hk), (strip_no_space _ Hv). apply IH. }
  split; [done|]. intros Hnd. rewrite Heq. unfold dict_of.
  by rewrite dict_of_fresh.
Qed.

(** The header of the firmware, and one with a repeated key. *)
Lemma batch_header_round_trip_witness :
  Console.parse_kv_from_batch_header "@BATCH RUN=7 TICK0=0 K=300"
  = [("RUN", "7"); ("TICK0", "0"); ("K", "300")]%string ∧
  Console.parse_kv_from_batch_header "@BATCH K=1 S=a=b K=2"
  = [("K", "2"); ("S", "a=b")]%string.
Proof.
  split.
  - refine (proj2 (batch_header_round_trip
                     [("RUN", "7"); ("TICK0", "0"); ("K", "300")]%string _) _).
    + repeat constructor.
    + apply (bool_decide_unpack _). vm_compute. reflexivity.
  - refine (proj1 (batch_header_round_trip
                     [("K", "1"); ("S", "a=b"); ("K", "2")]%string _)).
    repeat constructor.
Defined.

(** ** The prompts of the console client *)

Lemma safe_input_blank {A} typed (d : A) :
  blank typed → Console.safe_input typed d = inr d.
Proof.
  unfold blank, Console.safe_input. destruct typed as [s|]; [|done]. by intros ->.
Qed.

Lemma to_int_None `{Py.Builtins} typed d :
  Console.to_int (Console.safe_input typed d) = None ↔ rejected Py.int_of_str typed.
Proof.
  unfold rejected, Console.safe_input. destruct typed as [s|].
  - destruct (Py.strip s) as [|c t] eqn:E; cbn [Console.to_int].
    + split; [done|]. intros (s' & [= <-] & Hne & _). by rewrite E in Hne.
    + split.
      * intros Hp. exists s. by rewrite E.
      * intros (s' & [= <-] & _ & Hp). by rewrite E in Hp.
  - cbn. split; [done|]. by intros (s' & [=] & _).
Qed.

Lemma to_float_None `{Py.Builtins} typed d :
  Console.to_float (Console.safe_input typed d) = None
  ↔ rejected Py.float_of_str typed.
Proof.
  unfold rejected, Console.safe_input. destruct typed as [s|].
  - destruct (Py.strip s) as [|c t] eqn:E; cbn [Console.to_float].
    + split; [done|]. intros (s' & [= <-] & Hne & _). by rewrite E in Hne.
    + split.
      * intros Hp. exists s. by rewrite E.
      * intros (s' & [= <-] & _ & Hp). by rewrite E in Hp.
  - cbn. split; [done|]. by intros (s' & [=] & _).
Qed.

(** X18. At the prompts of the console client, answers left blank keep
    the settings of the file, so that the commands sent are those of a
    run without prompts.  A numeric answer that is not blank and that
    [int] (or [float], for the temperature) rejects raises out of [main]
    before anything is written to the port, and nothing else does: the
    three start commands are written exactly when no answer is rejected. *)
Theorem prompts_blank_or_rejected `{Py.Builtins} (a : Console.answers)
  (port : string) (baud : Z) (s : Console.settings) :
  (blank (Console.a_port a) → blank (Console.a_baud a) →
   blank (Console.a_slaves a) → blank (Console.a_bits a) →
   blank (Console.a_t a) → blank (Console.a_b a) → blank (Console.a_kp a) →
   blank (Console.a_m a) → blank (Console.a_k a) → blank (Console.a_stride a) →
   blank (Console.a_burn a) →
   Console.ask a port baud s = Some (port, baud, s) ∧
   Console.main_start true a port baud s = Some (Console.start s)) ∧
  (Console.main_start true a port baud s = None ↔
   rejected Py.int_of_str (Console.a_baud a) ∨
   rejected Py.int_of_str (Console.a_slaves a) ∨
   rejected Py.int_of_str (Console.a_bits a) ∨
   rejected Py.float_of_str (Console.a_t a) ∨
   rejected Py.int_of_str (Console.a_b a) ∨
   rejected Py.int_of_str (Console.a_kp a) ∨
   rejected Py.int_of_str (Console.a_m a) ∨
   rejected Py.int_of_str (Console.a_k a) ∨
   rejected Py.int_of_str (Console.a_stride a) ∨
   rejected Py.int_of_str (Console.a_burn a)) ∧
  (∀ cmds, Console.main_start true a port baud s = Some cmds →
           ∃ s', cmds = Console.start s' ∧
                 Console.RING_WEIGHT s' = Console.RING_WEIGHT s).
Proof.
  split; [|split].
  - intros H0 H1 H2 H3 H4 H5 H6 H7 H8 H9 H10.
    assert (Console.ask a port baud s = Some (port, baud, s)) as Hask.
    { unfold Console.ask. rewrite !safe_input_blank by done. cbn. by destruct s. }
    split; [done|]. unfold Console.main_start. by rewrite Hask.
  - unfold Console.main_start, Console.ask. cbv zeta.
    rewrite <- (to_int_None (Console.a_baud a) baud),
      <- (to_int_None (Console.a_slaves a) (Console.NUM_SLAVES s)),
      <- (to_int_None (Console.a_bits a) (Console.BITS_PER_SLAVE s)),
      <- (to_float_None (Console.a_t a) (Console.PARAM_T s)),
      <- (to_int_None (Console.a_b a) (Console.PARAM_B s)),
      <- (to_int_None (Console.a_kp a) (Console.PARAM_KP s)),
      <- (to_int_None (Console.a_m a) (Console.PARAM_M s)),
      <- (to_int_None (Console.a_k a) (Console.BATCH_K s)),
      <- (to_int_None (Console.a_stride a) (Console.BATCH_STRIDE s)),
      <- (to_int_None (Console.a_burn a) (Console.BATCH_BURN s)).
    destruct (Console.to_int (Console.safe_input (Console.a_baud a) baud));
      [|cbn; intuition done].
    destruct (Console.to_int (Console.safe_input (Console.a_slaves a) _));
      [|cbn; intuition done].
    destruct (Console.to_int (Console.safe_input (Console.a_bits a) _));
      [|cbn; intuition done].
    destruct (Console.to_float (Console.safe_input (Console.a_t a) _));
      [|cbn; intuition done].
    destruct (Console.to_int (Console.safe_input (Console.a_b a) _));
      [|cbn; intuition done].
    destruct (Console.to_int (Console.safe_input (Console.a_kp a) _));
      [|cbn; intuition done].
    destruct (Console.to_int (Console.safe_input (Console.a_m a) _));
      [|cbn; intuition done].
    destruct (Console.to_int (Console.safe_input (Console.a_k a) _));
      [|cbn; intuition done].
    destruct (Console.to_int (Console.safe_input (Console.a_stride a) _));
      [|cbn; intuition done].
    destruct (Console.to_int (Console.safe_input (Console.a_burn a) _));
      [|cbn; intuition done].
    cbn. split; [done|]. intros Hr. repeat (destruct Hr as [Hr|Hr]; [done|]). done.
  - intros cmds. unfold Console.main_start.
    destruct (Console.ask a port baud s) as [[[p b] s']|] eqn:E; [|done].
    cbn. intros [= <-]. exists s'. split; [done|].
    unfold Console.ask in E. cbv zeta in E.
    repeat match type of E with
           | (match ?x with _ => _ end) = _ => destruct x; [|done]
           | (?x ≫= _) = _ => destruct x; [cbn [mbind option_bind] in E|done]
           end.
    by injection E as _ _ <-.
Qed.

(** The bias answered as ["abc"], and every prompt left blank. *)
Lemma prompts_blank_or_rejected_witness :
  let none := Console.Answers None None None None None None None None None None None in
  let bad := Console.Answers None None None None None (Some "abc"%string)
               None None None None None in
  Console.main_start (H := Ascii_builtins.ascii) true none "COM16" 115200
    Console.defaults
  = Some [HELLO; PARAM 0.2 5 60 1; GET 300 1 20] ∧
  Console.main_start (H := Ascii_builtins.ascii) true bad "COM16" 115200
    Console.defaults = None.
Proof.
  intros none bad. split.
  - by apply (prompts_blank_or_rejected (H := Ascii_builtins.ascii)
                none "COM16" 115200 Console.defaults).
  - apply (prompts_blank_or_rejected (H := Ascii_builtins.ascii)
             bad "COM16" 115200 Console.defaults).
    do 4 right. left. exists "abc"%string. done.
Defined.

(** ** The two clients on the same records *)

Lemma sorted_keys_fmap {V W} (f : gmap Z V → gmap Z W) (tb : gmap Z (gmap Z V)) :
  sorted_keys (f <$> tb) = sorted_keys tb.
Proof.
  destruct (sorted_keys_spec (f <$> tb)) as (Hs1 & Hn1 & _ & He1).
  destruct (sorted_keys_spec tb) as (Hs2 & Hn2 & _ & He2).
  apply (StronglySorted_unique Z.le); [done..|].
  apply NoDup_Permutation; [done..|]. intros k.
  by rewrite He1, He2, lookup_fmap, fmap_is_Some.
Qed.

Lemma foldl_delete_fmap {V W} (f : gmap Z V → gmap Z W) (tb : gmap Z (gmap Z V)) l :
  foldl (λ m old, delete old m) (f <$> tb) l
  = f <$> foldl (λ m old, delete old m) tb l.
Proof.
  revert tb. induction l as [|k l IH]; intros tb; [done|].
  cbn [foldl]. by rewrite <- fmap_delete, IH.
Qed.

Lemma cleanup_fmap {V W} (f : gmap Z V → gmap Z W) (tb : gmap Z (gmap Z V)) :
  cleanup (f <$> tb) = f <$> cleanup tb.
Proof.
  unfold cleanup. rewrite map_size_fmap, sorted_keys_fmap.
  destruct (50 <? Z.of_nat (size tb)); [|done]. apply foldl_delete_fmap.
Qed.

Lemma entry_after_fmap {V W} (f : V → W) (tb : gmap Z (gmap Z V)) tick sidx v :
  entry_after ((λ entry : gmap Z V, f <$> entry) <$> tb) tick sidx (f v)
  = f <$> entry_after tb tick sidx v.
Proof.
  unfold entry_after. rewrite lookup_fmap, fmap_insert.
  destruct (tb !! tick); cbn; [done|]. by rewrite fmap_empty.
Qed.

Lemma store_fmap {V W} (f : V → W) (tb : gmap Z (gmap Z V)) tick sidx v :
  store ((λ entry : gmap Z V, f <$> entry) <$> tb) tick sidx (f v)
  = (λ entry : gmap Z V, f <$> entry) <$> store tb tick sidx v.
Proof.
  unfold store.
  fold (entry_after ((λ entry : gmap Z V, f <$> entry) <$> tb) tick sidx (f v)).
  fold (entry_after tb tick sidx v). by rewrite entry_after_fmap, fmap_insert.
Qed.

Lemma mapM_lookup_fmap {V W} (f : V → W) (entry : gmap Z V) l :
  mapM (λ s, (f <$> entry) !! s) l = fmap f <$> mapM (λ s, entry !! s) l.
Proof.
  induction l as [|s l IH]; [done|]. cbn [mapM]. rewrite IH, lookup_fmap.
  destruct (entry !! s); [|done]. cbn.
  by destruct (mapM (λ s0 : Z, entry !! s0) l).
Qed.

Lemma complete_fmap {V W} (f : V → W) n (entry : gmap Z V) :
  complete n (f <$> entry) ↔ complete n entry.
Proof.
  unfold complete. split; intros Hc s Hs; specialize (Hc s Hs).
  - by rewrite lookup_fmap, fmap_is_Some in Hc.
  - by rewrite lookup_fmap, fmap_is_Some.
Qed.

Lemma clients_step cfg g stc std tick sidx t :
  Console.NUM_SLAVES cfg = 4 → Console.BITS_PER_SLAVE cfg = 4 →
  Console.RING_WEIGHT cfg = 1%float →
  same_masks (Console.tick_buffer stc) (Dashboard.tick_buffer std) →
  ∃ stc' ev,
    Console.ingest cfg stc tick sidx t = Console.Continue stc' ev ∧
    (Dashboard.ingest g std tick sidx (Console.bmask t)).2 = ev ∧
    same_masks (Console.tick_buffer stc')
      (Dashboard.tick_buffer
         (Dashboard.ingest g std tick sidx (Console.bmask t)).1.1).
Proof.
  intros HN HB HW Hsame. unfold same_masks in *.
  destruct (console_ingest_total cfg stc tick sidx t) as (stc' & evc & Ec); [lia|].
  destruct (Dashboard.ingest g std tick sidx (Console.bmask t))
    as [[std' cmds] evd] eqn:Ed.
  exists stc', evc. split; [done|]. cbn [fst snd].
  pose proof (console_ingest_buffer_cases _ _ _ _ _ _ _ Ec) as Hbc.
  pose proof (dashboard_ingest_buffer_cases _ _ _ _ _ _ _ _ Ed) as Hbd.
  apply console_ingest_inv in Ec. apply dashboard_ingest_inv in Ed.
  cbv zeta in *. rewrite Hsame in Hbd, Ed.
  rewrite store_fmap, entry_after_fmap, map_size_fmap in Hbd.
  rewrite entry_after_fmap in Ed. rewrite HN in Hbc, Ec. rewrite HB in Ec.
  change Dashboard.NUM_SLAVES with 4 in *.
  split.
  - destruct evc as [sc|], evd as [sd|].
    + destruct Ec as (Htc & _ & _ & (vs & Hvs & Hbc') & Hsc & _).
      destruct Ed as (Htd & _ & (ws & Hws & Hbd') & Hsd & _).
      rewrite mapM_lookup_fmap, Hvs in Hws. injection Hws as <-.
      rewrite <- list_fmap_compose in Hbd'.
      assert (Console.edges cfg = Dashboard.EDGES) as He.
      { unfold Console.edges, Console.build_edges, Console.n_bits.
        by rewrite HN, HB, HW. }
      rewrite He in Hsc. destruct sc as [tc bc xc], sd as [td bd xd]. cbn in *.
      assert (bd = bc) as -> by (by rewrite Hbd', Hbc').
      rewrite Hsd in Hsc. injection Hsc as ->. by rewrite Htc, Htd.
    + destruct Ec as (_ & _ & Hc & _). destruct Ed as (Hn & _).
      by rewrite complete_fmap in Hn.
    + destruct Ec as (Hn & _). destruct Ed as (_ & Hc%complete_fmap & _).
      destruct Hn; [lia|done].
    + done.
  - destruct Hbc as [(Hlt & -> & _)|(Hge & ->)], Hbd as [(Hlt' & -> & _)|(Hge' & ->)];
      try lia; [done|]. by rewrite cleanup_fmap.
Qed.

(** X19. On the same records, the dashboard scores what the console
    client scores when the latter runs with four slaves of four bits and
    ring weight [1.0] (its defaults): the same samples, with the same
    ticks, bits and scores, in the same order, and buffers that hold the
    same masks afterwards; the console client never raises on them.  The
    loss, noise and seed fields and the annealing of the dashboard play
    no part. *)
Theorem clients_score_the_same (cfg : Console.settings) (g : Dashboard.gui)
  (stc : Console.state) (std : Dashboard.state) (rs : list Console.record) :
  Console.NUM_SLAVES cfg = 4 → Console.BITS_PER_SLAVE cfg = 4 →
  Console.RING_WEIGHT cfg = 1%float →
  same_masks (Console.tick_buffer stc) (Dashboard.tick_buffer std) →
  let masks := (λ r : Console.record, (r.1.1, r.1.2, Console.bmask r.2)) <$> rs in
  ∃ stc' evs,
    Console.ingest_all cfg stc rs = Some (stc', evs) ∧
    (Dashboard.ingest_all g std masks).2 = evs ∧
    same_masks (Console.tick_buffer stc')
      (Dashboard.tick_buffer (Dashboard.ingest_all g std masks).1.1).
Proof.
  intros HN HB HW. cbv zeta. revert stc std.
  induction rs as [|[[tick sidx] t] rs IH]; intros stc std Hsame.
  - by exists stc, [].
  - cbn [fmap list_fmap Console.ingest_all Dashboard.ingest_all fst snd].
    destruct (clients_step cfg g stc std tick sidx t HN HB HW Hsame)
      as (stc1 & ev & -> & Hev & Hsame1).
    destruct (Dashboard.ingest g std tick sidx (Console.bmask t))
      as [[std1 cmds] evd]. cbn [fst snd] in Hev, Hsame1. subst evd.
    destruct (IH stc1 std1 Hsame1) as (stc2 & evs & -> & Hevs & Hsame2).
    destruct (Dashboard.ingest_all g std1 _) as [[std2 cmds'] evs'].
    cbn [fst snd] in *. subst evs'. by exists stc2, (option_list ev ++ evs).
Qed.

(** One tick from the initial states of the two clients. *)
Lemma clients_score_the_same_witness :
  let g := Dashboard.Gui 300 0.2 true 0.35 0.05 in
  let t bm := Console.Tuple bm 7 0.5 42 in
  let rs := [(0, 0, t 5); (0, 1, t 5); (0, 2, t 5); (0, 3, t 5)] in
  ∃ stc' evs,
    Console.ingest_all Console.defaults Console.init rs = Some (stc', evs) ∧
    (Dashboard.ingest_all g Dashboard.init
       [(0, 0, 5); (0, 1, 5); (0, 2, 5); (0, 3, 5)]).2 = evs ∧
    length evs = 1%nat.
Proof.
  intros g t rs.
  destruct (clients_score_the_same Console.defaults g Console.init Dashboard.init rs)
    as (stc' & evs & Hc & Hd & _); [done..| |].
  - unfold same_masks. cbn. by rewrite fmap_empty.
  - exists stc', evs. split; [done|]. split; [done|].
    rewrite <- Hd. vm_compute. reflexivity.
Defined.

(** ** The optimum of the dashboard's ring *)

Lemma filter_cons_length {A} (f : A → bool) x l :
  length (List.filter f (x :: l))
  = ((if f x then 1 else 0) + length (List.filter f l))%nat.
Proof. cbn [List.filter]. by destruct (f x). Qed.

Lemma cut_term a b :
  (a = 0 ∨ a = 1) → (b = 0 ∨ b = 1) →
  ∃ c k : nat,
    (if negb (a =? b)%Z then 1%nat else 0%nat) = c ∧ (c ≤ 1)%nat ∧
    Z.of_nat c + 2 * Z.of_nat k = a + b ∧ 0 ≤ a ≤ 1.
Proof.
  intros [->| ->] [->| ->]; cbn.
  - exists 0%nat, 0%nat. lia.
  - exists 1%nat, 0%nat. lia.
  - exists 1%nat, 0%nat. lia.
  - exists 0%nat, 1%nat. lia.
Qed.

Lemma float_of_count_inj c :
  (c ≤ 16)%nat → Py.float_of_int (Z.of_nat c) = 16%float → c = 16%nat.
Proof.
  intros Hc. do 17 (destruct c as [|c]; [by vm_compute|]). lia.
Qed.

Lemma ring_cut_cases b0 b1 b2 b3 b4 b5 b6 b7 b8 b9 b10 b11 b12 b13 b14 b15 :
  is_bits [b0; b1; b2; b3; b4; b5; b6; b7; b8; b9; b10; b11; b12; b13; b14; b15] →
  let bits := [b0; b1; b2; b3; b4; b5; b6; b7; b8; b9; b10; b11; b12; b13; b14; b15] in
  (∃ k, (k ≤ 8)%nat ∧ cut_count bits = (2 * k)%nat) ∧
  (cut_count bits = 16%nat →
   bits = [1; 0; 1; 0; 1; 0; 1; 0; 1; 0; 1; 0; 1; 0; 1; 0] ∨
   bits = [0; 1; 0; 1; 0; 1; 0; 1; 0; 1; 0; 1; 0; 1; 0; 1]).
Proof.
  intros Hb bits. unfold is_bits in Hb.
  repeat match goal with
         | H : Forall _ (_ :: _) |- _ => apply Forall_cons in H as [? H]
         end.
  clear Hb.
  assert (cut_count bits
          = ((if negb (b0 =? b1)%Z then 1 else 0) + ((if negb (b1 =? b2)%Z then 1 else 0)
             + ((if negb (b2 =? b3)%Z then 1 else 0) + ((if negb (b3 =? b4)%Z then 1 else 0)
             + ((if negb (b4 =? b5)%Z then 1 else 0) + ((if negb (b5 =? b6)%Z then 1 else 0)
             + ((if negb (b6 =? b7)%Z then 1 else 0) + ((if negb (b7 =? b8)%Z then 1 else 0)
             + ((if negb (b8 =? b9)%Z then 1 else 0) + ((if negb (b9 =? b10)%Z then 1 else 0)
             + ((if negb (b10 =? b11)%Z then 1 else 0)
             + ((if negb (b11 =? b12)%Z then 1 else 0)
             + ((if negb (b12 =? b13)%Z then 1 else 0)
             + ((if negb (b13 =? b14)%Z then 1 else 0)
             + ((if negb (b14 =? b15)%Z then 1 else 0)
             + ((if negb (b15 =? b0)%Z then 1 else 0) + 0))))))))))))))))%nat) as ->.
  { unfold cut_count.
    change Dashboard.EDGES
      with [(0, 1, 1%float); (1, 2, 1%float); (2, 3, 1%float); (3, 4, 1%float);
            (4, 5, 1%float); (5, 6, 1%float); (6, 7, 1%float); (7, 8, 1%float);
            (8, 9, 1%float); (9, 10, 1%float); (10, 11, 1%float); (11, 12, 1%float);
            (12, 13, 1%float); (13, 14, 1%float); (14, 15, 1%float);
            (15, 0, 1%float)].
    rewrite !filter_cons_length. reflexivity. }
  destruct (cut_term b0 b1) as (c0 & k0 & -> & ? & ? & ?); [done..|].
  destruct (cut_term b1 b2) as (c1 & k1 & -> & ? & ? & ?); [done..|].
  destruct (cut_term b2 b3) as (c2 & k2 & -> & ? & ? & ?); [done..|].
  destruct (cut_term b3 b4) as (c3 & k3 & -> & ? & ? & ?); [done..|].
  destruct (cut_term b4 b5) as (c4 & k4 & -> & ? & ? & ?); [done..|].
  destruct (cut_term b5 b6) as (c5 & k5 & -> & ? & ? & ?); [done..|].
  destruct (cut_term b6 b7) as (c6 & k6 & -> & ? & ? & ?); [done..|].
  destruct (cut_term b7 b8) as (c7 & k7 & -> & ? & ? & ?); [done..|].
  destruct (cut_term b8 b9) as (c8 & k8 & -> & ? & ? & ?); [done..|].
  destruct (cut_term b9 b10) as (c9 & k9 & -> & ? & ? & ?); [done..|].
  destruct (cut_term b10 b11) as (c10 & k10 & -> & ? & ? & ?); [done..|].
  destruct (cut_term b11 b12) as (c11 & k11 & -> & ? & ? & ?); [done..|].
  destruct (cut_term b12 b13) as (c12 & k12 & -> & ? & ? & ?); [done..|].
  destruct (cut_term b13 b14) as (c13 & k13 & -> & ? & ? & ?); [done..|].
  destruct (cut_term b14 b15) as (c14 & k14 & -> & ? & ? & ?); [done..|].
  destruct (cut_term b15 b0) as (c15 & k15 & -> & ? & ? & ?); [done..|].
  repeat match goal with H : _ ∨ _ |- _ => clear H end.
  split.
  - exists (Z.to_nat (b0 + b1 + b2 + b3 + b4 + b5 + b6 + b7 + b8 + b9 + b10 + b11
                      + b12 + b13 + b14 + b15)
            - (k0 + k1 + k2 + k3 + k4 + k5 + k6 + k7 + k8 + k9 + k10 + k11 + k12
               + k13 + k14 + k15))%nat.
    lia.
  - intros Hall. subst bits.
    assert (b0 = 1 ∨ b0 = 0) as [->| ->] by lia; [left|right];
      repeat f_equal; lia.
Qed.

(** X20. On sixteen zeros and ones, the score of the dashboard's ring is
    an even number from 0 to 16, and it is 16, the ["16 / 16"] of the
    window, for exactly two bit sequences: the alternating ones, which the
    masks 5 and 10 of every slave give. *)
Theorem ring_score_even_and_optimum (bits : list Z) :
  length bits = 16%nat → is_bits bits →
  (∃ k, (k ≤ 8)%nat ∧
        maxcut_score bits Dashboard.EDGES
        = Some (Py.float_of_int (Z.of_nat (2 * k)))) ∧
  (maxcut_score bits Dashboard.EDGES = Some 16%float ↔
   bits = bits_from_bmask 21845 16 ∨ bits = bits_from_bmask 43690 16) ∧
  bits_from_bmask 21845 16 = concat ((λ bm, bits_from_bmask bm 4) <$> [5; 5; 5; 5]) ∧
  bits_from_bmask 43690 16
  = concat ((λ bm, bits_from_bmask bm 4) <$> [10; 10; 10; 10]).
Proof.
  intros Hlen Hb. rewrite dashboard_score_count by done.
  do 16 (destruct bits as [|? bits]; [done|]). destruct bits; [|done]. clear Hlen.
  destruct (ring_cut_cases _ _ _ _ _ _ _ _ _ _ _ _ _ _ _ _ Hb) as [(k & Hk & Hc) Hopt].
  cbv zeta in *. split; [|split; [|split]].
  - exists k. by rewrite Hc.
  - split.
    + intros [= Hs]. apply float_of_count_inj in Hs; [|apply cut_count_le].
      destruct (Hopt Hs) as [->| ->]; [left|right]; reflexivity.
    + intros [->| ->]; vm_compute; reflexivity.
  - reflexivity.
  - reflexivity.
Qed.

(** The sample of four masks 5. *)
Lemma ring_score_even_and_optimum_witness :
  maxcut_score (concat ((λ bm, bits_from_bmask bm 4) <$> [5; 5; 5; 5])) Dashboard.EDGES
  = Some 16%float.
Proof.
  destruct (ring_score_even_and_optimum
              (concat ((λ bm, bits_from_bmask bm 4) <$> [5; 5; 5; 5])))
    as (_ & Hopt & _ & _).
  - reflexivity.
  - apply is_bits_concat. rewrite Forall_fmap. apply Forall_forall.
    intros bm _. apply bits_from_bmask_is_bits.
  - apply Hopt. by left.
Defined.
